(** * OpenCode Micromanager: the message-interceptor plugin

    A shallow embedding of [.opencode/plugins/message-interceptor.ts] and
    the properties of it that the specification states.

    - JavaScript strings are sequences of UTF-16 code units ([list N]);
      [js "..."] writes an ASCII literal.  Indices are [Z], with [-1] for
      "not found", as [indexOf] and [lastIndexOf] return them.
    - The closure variables of the plugin ([config], [analytics],
      [capturedSystem], [capturedModel]) and the world it acts on (the
      file system, the host's log, the system calls made) are explicit
      state, threaded through a state-and-exception monad.  A call
      finishes, returning or throwing, or it blocks for ever.
    - What the runtime and the operating system decide (the upper-casing
      of a string, [JSON.stringify], the name [mkdtemp] picks, what the
      editor does to the file system, whether it ever exits, which call
      fails) is the [Host] interface.  [execSync] returns when the
      editor has exited, and blocks when it never does.
    - Messages and parts are values: the host builds [output.messages]
      from its storage, every message and every part an object of its
      own.  The array [messages] the hook derives from it shares the
      [parts] arrays, and is read only before the splice. *)

From Stdlib Require Import ZArith NArith List String Ascii Bool Lia DecimalString.
From stdpp Require Import base option list gmap.
Import ListNotations.

(** ** JavaScript strings and arrays *)

Abbreviation jsstring := (list N).

Definition js (s : string) : jsstring :=
  List.map N_of_ascii (list_ascii_of_string s).

(** [===] on two strings. *)
Fixpoint streqb (a b : jsstring) : bool :=
  match a, b with
  | [], [] => true
  | x :: a', y :: b' => (x =? y)%N && streqb a' b'
  | _, _ => false
  end.

(** [`${n}`] for a non-negative integer. *)
Definition Number_toString (n : nat) : jsstring :=
  js (NilEmpty.string_of_uint (Nat.to_uint n)).

Module JSString.
#[local] Open Scope Z_scope.

(** [s] begins with [pat]. *)
Fixpoint starts_with (pat s : jsstring) : bool :=
  match pat, s with
  | [], _ => true
  | _ :: _, [] => false
  | p :: pat', c :: s' => (p =? c)%N && starts_with pat' s'
  end.

(** The least position of a match of [pat] in [s], the positions of [s]
    counted from [k]; [-1] when there is none. *)
Fixpoint index_from (pat s : jsstring) (k : Z) : Z :=
  if starts_with pat s then k
  else match s with
       | [] => -1
       | _ :: s' => index_from pat s' (k + 1)
       end.

(** The greatest position of a match. *)
Fixpoint last_index_from (pat s : jsstring) (k : Z) : Z :=
  match s with
  | [] => if starts_with pat [] then k else -1
  | _ :: s' =>
      let later := last_index_from pat s' (k + 1) in
      if later =? -1 then (if starts_with pat s then k else -1) else later
  end.

(** An index argument clamped to [0 .. length]. *)
Definition clamp (len : nat) (z : Z) : nat :=
  Z.to_nat (Z.min (Z.max z 0) (Z.of_nat len)).

(** [s.indexOf(pat, position)] *)
Definition indexOf (s pat : jsstring) (position : Z) : Z :=
  let start := clamp (length s) position in
  index_from pat (drop start s) (Z.of_nat start).

(** [s.lastIndexOf(pat)] *)
Definition lastIndexOf (s pat : jsstring) : Z :=
  last_index_from pat s 0.

(** [s.substring(a)] and [s.substring(a, b)]: both ends clamped, and
    swapped when [a > b]. *)
Definition substring (s : jsstring) (a : Z) (b : option Z) : jsstring :=
  let len := length s in
  let ia := clamp len a in
  let ib := match b with Some b => clamp len b | None => len end in
  take (Nat.max ia ib - Nat.min ia ib) (drop (Nat.min ia ib) s).

(** [s.replace(/^\n+/, "")]: without the [m] flag [^] is the start of the
    string, so the match is the leading run of line feeds. *)
Fixpoint replace_leading_newlines (s : jsstring) : jsstring :=
  match s with
  | c :: s' => if (c =? 10)%N then replace_leading_newlines s' else s
  | [] => []
  end.

(** White space and line terminators, as [trim] removes them. *)
Definition is_whitespace (c : N) : bool :=
  ((9 <=? c) && (c <=? 13) || (c =? 32) || (c =? 160) || (c =? 5760)
   || (8192 <=? c) && (c <=? 8202) || (c =? 8232) || (c =? 8233)
   || (c =? 8239) || (c =? 8287) || (c =? 12288) || (c =? 65279))%N.

Fixpoint trimStart (s : jsstring) : jsstring :=
  match s with
  | c :: s' => if is_whitespace c then trimStart s' else s
  | [] => []
  end.

Definition trimEnd (s : jsstring) : jsstring := rev (trimStart (rev s)).

(** [s.trim()] *)
Definition trim (s : jsstring) : jsstring := trimEnd (trimStart s).

(** [lines.join(sep)] *)
Fixpoint join (sep : jsstring) (lines : list jsstring) : jsstring :=
  match lines with
  | [] => []
  | [l] => l
  | l :: rest => l ++ sep ++ join sep rest
  end.

(** [xs.indexOf(x)] on an array of strings. *)
Fixpoint array_index_from (x : jsstring) (xs : list jsstring) (k : Z) : Z :=
  match xs with
  | [] => -1
  | y :: ys => if streqb y x then k else array_index_from x ys (k + 1)
  end.

Definition array_indexOf (xs : list jsstring) (x : jsstring) : Z :=
  array_index_from x xs 0.

End JSString.

(** ** Values the host hands to the plugin *)

(** A JSON value: what [JSON.parse] returns and what is passed as the
    [extra] of a log record. *)
#[warnings="-register-all"]
Inductive JSON :=
| JNull
| JBool (b : bool)
| JNum (n : Z)
| JStr (s : jsstring)
| JArr (items : list JSON)
| JObj (members : list (jsstring * JSON)).

(** JavaScript truthiness of a value ([if (v)], [v || ...], [!v]). *)
Definition truthy (v : JSON) : bool :=
  match v with
  | JNull => false
  | JBool b => b
  | JNum n => negb (n =? 0)%Z
  | JStr s => negb (streqb s [])
  | JArr _ | JObj _ => true
  end.

(** A field that may be [undefined], read as a string: truthy when it is
    present and not empty. *)
Definition truthy_string (o : option jsstring) : bool :=
  match o with
  | Some s => negb (streqb s [])
  | None => false
  end.

(** [obj[key]] on parsed JSON: the last member of that name. *)
Fixpoint obj_get (key : jsstring) (members : list (jsstring * JSON)) : option JSON :=
  match members with
  | [] => None
  | (k, v) :: rest =>
      match obj_get key rest with
      | Some v' => Some v'
      | None => if streqb k key then Some v else None
      end
  end.

(** A message part.  The record has the fields the plugin reads ([type],
    [text], [tool], [name], [input], [output]); [others] stands for the
    rest of the object. *)
Module Part.
Record t := {
  type : jsstring;
  text : jsstring;
  tool : option jsstring;
  name : option jsstring;
  input : option JSON;
  output : option JSON;
  others : JSON
}.
(** [part.text = newText] *)
Definition set_text (newText : jsstring) (p : t) : t :=
  {| type := type p; text := newText; tool := tool p; name := name p;
     input := input p; output := output p; others := others p |}.
End Part.

Module Info.
Record t := { role : jsstring; others : JSON }.
End Info.

(** An element of [output.messages]. *)
Module Message.
Record t := { info : Info.t; parts : list Part.t }.
(** The same message object with another [parts] array content. *)
Definition set_parts (ps : list Part.t) (m : t) : t :=
  {| info := info m; parts := ps |}.
End Message.

(** What [formatFullContext] receives: [{ role, parts }]. *)
Record RoleParts := { role : jsstring; parts : list Part.t }.

(** [input.model], typed [any] where it is rendered: absent, a string, or
    an object with [providerID] and [modelID]. *)
Inductive ModelValue :=
| ModelNull
| ModelString (s : jsstring)
| ModelObject (providerID modelID : option jsstring).

(** ** Exceptions and the state monad *)

Record JsError := { message : jsstring }.

Inductive Result (A : Type) :=
| Ok (a : A)
| Throw (e : JsError).
Arguments Ok {A} a.
Arguments Throw {A} e.

(** How a call ends: it finishes, returning or throwing, or it never
    comes back ([Blocked]: it waits for something that does not happen). *)
Inductive Outcome (A : Type) :=
| Finished (r : Result A)
| Blocked.
Arguments Finished {A} r.
Arguments Blocked {A}.

(** A result stands for the outcome that finishes with it, in a pair
    with a state as well. *)
Coercion Finished : Result >-> Outcome.
Arguments pair {A B} & a b.

(** A computation over a state [S] that returns, throws or blocks; what
    it did to the state before throwing or blocking stays done. *)
Definition M (S A : Type) : Type := S -> Outcome A * S.

Definition ret {S A} (a : A) : M S A := fun s => (Ok a, s).

Definition throw {S A} (e : JsError) : M S A := fun s => (Throw e, s).

Definition bind {S A B} (c : M S A) (k : A -> M S B) : M S B :=
  fun s =>
    match c s with
    | (Finished (Ok a), s') => k a s'
    | (Finished (Throw e), s') => (Throw e, s')
    | (Blocked, s') => (Blocked, s')
    end.

(** [try { body } catch (error) { handler }]: a body that blocks never
    reaches the handler. *)
Definition try_catch {S A} (body : M S A) (handler : JsError -> M S A) : M S A :=
  fun s =>
    match body s with
    | (Finished (Ok a), s') => (Ok a, s')
    | (Finished (Throw e), s') => handler e s'
    | (Blocked, s') => (Blocked, s')
    end.

Definition get {S} : M S S := fun s => (Ok s, s).

Definition modify {S} (f : S -> S) : M S unit := fun s => (Ok tt, f s).

Declare Scope js_scope.
Delimit Scope js_scope with js.
Notation "'let!' x ':=' c 'in' k" := (bind c (fun x => k))
  (at level 10, x name, c at level 100, k at level 200) : js_scope.
Notation "'run!' c 'in' k" := (bind c (fun _ => k))
  (at level 10, c at level 100, k at level 200) : js_scope.

(** ** The world: file system, host log, system calls *)

Inductive Node :=
| Dir
| File (content : jsstring).

Inductive SysCall :=
| SysMkdtemp (path : jsstring)
| SysWriteFile (path content : jsstring)
| SysExec (command : jsstring)
| SysReadFile (path content : jsstring)
| SysUnlink (path : jsstring).

(** The [body] of a [client.app.log] call. *)
Record LogRecord := {
  service : jsstring;
  level : jsstring;
  log_message : jsstring;
  extra : option JSON
}.

Record World := {
  fs : gmap jsstring Node;
  logged : list LogRecord;
  syscalls : list SysCall;
  clock : jsstring
}.

Definition set_fs (f : gmap jsstring Node) (w : World) : World :=
  {| fs := f; logged := logged w; syscalls := syscalls w; clock := clock w |}.

Definition record_call (c : SysCall) (w : World) : World :=
  {| fs := fs w; logged := logged w; syscalls := syscalls w ++ [c]; clock := clock w |}.

(** [client.app.log({ body })]: the call is not awaited, so nothing it
    does can raise into the plugin. *)
Definition client_app_log (body : LogRecord) (w : World) : World :=
  {| fs := fs w; logged := logged w ++ [body]; syscalls := syscalls w; clock := clock w |}.

(** What the runtime and the operating system decide. *)
Class Host := {
  (** [s.toUpperCase()] *)
  toUpperCase : jsstring -> jsstring;
  (** [JSON.stringify(v, null, 2)] *)
  JSON_stringify : JSON -> jsstring;
  (** [JSON.stringify(part)] *)
  JSON_stringify_part : Part.t -> jsstring;
  (** [JSON.parse(text)] *)
  JSON_parse : jsstring -> Result JSON;
  (** [process.env.EDITOR] *)
  env_EDITOR : option jsstring;
  (** [tmpdir()], without a trailing separator *)
  tmpdir : jsstring;
  (** the characters [mkdtemp] appends to its prefix, or its failure *)
  mkdtemp_pick : gmap jsstring Node -> jsstring -> Result jsstring;
  (** a failure of [writeFile] that the file system's content does not
      explain (permissions, a full disk) *)
  writeFile_fault : gmap jsstring Node -> jsstring -> option JsError;
  (** whether the command started by [execSync] ever exits *)
  exits : jsstring -> gmap jsstring Node -> bool;
  (** the command run to completion by [execSync]: the file system it
      leaves, and its failure when it exits with an error *)
  spawn : jsstring -> gmap jsstring Node -> gmap jsstring Node * option JsError
}.

(** [join(a, b)] of [node:path], on operands that need no normalisation. *)
Definition join (a b : jsstring) : jsstring := a ++ js "/" ++ b.

(** The errors of [node:fs]: the [message] is the error code and its
    description, then the system call, and the path in quotes when the
    call was given one. *)
Definition fs_error (description syscall : jsstring) (path : option jsstring) : JsError :=
  {| message := description ++ js ", " ++ syscall
                ++ match path with
                   | Some p => js " '" ++ p ++ js "'"
                   | None => []
                   end |}.

Definition ENOENT (syscall path : jsstring) : JsError :=
  fs_error (js "ENOENT: no such file or directory") syscall (Some path).

Definition EEXIST (syscall path : jsstring) : JsError :=
  fs_error (js "EEXIST: file already exists") syscall (Some path).

Definition EISDIR (syscall : jsstring) (path : option jsstring) : JsError :=
  fs_error (js "EISDIR: illegal operation on a directory") syscall path.

(** [readFile(path, "utf-8")]: a missing file fails the [open], a
    directory is opened and fails the [read]. *)
Definition readFile (path : jsstring) : M World jsstring :=
  fun w =>
    match fs w !! path with
    | Some (File content) => (Ok content, record_call (SysReadFile path content) w)
    | Some Dir => (Throw (EISDIR (js "read") None), w)
    | None => (Throw (ENOENT (js "open") path), w)
    end.

Definition writeFile `{Host} (path content : jsstring) : M World unit :=
  fun w =>
    match writeFile_fault (fs w) path with
    | Some e => (Throw e, w)
    | None =>
        match fs w !! path with
        | Some Dir => (Throw (EISDIR (js "open") (Some path)), w)
        | _ => (Ok tt, record_call (SysWriteFile path content)
                         (set_fs (<[path := File content]> (fs w)) w))
        end
    end.

Definition mkdtemp `{Host} (prefix : jsstring) : M World jsstring :=
  fun w =>
    match mkdtemp_pick (fs w) prefix with
    | Throw e => (Throw e, w)
    | Ok suffix =>
        let path := prefix ++ suffix in
        match fs w !! path with
        | Some _ => (Throw (EEXIST (js "mkdtemp") (prefix ++ js "XXXXXX")), w)
        | None => (Ok path, record_call (SysMkdtemp path)
                              (set_fs (<[path := Dir]> (fs w)) w))
        end
    end.

(** [unlink(path)]: the system call refuses a directory (with [EISDIR],
    as on Linux). *)
Definition unlink (path : jsstring) : M World unit :=
  fun w =>
    match fs w !! path with
    | Some (File _) => (Ok tt, record_call (SysUnlink path)
                                 (set_fs (delete path (fs w)) w))
    | Some Dir => (Throw (EISDIR (js "unlink") (Some path)), w)
    | None => (Throw (ENOENT (js "unlink") path), w)
    end.

(** [execSync(command, { stdio: "inherit" })]: blocks until the command
    has exited; no [timeout] is passed, so with a command that never
    exits the call never comes back. *)
Definition execSync `{Host} (command : jsstring) : M World unit :=
  fun w =>
    if exits command (fs w) then
      match spawn command (fs w) with
      | (fs', None) => (Ok tt, record_call (SysExec command) (set_fs fs' w))
      | (fs', Some e) => (Throw e, set_fs fs' w)
      end
    else (Blocked, w).

(** ** The plugin's closure variables *)

Record Config := {
  logLevel : jsstring;
  enableEditor : bool;
  editor : jsstring;
  autoEdit : bool;
  showSystemMessages : bool;
  messageTypes : list jsstring
}.

Record Analytics := {
  messagesIntercepted : nat;
  messagesEdited : nat;
  editorSessions : nat
}.

Record Plugin := {
  config : Config;
  analytics : Analytics;
  capturedSystem : list jsstring;
  capturedModel : ModelValue
}.

(** The closure variables together with the world they are used in. *)
Record Machine := { plugin : Plugin; world : World }.

Definition on_world (f : World -> World) (m : Machine) : Machine :=
  {| plugin := plugin m; world := f (world m) |}.

Definition on_analytics (f : Analytics -> Analytics) (m : Machine) : Machine :=
  {| plugin := {| config := config (plugin m);
                  analytics := f (analytics (plugin m));
                  capturedSystem := capturedSystem (plugin m);
                  capturedModel := capturedModel (plugin m) |};
     world := world m |}.

(** A computation on the world, run where the closure variables are in
    scope; and one on the machine, run inside a hook that also holds the
    [output.messages] array it was passed. *)
Definition in_world {A} (c : M World A) : M Machine A :=
  fun m => let (r, w) := c (world m) in (r, {| plugin := plugin m; world := w |}).

Definition in_machine {A O} (c : M Machine A) : M (Machine * O) A :=
  fun s => let (r, m) := c (fst s) in (r, (m, snd s)).

(** ** [log] (lines 60-75) *)

Inductive Level := LDebug | LInfo | LWarn | LError.

Definition Level_string (l : Level) : jsstring :=
  match l with
  | LDebug => js "debug"
  | LInfo => js "info"
  | LWarn => js "warn"
  | LError => js "error"
  end.

Definition levels : list jsstring := [js "debug"; js "info"; js "warn"; js "error"].

Definition log (level : Level) (message : jsstring) (data : option JSON)
    (m : Machine) : Machine :=
  let currentLevelIndex := JSString.array_indexOf levels (logLevel (config (plugin m))) in
  let messageLevelIndex := JSString.array_indexOf levels (Level_string level) in
  if (messageLevelIndex >=? currentLevelIndex)%Z then
    on_world (client_app_log {| service := js "micromanager";
                                level := Level_string level;
                                log_message := message;
                                extra := data |}) m
  else m.

(** ** [formatFullContext] (lines 82-164) *)

Definition LF : jsstring := [10%N].

Definition push (lines : list jsstring) (line : jsstring) : list jsstring :=
  lines ++ [line].

(** [if (model)] guarding
    [`**Model:** ${model.providerID || model}/${model.modelID || ""}`]
    (lines 94-96): the line, when [model] is truthy. *)
Definition model_line (model : ModelValue) : option jsstring :=
  match model with
  | ModelNull => None
  | ModelString s =>
      if streqb s [] then None else Some (js "**Model:** " ++ s ++ js "/")
  | ModelObject providerID modelID =>
      Some (js "**Model:** "
            ++ (if truthy_string providerID then default [] providerID
                else js "[object Object]")
            ++ js "/"
            ++ (if truthy_string modelID then default [] modelID else []))
  end.

(** The body of [for (const part of msg.parts)] (lines 130-151). *)
Definition format_part `{Host} (lines : list jsstring) (part : Part.t) : list jsstring :=
  let lines :=
    if streqb (Part.type part) (js "text") then
      push lines (Part.text part)
    else if streqb (Part.type part) (js "tool") then
      let lines :=
        push lines
          (js "**[Tool: "
           ++ (if truthy_string (Part.tool part) then default [] (Part.tool part)
               else if truthy_string (Part.name part) then default [] (Part.name part)
               else js "unknown")
           ++ js "]**") in
      let lines :=
        match Part.input part with
        | Some v =>
            if truthy v then
              push (push (push lines (js "```json")) (JSON_stringify v)) (js "```")
            else lines
        | None => lines
        end in
      match Part.output part with
      | Some v =>
          if truthy v then
            push (push (push (push lines (js "Output:")) (js "```"))
                    (match v with JStr s => s | _ => JSON_stringify v end))
              (js "```")
          else lines
      | None => lines
      end
    else
      push lines
        (js "[" ++ Part.type part ++ js ": "
         ++ JSString.substring (JSON_stringify_part part) 0 (Some 200%Z) ++ js "]") in
  push lines [].

(** The header pushed for message [i] of [n] (lines 121-125). *)
Definition push_header `{Host} (lines : list jsstring) (n i : nat) (msg : RoleParts)
    : list jsstring :=
  let isLast := (Z.of_nat i =? Z.of_nat n - 1)%Z in
  let roleLabel := toUpperCase (role msg) in
  if isLast && streqb (role msg) (js "user") then
    push lines (js "## [" ++ Number_toString (i + 1) ++ js "/" ++ Number_toString n
                ++ js "] " ++ roleLabel ++ js " (Current - Editable)")
  else
    push lines (js "## [" ++ Number_toString (i + 1) ++ js "/" ++ Number_toString n
                ++ js "] " ++ roleLabel).

(** [for (let i = 0; i < messages.length; i++)] (lines 116-161), from
    index [i] on, [rest] being [messages.slice(i)] and [n] the length of
    the whole array. *)
Fixpoint format_messages `{Host} (n i : nat) (rest : list RoleParts)
    (lines : list jsstring) : list jsstring :=
  match rest with
  | [] => lines
  | msg :: rest' =>
      let lines := push_header lines n i msg in
      let lines := push lines [] in
      let lines := fold_left format_part (parts msg) lines in
      let lines := push lines (js "---") in
      let lines := push lines [] in
      format_messages n (S i) rest' lines
  end.

(** Lines 88-99: the title, the time stamp, the model and the count. *)
Definition push_title (lines : list jsstring) (timestamp : jsstring)
    (model : ModelValue) (count : nat) : list jsstring :=
  let lines := push lines (js "# OpenCode Micromanager - Full LLM Context") in
  let lines := push lines [] in
  let lines := push lines (js "**Timestamp:** " ++ timestamp) in
  let lines :=
    match model_line model with
    | Some l => push lines l
    | None => lines
    end in
  let lines := push lines (js "**Messages:** " ++ Number_toString count) in
  push lines [].

(** Lines 102-113: the system prompt, when [system] is not empty. *)
Definition push_system (lines : list jsstring) (system : list jsstring) : list jsstring :=
  if (0 <? length system)%nat then
    let lines := push lines (js "## System Prompt") in
    let lines := push lines [] in
    let lines := fold_left (fun lines s => push (push lines s) []) system lines in
    let lines := push lines (js "---") in
    push lines []
  else lines.

(** The lines pushed before the join; [timestamp] is
    [new Date().toISOString()]. *)
Definition formatFullContext_lines `{Host} (timestamp : jsstring) (system : list jsstring)
    (messages : list RoleParts) (model : ModelValue) : list jsstring :=
  let lines := [] in
  let lines := push_title lines timestamp model (length messages) in
  let lines := push_system lines system in
  format_messages (length messages) 0 messages lines.

Definition formatFullContext `{Host} (w : World) (system : list jsstring)
    (messages : list RoleParts) (model : ModelValue) : jsstring :=
  JSString.join LF (formatFullContext_lines (clock w) system messages model).

(** ** The hooks (lines 166-311) *)

Record SystemInput := { model : ModelValue }.
Record SystemOutput := { system : list jsstring }.
Record ChatMessageInput := { sessionID : jsstring; agent : option jsstring }.
Record ChatMessageOutput := { chat_parts : list Part.t }.
Record EventInput := { event_type : jsstring }.
Record ToolInput := { tool_name : jsstring; tool_sessionID : jsstring; callID : jsstring }.

Definition opt_json (o : option jsstring) : JSON :=
  match o with
  | Some s => JStr s
  | None => JNull
  end.

(** ["experimental.chat.system.transform"] (lines 168-176) *)
Definition chat_system_transform (input : SystemInput) (output : SystemOutput)
    : M Machine unit :=
  modify (fun m =>
    let m :=
      {| plugin := {| config := config (plugin m);
                      analytics := analytics (plugin m);
                      capturedSystem := system output;
                      capturedModel :=
                        match model input with
                        | ModelString s => if streqb s [] then ModelNull else ModelString s
                        | v => v
                        end |};
         world := world m |} in
    log LInfo (js "System prompt captured")
      (Some (JObj [(js "systemParts", JNum (Z.of_nat (length (system output))));
                   (js "totalLength",
                    JNum (fold_left (fun sum s => sum + Z.of_nat (length s))%Z
                            (system output) 0%Z))]))
      m).

Definition is_text (p : Part.t) : bool := streqb (Part.type p) (js "text").

(** The index at which the loop of lines 259-273 breaks: the first part
    of type ["text"], the parts [ps] being those from index [i] on. *)
Fixpoint first_text_from (ps : list Part.t) (i : nat) : option nat :=
  match ps with
  | [] => None
  | p :: ps' => if is_text p then Some i else first_text_from ps' (S i)
  end.

(** Lines 235-256: the text taken from the edited file, when the marker
    and a line feed after it are found. *)
Definition edited_text (editedContent : jsstring) : option jsstring :=
  let editableMarker := js "(Current - Editable)" in
  let markerIndex := JSString.lastIndexOf editedContent editableMarker in
  if negb (markerIndex =? -1)%Z then
    let afterMarker := JSString.indexOf editedContent LF markerIndex in
    if negb (afterMarker =? -1)%Z then
      let contentAfter := JSString.substring editedContent (afterMarker + 1)%Z None in
      let contentAfter := JSString.replace_leading_newlines contentAfter in
      let trailingSeparator := JSString.lastIndexOf contentAfter (LF ++ js "---") in
      let contentAfter :=
        if negb (trailingSeparator =? -1)%Z then
          JSString.substring contentAfter 0 (Some trailingSeparator)
        else contentAfter in
      Some (JSString.trim contentAfter)
    else None
  else None.

(** Lines 259-273: [lastMsg.parts[i].text = newText] at the first text
    part, [lastMsg] being [output.messages[last]]; the arrays keep their
    elements, one part object gets a new [text].  [part] is that same
    object, so the [originalLength] logged after the assignment is read
    from the new text. *)
Definition update_text (last : nat) (newText : jsstring)
    : M (Machine * list Message.t) unit :=
  modify (fun s =>
    match snd s !! last with
    | None => s
    | Some lastMsg =>
        match first_text_from (Message.parts lastMsg) 0 with
        | None => s
        | Some i =>
            match Message.parts lastMsg !! i with
            | None => s
            | Some part =>
                let part' := Part.set_text newText part in
                let lastMsg' :=
                  Message.set_parts (<[i := part']> (Message.parts lastMsg)) lastMsg in
                let m := on_analytics (fun a =>
                  {| messagesIntercepted := messagesIntercepted a;
                     messagesEdited := S (messagesEdited a);
                     editorSessions := editorSessions a |}) (fst s) in
                let m := log LInfo (js "User message edited successfully")
                  (Some (JObj [(js "originalLength",
                                JNum (Z.of_nat (length (Part.text part'))));
                               (js "newLength", JNum (Z.of_nat (length newText)))]))
                  m in
                (m, <[last := lastMsg']> (snd s))
            end
        end
    end).

(** Lines 211-277: the body of the [try]. *)
Definition editor_round_trip `{Host} (messages : list RoleParts) (last : nat)
    : M (Machine * list Message.t) unit :=
  (let! s := get in
   let p := plugin (fst s) in
   let formattedContext :=
     formatFullContext (world (fst s))
       (if showSystemMessages (config p) then capturedSystem p else [])
       messages (capturedModel p) in
   let! tempDir := in_machine (in_world (mkdtemp (join tmpdir (js "opencode-message-")))) in
   let tempFile := join tempDir (js "message.md") in
   run! in_machine (in_world (writeFile tempFile formattedContext)) in
   run! in_machine (modify (log LInfo (js "Opening editor for full context review")
          (Some (JObj [(js "tempFile", JStr tempFile);
                       (js "messageCount", JNum (Z.of_nat (length messages)));
                       (js "systemParts", JNum (Z.of_nat (length (capturedSystem p))))])))) in
   run! in_machine (in_world (execSync (editor (config p) ++ js " " ++ tempFile))) in
   run! in_machine (modify (on_analytics (fun a =>
          {| messagesIntercepted := messagesIntercepted a;
             messagesEdited := messagesEdited a;
             editorSessions := S (editorSessions a) |}))) in
   let! editedContent := in_machine (in_world (readFile tempFile)) in
   run! match edited_text editedContent with
        | Some newText => update_text last newText
        | None => ret tt
        end in
   in_machine (in_world (unlink tempFile)))%js.

(** Lines 278-280: the [catch]. *)
Definition on_edit_failure (error : JsError) : M (Machine * list Message.t) unit :=
  in_machine (modify (log LError (js "Failed to edit message")
    (Some (JObj [(js "error", JStr (message error))])))).

(** [output.messages.map((m) => ({ role: m.info.role, parts: m.parts }))]
    (lines 183-186) *)
Definition role_parts (output_messages : list Message.t) : list RoleParts :=
  List.map (fun m => {| role := Info.role (Message.info m); parts := Message.parts m |})
    output_messages.

(** ["experimental.chat.messages.transform"] (lines 180-281); the state
    holds [output.messages]. *)
Definition chat_messages_transform `{Host} : M (Machine * list Message.t) unit :=
  (run! in_machine (modify (on_analytics (fun a =>
          {| messagesIntercepted := S (messagesIntercepted a);
             messagesEdited := messagesEdited a;
             editorSessions := editorSessions a |}))) in
   let! s := get in
   let output_messages := snd s in
   let messages := role_parts output_messages in
   run! in_machine (modify (log LInfo (js "Full message context captured")
          (Some (JObj [(js "messageCount", JNum (Z.of_nat (length output_messages)));
                       (js "systemAvailable",
                        JBool (0 <? length (capturedSystem (plugin (fst s))))%nat)])))) in
   let cfg := config (plugin (fst s)) in
   if negb (enableEditor cfg) || negb (autoEdit cfg) then ret tt
   else
     let last := (length output_messages - 1)%nat in
     match output_messages !! last with
     | None => ret tt
     | Some lastMsg =>
         let hasTextParts := existsb is_text (Message.parts lastMsg) in
         if negb hasTextParts then ret tt
         else
           try_catch (editor_round_trip messages last) on_edit_failure
     end)%js.

(** ["chat.message"] (lines 284-290) *)
Definition chat_message (input : ChatMessageInput) (output : ChatMessageOutput)
    : M Machine unit :=
  modify (log LDebug (js "chat.message fired")
    (Some (JObj [(js "sessionID", JStr (sessionID input));
                 (js "agent", opt_json (agent input));
                 (js "partsCount", JNum (Z.of_nat (length (chat_parts output))))]))).

(** [event] (lines 292-302) *)
Definition event (input : EventInput) : M Machine unit :=
  if streqb (event_type input) (js "session.created") then
    modify (fun m =>
      let m := log LInfo (js "New session started")
                 (Some (JObj [(js "timestamp", JStr (clock (world m)))])) m in
      on_analytics (fun _ =>
        {| messagesIntercepted := 0; messagesEdited := 0; editorSessions := 0 |}) m)
  else ret tt.

(** ["tool.execute.before"] (lines 304-310) *)
Definition tool_execute_before (input : ToolInput) : M Machine unit :=
  modify (log LDebug (js "Tool execution intercepted")
    (Some (JObj [(js "tool", JStr (tool_name input));
                 (js "sessionID", JStr (tool_sessionID input));
                 (js "callID", JStr (callID input))]))).

(** ** The plugin factory (lines 7-58, 166-311) *)

Definition is_line_terminator (c : N) : bool :=
  ((c =? 10) || (c =? 13) || (c =? 8232) || (c =? 8233))%N.

(** [str.replace(/\/\/.*$/gm, "")]: from each [//] to the end of its line. *)
Fixpoint strip_line_comments (in_comment : bool) (s : jsstring) : jsstring :=
  match s with
  | [] => []
  | c :: s' =>
      if in_comment then
        if is_line_terminator c then c :: strip_line_comments false s'
        else strip_line_comments true s'
      else
        match s' with
        | c' :: s'' =>
            if ((c =? 47) && (c' =? 47))%N then strip_line_comments true s''
            else c :: strip_line_comments false s'
        | [] => [c]
        end
  end.

(** [*/] occurs in [s]. *)
Fixpoint closes_comment (s : jsstring) : bool :=
  JSString.starts_with (js "*/") s
  || match s with
     | [] => false
     | _ :: s' => closes_comment s'
     end.

(** [str.replace(/\/\*[\s\S]*?\*\//g, "")]: each [/*] up to the nearest
    [*/] after it; a [/*] that nothing closes stays. *)
Fixpoint strip_block_comments (in_comment : bool) (s : jsstring) : jsstring :=
  match s with
  | [] => []
  | c :: s' =>
      match s' with
      | c' :: s'' =>
          if in_comment then
            if ((c =? 42) && (c' =? 47))%N then strip_block_comments false s''
            else strip_block_comments true s'
          else if ((c =? 47) && (c' =? 42))%N && closes_comment s'' then
            strip_block_comments true s''
          else c :: strip_block_comments false s'
      | [] => if in_comment then [] else [c]
      end
  end.

(** Lines 18-22 *)
Definition stripJsonComments (str : jsstring) : jsstring :=
  strip_block_comments false (strip_line_comments false str).

Definition json_strings (items : list JSON) : option (list jsstring) :=
  mapM (fun v => match v with JStr s => Some s | _ => None end) items.

(** [{ ...config, ...loadedConfig }] (line 34), the loaded values read at
    the types the source gives the fields of [config].  This is the
    source's spread for a loaded object that sets options of lines 8-15
    only, each at the type it has there ([typed_options] below).  A
    value of another type, or a key that is none of the six, is copied by
    the source as it is and makes [config] an object that [Config] does
    not describe: statements about the configuration that was loaded
    assume [typed_options]. *)
Definition spread_config (c : Config) (loadedConfig : JSON) : Config :=
  match loadedConfig with
  | JObj members =>
      {| logLevel := match obj_get (js "logLevel") members with
                     | Some (JStr s) => s | _ => logLevel c end;
         enableEditor := match obj_get (js "enableEditor") members with
                         | Some (JBool b) => b | _ => enableEditor c end;
         editor := match obj_get (js "editor") members with
                   | Some (JStr s) => s | _ => editor c end;
         autoEdit := match obj_get (js "autoEdit") members with
                     | Some (JBool b) => b | _ => autoEdit c end;
         showSystemMessages := match obj_get (js "showSystemMessages") members with
                               | Some (JBool b) => b | _ => showSystemMessages c end;
         messageTypes := match obj_get (js "messageTypes") members with
                         | Some (JArr items) => default (messageTypes c) (json_strings items)
                         | _ => messageTypes c end |}
  | _ => c
  end.

Definition config_json (c : Config) : JSON :=
  JObj [(js "logLevel", JStr (logLevel c));
        (js "enableEditor", JBool (enableEditor c));
        (js "editor", JStr (editor c));
        (js "autoEdit", JBool (autoEdit c));
        (js "showSystemMessages", JBool (showSystemMessages c));
        (js "messageTypes", JArr (List.map JStr (messageTypes c)))].

(** A member of a loaded object that sets one of the options of lines
    8-15 at the type the option has there. *)
Definition option_typed (member : jsstring * JSON) : bool :=
  let (key, value) := member in
  if streqb key (js "logLevel") || streqb key (js "editor") then
    match value with JStr _ => true | _ => false end
  else if streqb key (js "enableEditor") || streqb key (js "autoEdit")
          || streqb key (js "showSystemMessages") then
    match value with JBool _ => true | _ => false end
  else if streqb key (js "messageTypes") then
    match value with
    | JArr items => forallb (fun v => match v with JStr _ => true | _ => false end) items
    | _ => false
    end
  else false.

(** An object, with each key once, all of whose members are such. *)
Definition typed_options (loadedConfig : JSON) : Prop :=
  match loadedConfig with
  | JObj members => NoDup members.*1 /\ forallb option_typed members = true
  | _ => False
  end.

(** [config[key]], the configuration taken as the object it is in the
    source. *)
Definition option_value (c : Config) (key : jsstring) : option JSON :=
  match config_json c with
  | JObj members => obj_get key members
  | _ => None
  end.

(** Lines 8-15 *)
Definition default_config `{Host} : Config :=
  {| logLevel := js "info";
     enableEditor := true;
     editor := if truthy_string env_EDITOR then default [] env_EDITOR else js "code -w";
     autoEdit := false;
     showSystemMessages := true;
     messageTypes := [js "user"; js "assistant"] |}.

(** Lines 25-41: the body of the [try]. *)
Definition read_config `{Host} (directory : jsstring) : M World Config :=
  (let! configData :=
     try_catch (readFile (join directory (js ".micromanager.jsonc")))
       (fun _ => readFile (join directory (js ".micromanager.json"))) in
   let! loadedConfig := (fun w => (JSON_parse (stripJsonComments configData), w)) in
   let config := spread_config default_config loadedConfig in
   run! modify (client_app_log
          {| service := js "micromanager";
             level := js "info";
             log_message := js "Configuration loaded from .micromanager.json";
             extra := Some (JObj [(js "config", config_json config)]) |}) in
   ret config)%js.

(** Lines 42-51: the [catch]. *)
Definition on_config_failure `{Host} (error : JsError) : M World Config :=
  (run! modify (client_app_log
         {| service := js "micromanager";
            level := js "warn";
            log_message := js "Using default configuration";
            extra := Some (JObj [(js "error", JStr (message error))]) |}) in
   ret default_config)%js.

(** Lines 24-52: the configuration the factory ends up with. *)
Definition load_config `{Host} (directory : jsstring) : M World Config :=
  try_catch (read_config directory) on_config_failure.

(** A handler of the hooks object, by the hook it serves. *)
Inductive Handler :=
| SystemTransformHandler (h : SystemInput -> SystemOutput -> M Machine unit)
| MessagesTransformHandler (h : M (Machine * list Message.t) unit)
| ChatMessageHandler (h : ChatMessageInput -> ChatMessageOutput -> M Machine unit)
| EventHandler (h : EventInput -> M Machine unit)
| ToolExecuteBeforeHandler (h : ToolInput -> M Machine unit).

(** The object returned at lines 166-311: its entries, in order. *)
Definition hooks `{Host} : list (jsstring * Handler) :=
  [(js "experimental.chat.system.transform", SystemTransformHandler chat_system_transform);
   (js "experimental.chat.messages.transform", MessagesTransformHandler chat_messages_transform);
   (js "chat.message", ChatMessageHandler chat_message);
   (js "event", EventHandler event);
   (js "tool.execute.before", ToolExecuteBeforeHandler tool_execute_before)].

(** Lines 54-58 and 78-79: the closure variables as they are declared. *)
Definition initial_plugin (config : Config) : Plugin :=
  {| config := config;
     analytics := {| messagesIntercepted := 0; messagesEdited := 0; editorSessions := 0 |};
     capturedSystem := [];
     capturedModel := ModelNull |}.

(** [MessageInterceptorPlugin({ directory, ... })]: the hooks object, and
    the closure variables as the factory leaves them. *)
Definition MessageInterceptorPlugin `{Host} (directory : jsstring)
    : M World (list (jsstring * Handler) * Plugin) :=
  (let! config := load_config directory in
   ret (hooks, initial_plugin config))%js.

(** ** The host's calls *)

Inductive HookCall :=
| CallSystemTransform (input : SystemInput) (output : SystemOutput)
| CallMessagesTransform (output_messages : list Message.t)
| CallChatMessage (input : ChatMessageInput) (output : ChatMessageOutput)
| CallEvent (input : EventInput)
| CallToolExecuteBefore (input : ToolInput).

Definition hook_name (c : HookCall) : jsstring :=
  match c with
  | CallSystemTransform _ _ => js "experimental.chat.system.transform"
  | CallMessagesTransform _ => js "experimental.chat.messages.transform"
  | CallChatMessage _ _ => js "chat.message"
  | CallEvent _ => js "event"
  | CallToolExecuteBefore _ => js "tool.execute.before"
  end.

Fixpoint find_hook (name : jsstring) (hs : list (jsstring * Handler)) : option Handler :=
  match hs with
  | [] => None
  | (k, h) :: hs' => if streqb k name then Some h else find_hook name hs'
  end.

(** The host triggers a hook: the handler registered under the call's
    name runs on the call's arguments; what it leaves is the machine (the
    array passed to the messages hook is the caller's). *)
Definition trigger (hs : list (jsstring * Handler)) (c : HookCall) (m : Machine) : Machine :=
  match find_hook (hook_name c) hs, c with
  | Some (SystemTransformHandler h), CallSystemTransform i o => snd (h i o m)
  | Some (MessagesTransformHandler h), CallMessagesTransform ms => fst (snd (h (m, ms)))
  | Some (ChatMessageHandler h), CallChatMessage i o => snd (h i o m)
  | Some (EventHandler h), CallEvent i => snd (h i m)
  | Some (ToolExecuteBeforeHandler h), CallToolExecuteBefore i => snd (h i m)
  | _, _ => m
  end.

(** A history of calls, each finding the machine as the one before left
    it.  [execSync] is synchronous: while a call is blocked in it the
    host makes no other, so in a history the host can produce only the
    last call may be one that blocks. *)
Definition run_calls (hs : list (jsstring * Handler)) (cs : list HookCall) (m : Machine)
    : Machine :=
  fold_left (fun m c => trigger hs c m) cs m.

(** ** The loops, step by step

    The same loops written as the source runs them, an index tested
    against a length before every iteration, with a bound [fuel] on the
    iterations of each loop.  [None] is a loop that has not finished
    within the bound. *)

Inductive LoopStep (St : Type) :=
| Next (s : St)
| BreakWith (s : St).
Arguments Next {St} s.
Arguments BreakWith {St} s.

(** [for (let i = ...; cond(i); i++) body], from index [i] on. *)
Fixpoint for_loop {St : Type} (fuel : nat) (cond : nat -> bool)
    (body : nat -> St -> option (LoopStep St)) (i : nat) (s : St) : option St :=
  if cond i then
    match fuel with
    | O => None
    | S fuel' =>
        match body i s with
        | Some (Next s') => for_loop fuel' cond body (S i) s'
        | Some (BreakWith s') => Some s'
        | None => None
        end
    end
  else Some s.

(** [for (const s of system)] (lines 106-109) *)
Definition push_system_steps (fuel : nat) (lines : list jsstring) (system : list jsstring)
    : option (list jsstring) :=
  if (0 <? length system)%nat then
    let lines := push lines (js "## System Prompt") in
    let lines := push lines [] in
    match for_loop fuel (fun i => i <? length system)%nat
            (fun i lines =>
               match system !! i with
               | Some s => Some (Next (push (push lines s) []))
               | None => None
               end) 0%nat lines with
    | Some lines => Some (push (push lines (js "---")) [])
    | None => None
    end
  else Some lines.

(** [for (const part of msg.parts)] (lines 129-152) *)
Definition format_parts_steps `{Host} (fuel : nat) (ps : list Part.t)
    (lines : list jsstring) : option (list jsstring) :=
  for_loop fuel (fun i => i <? length ps)%nat
    (fun i lines =>
       match ps !! i with
       | Some part => Some (Next (format_part lines part))
       | None => None
       end) 0%nat lines.

(** [for (let i = 0; i < messages.length; i++)] (lines 116-161) *)
Definition format_messages_steps `{Host} (fuel : nat) (messages : list RoleParts)
    (lines : list jsstring) : option (list jsstring) :=
  for_loop fuel (fun i => i <? length messages)%nat
    (fun i lines =>
       match messages !! i with
       | Some msg =>
           let lines := push_header lines (length messages) i msg in
           let lines := push lines [] in
           match format_parts_steps fuel (parts msg) lines with
           | Some lines => Some (Next (push (push lines (js "---")) []))
           | None => None
           end
       | None => None
       end) 0%nat lines.

Definition formatFullContext_steps `{Host} (fuel : nat) (w : World)
    (system : list jsstring) (messages : list RoleParts) (model : ModelValue)
    : option jsstring :=
  let lines := push_title [] (clock w) model (length messages) in
  match push_system_steps fuel lines system with
  | Some lines =>
      match format_messages_steps fuel messages lines with
      | Some lines => Some (JSString.join LF lines)
      | None => None
      end
  | None => None
  end.



(** ** A concrete host, for the examples *)

(** Upper-casing of the ASCII letters. *)
Definition ascii_upper (s : jsstring) : jsstring :=
  List.map (fun c => if ((97 <=? c) && (c <=? 122))%N then (c - 32)%N else c) s.

Definition example_tempDir : jsstring := js "/tmp/opencode-message-Ab12Cd".
Definition example_tempFile : jsstring := js "/tmp/opencode-message-Ab12Cd/message.md".

(** A host whose editor leaves [edited] in the temporary file (or leaves
    the file as it was written, for [None]) and exits with [failure]. *)
Definition example_host (edited : option jsstring) (failure : option JsError) : Host :=
  {| toUpperCase := ascii_upper;
     JSON_stringify := fun _ => js "{}";
     JSON_stringify_part := fun _ => js "{}";
     JSON_parse := fun _ => Ok (JObj [(js "autoEdit", JBool true)]);
     env_EDITOR := None;
     tmpdir := js "/tmp";
     mkdtemp_pick := fun _ _ => Ok (js "Ab12Cd");
     writeFile_fault := fun _ _ => None;
     exits := fun _ _ => true;
     spawn := fun _ files =>
       (match edited with
        | Some content => <[example_tempFile := File content]> files
        | None => files
        end, failure) |}.


Definition example_world : World :=
  {| fs := ∅; logged := []; syscalls := []; clock := js "2025-01-01T00:00:00.000Z" |}.

Definition example_config : Config :=
  {| logLevel := js "info"; enableEditor := true; editor := js "code -w";
     autoEdit := true; showSystemMessages := true;
     messageTypes := [js "user"; js "assistant"] |}.

Definition example_plugin : Plugin :=
  {| config := example_config;
     analytics := {| messagesIntercepted := 0; messagesEdited := 0; editorSessions := 0 |};
     capturedSystem := []; capturedModel := ModelNull |}.

Definition example_machine : Machine :=
  {| plugin := example_plugin; world := example_world |}.

Definition text_part (s : jsstring) : Part.t :=
  {| Part.type := js "text"; Part.text := s; Part.tool := None; Part.name := None;
     Part.input := None; Part.output := None; Part.others := JNull |}.

Definition file_part : Part.t :=
  {| Part.type := js "file"; Part.text := []; Part.tool := None; Part.name := None;
     Part.input := None; Part.output := None; Part.others := JNull |}.

Definition message_of (r : jsstring) (ps : list Part.t) : Message.t :=
  {| Message.info := {| Info.role := r; Info.others := JNull |}; Message.parts := ps |}.

Definition example_messages : list Message.t :=
  [message_of (js "user") [text_part (js "hi")];
   message_of (js "assistant") [text_part (js "hello")];
   message_of (js "user") [file_part; text_part (js "fix it"); text_part (js "please")]].

Definition verbose_machine : Machine :=
  {| plugin := initial_plugin
       {| logLevel := js "verbose"; enableEditor := true; editor := js "code -w";
          autoEdit := false; showSystemMessages := true; messageTypes := [] |};
     world := example_world |}.

(** The user replaced the text below the marker. *)
Definition example_edited : jsstring :=
  js "## [3/3] USER (Current - Editable)" ++ LF ++ LF
  ++ js "  fix the parser  " ++ LF ++ LF ++ js "---" ++ LF.

(** The user deleted everything below the marker, and the final line feed
    with it. *)
Definition example_cut_short : jsstring := js "## [3/3] USER (Current - Editable)".

Definition example_command : jsstring :=
  js "code -w /tmp/opencode-message-Ab12Cd/message.md".

(** A conversation with one user message, and two system hooks before
    it: the first captures a prompt, the second an empty array. *)
Definition example_prior : list HookCall :=
  [CallSystemTransform {| model := ModelNull |} {| system := [js "be nice"] |};
   CallSystemTransform {| model := ModelNull |} {| system := [] |}].

Definition example_one_message : list Message.t :=
  [message_of (js "user") [text_part (js "hi")]].

(** ** Vocabulary of the statements *)

(** The machine after lines 181-191 of the messages hook: the counter
    incremented and the capture logged. *)
Definition after_capture (m : Machine) (output_messages : list Message.t) : Machine :=
  log LInfo (js "Full message context captured")
    (Some (JObj [(js "messageCount", JNum (Z.of_nat (length output_messages)));
                 (js "systemAvailable",
                  JBool (0 <? length (capturedSystem (plugin m)))%nat)]))
    (on_analytics (fun a =>
       {| messagesIntercepted := S (messagesIntercepted a);
          messagesEdited := messagesEdited a;
          editorSessions := editorSessions a |}) m).

(** [output.messages] after the assignment of lines 259-273 with
    [newText]: the first text part of the last message has the new text. *)
Definition spliced (newText : jsstring) (ms : list Message.t) : list Message.t :=
  let last := (length ms - 1)%nat in
  match ms !! last with
  | None => ms
  | Some lastMsg =>
      match first_text_from (Message.parts lastMsg) 0 with
      | None => ms
      | Some i =>
          match Message.parts lastMsg !! i with
          | None => ms
          | Some part =>
              <[last := Message.set_parts
                          (<[i := Part.set_text newText part]> (Message.parts lastMsg))
                          lastMsg]> ms
          end
      end
  end.

(** From [ms] to [ms'] nothing but the [text] of the first text part of
    the last message may have changed. *)
Definition only_first_text_differs (ms ms' : list Message.t) : Prop :=
  length ms' = length ms
  /\ (forall j, j <> length ms - 1 -> ms' !! j = ms !! j)
  /\ (forall lastMsg, ms !! (length ms - 1) = Some lastMsg ->
        exists lastMsg', ms' !! (length ms - 1) = Some lastMsg'
          /\ Message.info lastMsg' = Message.info lastMsg
          /\ length (Message.parts lastMsg') = length (Message.parts lastMsg)
          /\ forall k part, Message.parts lastMsg !! k = Some part ->
               exists part', Message.parts lastMsg' !! k = Some part'
                 /\ Part.set_text (Part.text part) part' = part
                 /\ (Part.type part <> js "text" -> part' = part)
                 /\ ((exists j earlier, j < k
                        /\ Message.parts lastMsg !! j = Some earlier
                        /\ Part.type earlier = js "text") -> part' = part)).

(** The header the document has for message [i] (from 0) of [n]: the
    position, the role in upper case, and the mark of the editable
    message on the last one when its role is ["user"]. *)
Definition header_line `{Host} (n i : nat) (msg : RoleParts) : jsstring :=
  js "## [" ++ Number_toString (i + 1) ++ js "/" ++ Number_toString n ++ js "] "
  ++ toUpperCase (role msg)
  ++ (if bool_decide (S i = n /\ role msg = js "user")
      then js " (Current - Editable)" else []).

(** The lines of a message below its header. *)
Definition message_body `{Host} (msg : RoleParts) : list jsstring :=
  [] :: flat_map (format_part []) (parts msg) ++ [js "---"; []].

(** The section of the document that lists the system prompt. *)
Definition system_section (system : list jsstring) : list jsstring :=
  [js "## System Prompt"; []] ++ flat_map (fun s => [s; []]) system ++ [js "---"; []].

(** The array captured by the most recent system hook among [calls];
    empty when there was none. *)
Definition latest_system (calls : list HookCall) : list jsstring :=
  fold_left (fun captured c =>
               match c with
               | CallSystemTransform _ output => system output
               | _ => captured
               end) calls [].

(** [pat] occurs in [s] at position [k]. *)
Definition occurs_at (pat s : jsstring) (k : nat) : Prop :=
  exists before after, s = before ++ pat ++ after /\ length before = k.

(** [k] is the position of the last occurrence of [pat] in [s]. *)
Definition last_occurrence (pat s : jsstring) (k : nat) : Prop :=
  occurs_at pat s k /\ forall j, occurs_at pat s j -> j <= k.

(** [k] is the position of the first occurrence of [pat] in [s] at or
    after position [from]. *)
Definition first_occurrence_from (pat s : jsstring) (from k : nat) : Prop :=
  occurs_at pat s k /\ from <= k /\ forall j, from <= j -> occurs_at pat s j -> k <= j.

(** [body] is [s] without its leading line feeds. *)
Definition leading_newlines_stripped (s body : jsstring) : Prop :=
  exists count, s = repeat 10%N count ++ body /\ head body <> Some 10%N.

(** [cut] is [body] up to its last occurrence of [sep], or all of [body]
    when [sep] does not occur in it. *)
Definition truncated_before_last (sep body cut : jsstring) : Prop :=
  (exists j, last_occurrence sep body j /\ cut = take j body)
  \/ ((forall j, ~ occurs_at sep body j) /\ cut = body).

(** [t] is [s] without the white space around it. *)
Definition trimmed (s t : jsstring) : Prop :=
  exists before after,
    s = before ++ t ++ after
    /\ Forall (fun c => JSString.is_whitespace c = true) before
    /\ Forall (fun c => JSString.is_whitespace c = true) after
    /\ (forall c, head t = Some c -> JSString.is_whitespace c = false)
    /\ (forall c, last t = Some c -> JSString.is_whitespace c = false).

(** The text the specification describes, for an edited file [content]
    whose first line feed after the last marker is at position [n]:
    everything after that line feed, without its leading line feeds, cut
    before the last ["\n---"] when there is one, and trimmed. *)
Definition taken_text (content : jsstring) (n : nat) (newText : jsstring) : Prop :=
  exists body cut,
    leading_newlines_stripped (drop (S n) content) body
    /\ truncated_before_last (LF ++ js "---") body cut
    /\ trimmed cut newText.

(** The document handed to the editor (lines 211-215). *)
Definition written_document `{Host} (m : Machine) (ms : list Message.t) : jsstring :=
  formatFullContext (world m)
    (if showSystemMessages (config (plugin m)) then capturedSystem (plugin m) else [])
    (role_parts ms) (capturedModel (plugin m)).

(** [output.messages] after the splice of lines 235-275 for the edited
    file [content]. *)
Definition after_edit (content : jsstring) (ms : list Message.t) : list Message.t :=
  match edited_text content with
  | Some newText => spliced newText ms
  | None => ms
  end.

(** [part] is the first part of type ["text"] of [ps], at index [i]. *)
Definition first_text_part (ps : list Part.t) (i : nat) (part : Part.t) : Prop :=
  ps !! i = Some part
  /\ Part.type part = js "text"
  /\ forall j p, j < i -> ps !! j = Some p -> Part.type p <> js "text".

(** Two states of the closure variables that differ in the counters at
    most. *)
Definition same_settings (p p' : Plugin) : Prop :=
  config p' = config p
  /\ capturedSystem p' = capturedSystem p
  /\ capturedModel p' = capturedModel p.



(** ** More hosts for the examples *)

Definition example_project : jsstring := js "/project".

(** A project directory holding [.micromanager.jsonc] and
    [.micromanager.json], with different contents. *)
Definition example_both_files : World :=
  {| fs := <[join example_project (js ".micromanager.jsonc") := File (js "{ jsonc }")]>
             (<[join example_project (js ".micromanager.json") := File (js "{ json }")]> ∅);
     logged := []; syscalls := []; clock := js "2025-01-01T00:00:00.000Z" |}.

(** A project directory holding [.micromanager.json] only. *)
Definition example_json_only : World :=
  {| fs := <[join example_project (js ".micromanager.json") := File (js "{ json }")]> ∅;
     logged := []; syscalls := []; clock := js "2025-01-01T00:00:00.000Z" |}.

(** A host whose [JSON.parse] accepts ["{ json }"] (as an object that sets
    [logLevel] to ["error"]) and rejects every other text. *)
Definition picky_host : Host :=
  {| toUpperCase := ascii_upper;
     JSON_stringify := fun _ => js "{}";
     JSON_stringify_part := fun _ => js "{}";
     JSON_parse := fun text =>
       if streqb text (js "{ json }") then Ok (JObj [(js "logLevel", JStr (js "error"))])
       else Throw {| message := js "Unexpected token" |};
     env_EDITOR := None;
     tmpdir := js "/tmp";
     mkdtemp_pick := fun _ _ => Ok (js "Ab12Cd");
     writeFile_fault := fun _ _ => None;
     exits := fun _ _ => true;
     spawn := fun _ files => (files, None) |}.

(** The beginning of a configuration line whose value is a string
    literal holding a URL: an opening brace, the key [editor] in double
    quotes (code unit 34), a colon, and the literal opened with
    [open http:]. *)
Definition example_setting : jsstring :=
  js "{ " ++ [34%N] ++ js "editor" ++ [34%N] ++ js ": " ++ [34%N] ++ js "open http:".

(** [editableMarker] (line 235) *)
Abbreviation editableMarker := (js "(Current - Editable)").

(** The counters, in the order the messages hook advances them: a
    message is edited only in an editor session, and an editor session
    is opened only for an intercepted message list. *)
Definition counters_ordered (a : Analytics) : Prop :=
  messagesEdited a <= editorSessions a
  /\ editorSessions a <= messagesIntercepted a.

(** From [a] to [a'] the counters have advanced by [di], [ds] and [de]. *)
Definition advanced (a a' : Analytics) (di ds de : nat) : Prop :=
  messagesIntercepted a' = di + messagesIntercepted a
  /\ editorSessions a' = ds + editorSessions a
  /\ messagesEdited a' = de + messagesEdited a.

(** A [session.created] event, and a call of the messages hook. *)
Definition is_session_created (c : HookCall) : bool :=
  match c with
  | CallEvent input => streqb (event_type input) (js "session.created")
  | _ => false
  end.

Definition is_messages_call (c : HookCall) : bool :=
  match c with
  | CallMessagesTransform _ => true
  | _ => false
  end.

(** A message whose text has white space around it, and one whose text
    is empty. *)
Definition example_padded : list Message.t :=
  [message_of (js "user") [text_part (js "  fix it ")]].

Definition example_blank : list Message.t :=
  [message_of (js "user") [text_part []]].

(** * Properties *)

(** ** Strings *)

Lemma streqb_eq (a b : jsstring) : streqb a b = true <-> a = b.
Proof.
  revert b; induction a as [|x a IH]; intros [|y b]; simpl; split; try congruence.
  - intros [Hxy Hab]%andb_true_iff. apply N.eqb_eq in Hxy. apply IH in Hab. congruence.
  - intros [= -> ->]. rewrite N.eqb_refl. simpl. by apply IH.
Qed.

Lemma streqb_refl (a : jsstring) : streqb a a = true.
Proof. by apply streqb_eq. Qed.

Lemma streqb_neq (a b : jsstring) : streqb a b = false <-> a <> b.
Proof.
  rewrite <- streqb_eq. destruct (streqb a b); split; congruence.
Qed.

(** ** [log] *)

Section Log.
Variables (level : Level) (message : jsstring) (data : option JSON) (m : Machine).

Lemma plugin_log : plugin (log level message data m) = plugin m.
Proof. unfold log. by destruct (_ >=? _)%Z. Qed.

Lemma fs_log : fs (world (log level message data m)) = fs (world m).
Proof. unfold log. by destruct (_ >=? _)%Z. Qed.

Lemma syscalls_log : syscalls (world (log level message data m)) = syscalls (world m).
Proof. unfold log. by destruct (_ >=? _)%Z. Qed.

Lemma clock_log : clock (world (log level message data m)) = clock (world m).
Proof. unfold log. by destruct (_ >=? _)%Z. Qed.

End Log.

(** The index of a level's name in [levels]. *)
Lemma level_index (l : Level) :
  JSString.array_indexOf levels (Level_string l)
  = match l with LDebug => 0 | LInfo => 1 | LWarn => 2 | LError => 3 end%Z.
Proof. by destruct l. Qed.

Lemma array_index_from_range (x : jsstring) (xs : list jsstring) (k : Z) :
  let r := JSString.array_index_from x xs k in
  (r = -1 /\ x ∉ xs)%Z \/ (k <= r < k + Z.of_nat (length xs) /\ x ∈ xs)%Z.
Proof.
  revert k; induction xs as [|y ys IH]; intros k; simpl.
  - left. split; [done | apply not_elem_of_nil].
  - destruct (streqb y x) eqn:E.
    + apply streqb_eq in E as ->. right. split; [lia | apply elem_of_cons; by left].
    + apply streqb_neq in E. destruct (IH (k + 1)%Z) as [[-> Hn] | [Hr Hin]].
      * left. split; [done |]. intros [->|?]%elem_of_cons; [congruence | done].
      * right. split; [lia | apply elem_of_cons; by right].
Qed.

(** C10: a call of [log] hands one record to the host exactly when the
    index of its level in [["debug"; "info"; "warn"; "error"]] is at
    least the index of [config.logLevel] in that list, and hands it
    nothing otherwise; when [config.logLevel] is none of the four, every
    call at every level emits its record. *)
Theorem log_emits_iff_level_reached (level : Level) (message : jsstring)
    (data : option JSON) (m : Machine) :
  let currentLevelIndex := JSString.array_indexOf levels (logLevel (config (plugin m))) in
  let messageLevelIndex := JSString.array_indexOf levels (Level_string level) in
  let record := {| service := js "micromanager"; level := Level_string level;
                   log_message := message; extra := data |} in
  (logged (world (log level message data m)) = logged (world m) ++ [record]
   <-> (messageLevelIndex >= currentLevelIndex)%Z)
  /\ (logged (world (log level message data m)) = logged (world m)
      <-> (messageLevelIndex < currentLevelIndex)%Z)
  /\ (logLevel (config (plugin m)) ∉ levels ->
      logged (world (log level message data m)) = logged (world m) ++ [record]).
Proof.
  intros cur lvl record.
  assert (Hne : logged (world m) ++ [record] <> logged (world m)).
  { intros H. apply (f_equal length) in H. rewrite length_app in H. simpl in H. lia. }
  assert (Hlog : log level message data m
                 = if (lvl >=? cur)%Z then on_world (client_app_log record) m else m)
    by reflexivity.
  split; [|split].
  - rewrite Hlog. destruct (lvl >=? cur)%Z eqn:E; simpl.
    + split; [intros _; lia | done].
    + split; [intros H; by destruct Hne | lia].
  - rewrite Hlog. destruct (lvl >=? cur)%Z eqn:E; simpl.
    + split; [intros H; by destruct Hne | lia].
    + split; [intros _; lia | done].
  - intros Hnot. rewrite Hlog.
    assert (cur = -1)%Z as Hcur.
    { subst cur. unfold JSString.array_indexOf.
      destruct (array_index_from_range (logLevel (config (plugin m))) levels 0)
        as [[-> _] | [_ Hin]]; [done | by destruct Hnot]. }
    assert (0 <= lvl)%Z by (subst lvl; rewrite level_index; destruct level; lia).
    destruct (lvl >=? cur)%Z eqn:E; [done | lia].
Qed.

(** At the level ["verbose"], which is none of the four, a [debug] call
    emits its record. *)
Lemma log_emits_witness :
  (js "verbose" ∉ levels)
  /\ logged (world (log LDebug (js "m") None verbose_machine))
     = logged (world verbose_machine)
       ++ [{| service := js "micromanager"; level := Level_string LDebug;
              log_message := js "m"; extra := None |}].
Proof.
  assert (H : js "verbose" ∉ levels).
  { intros H. repeat (apply elem_of_cons in H as [H|H]; [discriminate H|]).
    by apply elem_of_nil in H. }
  split; [exact H |].
  exact (proj2 (proj2 (log_emits_iff_level_reached LDebug (js "m") None verbose_machine)) H).
Defined.

(** ** The factory *)

Section Factory.
Context `{Host}.

Lemma load_config_returns (directory : jsstring) (w : World) :
  exists cfg w', load_config directory w = (Ok cfg, w').
Proof.
  unfold load_config, read_config, on_config_failure, try_catch, bind, modify, ret,
    readFile.
  destruct (fs w !! join directory (js ".micromanager.jsonc")) as [[|c]|].
  - destruct (fs w !! join directory (js ".micromanager.json")) as [[|c]|]; eauto.
    cbn [fs record_call]. destruct (JSON_parse (stripJsonComments c)); eauto.
  - destruct (JSON_parse (stripJsonComments c)); eauto.
  - destruct (fs w !! join directory (js ".micromanager.json")) as [[|c]|]; eauto.
    cbn [fs record_call]. destruct (JSON_parse (stripJsonComments c)); eauto.
Qed.


End Factory.

(** ** The messages hook *)

Section MessagesHook.
Context `{Host}.

Lemma plugin_after_capture (m : Machine) (ms : list Message.t) :
  plugin (after_capture m ms)
  = {| config := config (plugin m);
       analytics := {| messagesIntercepted := S (messagesIntercepted (analytics (plugin m)));
                       messagesEdited := messagesEdited (analytics (plugin m));
                       editorSessions := editorSessions (analytics (plugin m)) |};
       capturedSystem := capturedSystem (plugin m);
       capturedModel := capturedModel (plugin m) |}.
Proof. unfold after_capture. by rewrite plugin_log. Qed.

(** The hook, case by case on its guards (lines 193-208). *)
Lemma chat_messages_transform_cases (m : Machine) (ms : list Message.t) :
  chat_messages_transform (m, ms)
  = let m1 := after_capture m ms in
    if negb (enableEditor (config (plugin m))) || negb (autoEdit (config (plugin m)))
    then (Ok tt, (m1, ms))
    else match ms !! (length ms - 1) with
         | None => (Ok tt, (m1, ms))
         | Some lastMsg =>
             if negb (existsb is_text (Message.parts lastMsg)) then (Ok tt, (m1, ms))
             else try_catch (editor_round_trip (role_parts ms) (length ms - 1))
                    on_edit_failure (m1, ms)
         end.
Proof.
  unfold chat_messages_transform, bind, in_machine, modify, get, ret. simpl.
  fold (after_capture m ms).
  destruct (negb _ || negb _); [done |].
  destruct (ms !! _); [|done].
  by destruct (negb _).
Qed.

Lemma on_edit_failure_returns (e : JsError) (s : Machine * list Message.t) :
  on_edit_failure e s
  = (Ok tt, (log LError (js "Failed to edit message")
               (Some (JObj [(js "error", JStr (message e))])) (fst s), snd s)).
Proof. reflexivity. Qed.




End MessagesHook.


(** ** The guarded configuration load *)

Section ConfigLoad.
Context `{Host}.






End ConfigLoad.


(** An editor that exits with an error: the hook returns, and the error
    is in the log. *)
Example failing_editor_is_logged :
  let H := example_host None (Some {| message := js "Command failed: code -w" |}) in
  let r := chat_messages_transform (example_machine, example_messages) in
  fst r = Ok tt
  /\ snd (snd r) = example_messages
  /\ last (logged (world (fst (snd r))))
     = Some {| service := js "micromanager"; level := js "error";
               log_message := js "Failed to edit message";
               extra := Some (JObj [(js "error", JStr (js "Command failed: code -w"))]) |}.
Proof. intros H r. repeat split; vm_compute; reflexivity. Qed.



(** C4, as the code has it: the factory always returns, and the object
    it returns has exactly five entries, under five different names. *)
Theorem plugin_registers_five_handlers `{Host} (directory : jsstring) (w : World) :
  exists hs p w',
    MessageInterceptorPlugin directory w = (Ok (hs, p), w')
    /\ length hs = 5
    /\ hs.*1 = [js "experimental.chat.system.transform";
                js "experimental.chat.messages.transform";
                js "chat.message"; js "event"; js "tool.execute.before"]
    /\ NoDup (hs.*1).
Proof.
  destruct (load_config_returns directory w) as (cfg & w' & E).
  exists hooks, (initial_plugin cfg), w'.
  split; [unfold MessageInterceptorPlugin, bind, ret; by rewrite E |].
  split; [done |]. split; [done |].
  simpl. repeat (apply NoDup_cons; split;
    [intros Hin; repeat (apply elem_of_cons in Hin as [Hin|Hin]; [discriminate Hin|]);
     by apply elem_of_nil in Hin |]).
  apply NoDup_nil_2.
Qed.

(** The object does not have four entries. *)
Lemma plugin_does_not_register_four :
  ~ (forall (H : Host) (directory : jsstring) (w : World) hs p w',
       MessageInterceptorPlugin directory w = (Ok (hs, p), w') -> length hs = 4).
Proof.
  intros claim.
  destruct (load_config_returns (H := example_host None None) (js "/project") example_world)
    as (cfg & w' & E).
  specialize (claim (example_host None None) (js "/project") example_world
                (@hooks (example_host None None)) (initial_plugin cfg) w').
  unfold MessageInterceptorPlugin, bind, ret in claim. rewrite E in claim.
  specialize (claim eq_refl). discriminate claim.
Qed.

(** ** The splice (lines 259-273) *)

Lemma first_text_from_spec (ps : list Part.t) (k : nat) :
  match first_text_from ps k with
  | Some i =>
      exists j part, i = k + j /\ ps !! j = Some part /\ is_text part = true
        /\ forall j' part', j' < j -> ps !! j' = Some part' -> is_text part' = false
  | None => forall j part, ps !! j = Some part -> is_text part = false
  end.
Proof.
  revert k; induction ps as [|p ps IH]; intros k; simpl.
  - intros j part Hj. by rewrite lookup_nil in Hj.
  - destruct (is_text p) eqn:E.
    + exists 0, p. repeat split; [lia | done | lia].
    + specialize (IH (S k)). destruct (first_text_from ps (S k)) as [i|].
      * destruct IH as (j & part & -> & Hj & Ht & Hbefore).
        exists (S j), part. repeat split; [lia | done | done |].
        intros [|j'] part' Hlt Hj'; simpl in Hj'; [congruence |].
        apply (Hbefore j' part'); [lia | done].
      * intros [|j] part Hj; simpl in Hj; [congruence | by apply (IH j)].
Qed.

Lemma first_text_from_existsb (ps : list Part.t) (k : nat) :
  existsb is_text ps = true -> is_Some (first_text_from ps k).
Proof.
  revert k; induction ps as [|p ps IH]; intros k; simpl; [done |].
  destruct (is_text p); [eauto | apply IH].
Qed.

Lemma set_text_same (p : Part.t) : Part.set_text (Part.text p) p = p.
Proof. by destruct p. Qed.

Lemma set_text_set_text (s t : jsstring) (p : Part.t) :
  Part.set_text s (Part.set_text t p) = Part.set_text s p.
Proof. by destruct p. Qed.

Lemma set_parts_same (m : Message.t) : Message.set_parts (Message.parts m) m = m.
Proof. by destruct m. Qed.

Lemma update_text_messages (last : nat) (newText : jsstring) (m : Machine)
    (ms : list Message.t) :
  last = length ms - 1 ->
  snd (snd (update_text last newText (m, ms))) = spliced newText ms.
Proof.
  intros ->. unfold update_text, modify, spliced. simpl.
  destruct (ms !! _) as [lastMsg|]; [|done].
  destruct (first_text_from _ _) as [i|]; [|done].
  by destruct (Message.parts lastMsg !! i).
Qed.

Lemma update_text_returns (last : nat) (newText : jsstring) (s : Machine * list Message.t) :
  fst (update_text last newText s) = Ok tt.
Proof. reflexivity. Qed.

Lemma only_first_text_differs_refl (ms : list Message.t) :
  only_first_text_differs ms ms.
Proof.
  split; [done |]. split; [done |].
  intros lastMsg Hl. exists lastMsg. repeat split; [done |].
  intros k part Hk. exists part. repeat split; [done | apply set_text_same].
Qed.

(** What the assignment leaves alone. *)
Lemma spliced_frame (newText : jsstring) (ms : list Message.t) :
  only_first_text_differs ms (spliced newText ms).
Proof.
  unfold spliced; cbv zeta.
  destruct (ms !! (length ms - 1)) as [lastMsg|] eqn:Hlast;
    [|apply only_first_text_differs_refl].
  pose proof (first_text_from_spec (Message.parts lastMsg) 0) as Hfirst.
  destruct (first_text_from (Message.parts lastMsg) 0) as [i|];
    [|apply only_first_text_differs_refl].
  destruct Hfirst as (j & first & -> & Hj & Htext & Hbefore). simpl.
  rewrite Hj. unfold only_first_text_differs.
  split; [apply length_insert |].
  split; [intros j' Hne; by apply list_lookup_insert_ne |].
  rewrite Hlast. intros ? [= <-].
  eexists. split; [apply list_lookup_insert_eq; by eapply lookup_lt_Some |].
  simpl. split; [done |]. split; [apply length_insert |].
  intros k part Hk. destruct (decide (k = j)) as [->|Hne].
  - assert (part = first) as -> by congruence.
    exists (Part.set_text newText first).
    split; [apply list_lookup_insert_eq; by eapply lookup_lt_Some |].
    split; [by rewrite set_text_set_text, set_text_same |].
    split.
    + intros Hnot. destruct Hnot. by apply streqb_eq.
    + intros (j' & earlier & Hlt & Hj' & Hty).
      specialize (Hbefore j' earlier Hlt Hj'). unfold is_text in Hbefore.
      rewrite Hty, streqb_refl in Hbefore. discriminate.
  - exists part. split; [by rewrite list_lookup_insert_ne |].
    split; [apply set_text_same | done].
Qed.

(** ** The editor round trip (lines 211-277) *)

Section RoundTrip.
Context `{Host}.

Lemma bind_get {S B} (k : S -> M S B) (s : S) : bind get k s = k s s.
Proof. reflexivity. Qed.

Lemma bind_world_op {A B O} (c : M World A) (k : A -> M (Machine * O) B)
    (m : Machine) (o : O) :
  bind (in_machine (in_world c)) k (m, o)
  = match c (world m) with
    | (Finished (Ok a), w) => k a ({| plugin := plugin m; world := w |}, o)
    | (Finished (Throw e), w) => (Throw e, ({| plugin := plugin m; world := w |}, o))
    | (Blocked, w) => (Blocked, ({| plugin := plugin m; world := w |}, o))
    end.
Proof.
  unfold bind, in_machine, in_world. cbn [fst snd].
  by destruct (c (world m)) as [[[a|e]|] w].
Qed.

Lemma world_op_last {A O} (c : M World A) (s : Machine * O) :
  in_machine (in_world c) s
  = (fst (c (world (fst s))),
     ({| plugin := plugin (fst s); world := snd (c (world (fst s))) |}, snd s)).
Proof.
  unfold in_machine, in_world.
  by destruct (c (world (fst s))) as [[[a|e]|] w].
Qed.

Lemma bind_machine_modify {B O} (f : Machine -> Machine) (k : unit -> M (Machine * O) B)
    (m : Machine) (o : O) :
  bind (in_machine (modify f)) k (m, o) = k tt (f m, o).
Proof. reflexivity. Qed.

Lemma bind_ret {S A B} (a : A) (k : A -> M S B) (s : S) : bind (ret a) k s = k a s.
Proof. reflexivity. Qed.

Lemma bind_update_text {B} (last : nat) (newText : jsstring)
    (k : unit -> M (Machine * list Message.t) B) (s : Machine * list Message.t) :
  bind (update_text last newText) k s = k tt (snd (update_text last newText s)).
Proof. reflexivity. Qed.

(** Whatever the round trip does, the array it leaves is the one it was
    given or that array after the assignment. *)
Lemma editor_round_trip_messages (messages : list RoleParts) (m : Machine)
    (ms : list Message.t) (P : list Message.t -> Prop) :
  P ms -> (forall newText, P (spliced newText ms)) ->
  P (snd (snd (editor_round_trip messages (length ms - 1) (m, ms)))).
Proof.
  intros Hsame Hspliced.
  unfold editor_round_trip. rewrite bind_get. cbv beta zeta.
  rewrite bind_world_op.
  destruct (mkdtemp _ _) as [[[tempDir|e]|] w1]; [|done|done].
  rewrite bind_world_op.
  destruct (writeFile _ _ _) as [[[[]|e]|] w2]; [|done|done].
  rewrite bind_machine_modify, bind_world_op.
  destruct (execSync _ _) as [[[[]|e]|] w4]; [|done|done].
  rewrite bind_machine_modify, bind_world_op.
  destruct (readFile _ _) as [[[c|e]|] w6]; [|done|done].
  destruct (edited_text c) as [newText|].
  - rewrite bind_update_text.
    match goal with
    | |- context [update_text ?l ?t (?M, ?o)] =>
        pose proof (update_text_messages l t M o eq_refl) as Hu;
        destruct (update_text l t (M, o)) as [r [m7 ms7]]
    end.
    cbn [fst snd] in Hu |- *. subst ms7. cbv beta. rewrite world_op_last. apply Hspliced.
  - rewrite bind_ret. cbv beta. rewrite world_op_last. apply Hsame.
Qed.
End RoundTrip.

Section HookFrame.
Context `{Host}.

(** The array the hook leaves is the one it was passed, or that array
    after the assignment. *)
Lemma chat_messages_transform_messages (m : Machine) (ms : list Message.t) :
  let ms' := snd (snd (chat_messages_transform (m, ms))) in
  ms' = ms \/ exists newText, ms' = spliced newText ms.
Proof.
  cbv zeta. rewrite chat_messages_transform_cases. cbv zeta.
  destruct (negb _ || negb _); [by left |].
  destruct (ms !! _); [|by left].
  destruct (negb _); [by left |].
  unfold try_catch.
  destruct (editor_round_trip _ _ _) as [r s'] eqn:E.
  assert (Hs' : snd s' = ms \/ exists newText, snd s' = spliced newText ms).
  { change s' with (snd (r, s')). rewrite <- E.
    apply editor_round_trip_messages; [by left | intros newText; right; by exists newText]. }
  destruct r as [[[]|e]|]; [exact Hs' | | exact Hs'].
  by rewrite on_edit_failure_returns.
Qed.

End HookFrame.

(** C8: when [config.enableEditor] is false, or [config.autoEdit] is
    false, or [output.messages] is empty, or its last message has no part
    of type ["text"], the messages hook returns without a system call (no
    temporary file, no editor), leaves [output.messages] as it was
    passed, the file system, the configuration and the captured system
    prompt and model untouched, and of the counters increments
    [messagesIntercepted] alone. *)
Theorem messages_hook_returns_early `{Host} (m : Machine) (ms : list Message.t) :
  (enableEditor (config (plugin m)) = false
   \/ autoEdit (config (plugin m)) = false
   \/ ms = []
   \/ exists lastMsg, last ms = Some lastMsg
        /\ forall part, part ∈ Message.parts lastMsg -> Part.type part <> js "text") ->
  let r := chat_messages_transform (m, ms) in
  let m' := fst (snd r) in
  fst r = Ok tt
  /\ snd (snd r) = ms
  /\ syscalls (world m') = syscalls (world m)
  /\ fs (world m') = fs (world m)
  /\ config (plugin m') = config (plugin m)
  /\ capturedSystem (plugin m') = capturedSystem (plugin m)
  /\ capturedModel (plugin m') = capturedModel (plugin m)
  /\ analytics (plugin m')
     = {| messagesIntercepted := S (messagesIntercepted (analytics (plugin m)));
          messagesEdited := messagesEdited (analytics (plugin m));
          editorSessions := editorSessions (analytics (plugin m)) |}.
Proof.
  intros Hguard.
  assert (E : chat_messages_transform (m, ms) = (Ok tt, (after_capture m ms, ms))).
  { rewrite chat_messages_transform_cases. cbv zeta.
    destruct Hguard as [-> | [-> | [-> | (lastMsg & Hlast & Hnone)]]].
    - done.
    - by rewrite orb_true_r.
    - by destruct (_ || _).
    - destruct (_ || _); [done |].
      rewrite last_lookup in Hlast. replace (length ms - 1) with (pred (length ms)) by lia.
      rewrite Hlast.
      assert (existsb is_text (Message.parts lastMsg) = false) as ->; [|done].
      apply not_true_is_false. intros (part & Hin & Ht)%existsb_exists.
      apply (Hnone part); [by apply list_elem_of_In | by apply streqb_eq]. }
  cbv zeta. rewrite E. cbn [fst snd].
  unfold after_capture. rewrite syscalls_log, fs_log, plugin_log. by repeat split.
Qed.

(** With the defaults ([autoEdit] false) the hook leaves the example
    conversation alone. *)
Lemma messages_hook_returns_early_witness :
  let H := example_host None None in
  let m := {| plugin := initial_plugin default_config; world := example_world |} in
  let r := chat_messages_transform (m, example_messages) in
  fst r = Ok tt /\ snd (snd r) = example_messages
  /\ syscalls (world (fst (snd r))) = []
  /\ messagesIntercepted (analytics (plugin (fst (snd r)))) = 1.
Proof.
  intros H m r.
  destruct (messages_hook_returns_early (H := H) m example_messages)
    as (H1 & H2 & H3 & _ & _ & _ & _ & H4).
  { right. left. reflexivity. }
  split; [exact H1 |]. split; [exact H2 |]. split; [exact H3 |].
  fold r in H4. by rewrite H4.
Defined.

(** C9: whatever the messages hook does, the array it leaves has the
    length of the one it was passed and the same messages at every index
    but the last; the last message keeps its [info] and the number of its
    parts; each of its parts keeps every field other than [text]; and a
    part that is not of type ["text"], or that comes after an earlier
    part of type ["text"], is left as it was.  So of all of
    [output.messages] only the [text] of the first text part of the last
    message can differ. *)
Theorem splice_touches_one_text_field `{Host} (m : Machine) (ms : list Message.t) :
  let ms' := snd (snd (chat_messages_transform (m, ms))) in
  length ms' = length ms
  /\ (forall j, j <> length ms - 1 -> ms' !! j = ms !! j)
  /\ (forall lastMsg, ms !! (length ms - 1) = Some lastMsg ->
        exists lastMsg', ms' !! (length ms - 1) = Some lastMsg'
          /\ Message.info lastMsg' = Message.info lastMsg
          /\ length (Message.parts lastMsg') = length (Message.parts lastMsg)
          /\ forall k part, Message.parts lastMsg !! k = Some part ->
               exists part', Message.parts lastMsg' !! k = Some part'
                 /\ Part.set_text (Part.text part) part' = part
                 /\ (Part.type part <> js "text" -> part' = part)
                 /\ ((exists j earlier, j < k
                        /\ Message.parts lastMsg !! j = Some earlier
                        /\ Part.type earlier = js "text") -> part' = part)).
Proof.
  cbv zeta.
  destruct (chat_messages_transform_messages m ms) as [-> | [newText ->]].
  - apply only_first_text_differs_refl.
  - apply spliced_frame.
Qed.

(** ** The document ([formatFullContext]) *)

Section Document.
Context `{Host}.

Lemma format_part_app (lines : list jsstring) (part : Part.t) :
  format_part lines part = lines ++ format_part [] part.
Proof.
  unfold format_part, push.
  destruct (streqb (Part.type part) (js "text")).
  { by rewrite <- !app_assoc. }
  destruct (streqb (Part.type part) (js "tool")).
  - destruct (Part.input part) as [v|]; [destruct (truthy v)|];
      (destruct (Part.output part) as [v'|]; [destruct (truthy v')|]);
      by rewrite <- ?app_assoc.
  - by rewrite <- !app_assoc.
Qed.

Lemma fold_format_part (ps : list Part.t) (lines : list jsstring) :
  fold_left format_part ps lines = lines ++ flat_map (format_part []) ps.
Proof.
  revert lines; induction ps as [|p ps IH]; intros lines; simpl.
  - by rewrite app_nil_r.
  - rewrite IH, format_part_app. by rewrite <- app_assoc.
Qed.

Lemma push_header_app (lines : list jsstring) (n i : nat) (msg : RoleParts) :
  i < n -> push_header lines n i msg = lines ++ [header_line n i msg].
Proof.
  intros Hi. unfold push_header, header_line, push.
  destruct (Z.of_nat i =? Z.of_nat n - 1)%Z eqn:E1;
    destruct (streqb (role msg) (js "user")) eqn:E2; simpl.
  - apply Z.eqb_eq in E1. apply streqb_eq in E2.
    rewrite bool_decide_eq_true_2; [done | split; [lia | done]].
  - apply streqb_neq in E2.
    rewrite bool_decide_eq_false_2; [by rewrite app_nil_r | by intros [_ ?]].
  - apply Z.eqb_neq in E1.
    rewrite bool_decide_eq_false_2; [by rewrite app_nil_r | intros [? _]; lia].
  - apply Z.eqb_neq in E1.
    rewrite bool_decide_eq_false_2; [by rewrite app_nil_r | intros [? _]; lia].
Qed.

(** The loop over the messages appends, for each, its header and its body. *)
Lemma format_messages_blocks (n i : nat) (rest : list RoleParts) (lines : list jsstring) :
  i + length rest <= n ->
  format_messages n i rest lines
  = lines ++ concat (imap (fun j msg => header_line n (i + j) msg :: message_body msg) rest).
Proof.
  revert i lines; induction rest as [|msg rest IH]; intros i lines Hn; simpl.
  - by rewrite app_nil_r.
  - simpl in Hn. rewrite IH by lia. rewrite push_header_app by lia.
    unfold push. rewrite fold_format_part. unfold message_body.
    rewrite Nat.add_0_r. rewrite <- !app_assoc. f_equal. cbn [app].
    do 2 f_equal. f_equal. do 3 f_equal.
    apply imap_ext. intros j x _. cbn [compose]. f_equal. f_equal. lia.
Qed.

Lemma push_system_app (lines : list jsstring) (system : list jsstring) :
  push_system lines system
  = lines ++ (if (0 <? length system)%nat then system_section system else []).
Proof.
  unfold push_system, system_section, push.
  destruct (0 <? length system); [|by rewrite app_nil_r].
  assert (Hfold : forall ls, fold_left (fun lines s => (lines ++ [s]) ++ [[]]) system ls
                             = ls ++ flat_map (fun s => [s; []]) system).
  { induction system as [|s system IH]; intros ls; simpl; [by rewrite app_nil_r |].
    rewrite IH. by rewrite <- !app_assoc. }
  rewrite Hfold. by rewrite <- !app_assoc.
Qed.

(** The lines of the document: the title, the system prompt section when
    [system] is not empty, then a block for each message. *)
Lemma formatFullContext_lines_shape (timestamp : jsstring) (system : list jsstring)
    (messages : list RoleParts) (model : ModelValue) :
  formatFullContext_lines timestamp system messages model
  = push_title [] timestamp model (length messages)
    ++ (if (0 <? length system)%nat then system_section system else [])
    ++ concat (imap (fun i msg => header_line (length messages) i msg :: message_body msg)
                 messages).
Proof.
  unfold formatFullContext_lines. cbv zeta.
  rewrite format_messages_blocks by (simpl; lia).
  rewrite push_system_app. by rewrite <- app_assoc.
Qed.

End Document.

(** C2: the lines joined into the document are a preamble followed by one
    block per message, in the order of the list, and the block of the
    message at index [i] (from 0) of [N] opens with the header
    [## [i+1/N] ROLE], [ROLE] being the role in upper case; the header
    ends in [ (Current - Editable)] exactly when the message is the last
    one and its role is ["user"]. *)
Theorem formatFullContext_headers `{Host} (w : World) (system : list jsstring)
    (messages : list RoleParts) (model : ModelValue) :
  exists preamble headers bodies,
    formatFullContext w system messages model
    = JSString.join LF (preamble ++ concat (zip_with cons headers bodies))
    /\ length headers = length messages
    /\ length bodies = length messages
    /\ forall i msg, messages !! i = Some msg ->
         headers !! i
         = Some (js "## [" ++ Number_toString (i + 1) ++ js "/"
                 ++ Number_toString (length messages) ++ js "] "
                 ++ toUpperCase (role msg)
                 ++ (if bool_decide (S i = length messages /\ role msg = js "user")
                     then js " (Current - Editable)" else [])).
Proof.
  exists (push_title [] (clock w) model (length messages)
          ++ (if (0 <? length system)%nat then system_section system else [])),
    (imap (header_line (length messages)) messages),
    (List.map message_body messages).
  split; [|split; [|split]].
  - unfold formatFullContext. rewrite formatFullContext_lines_shape.
    rewrite <- app_assoc. do 3 f_equal.
    generalize (header_line (length messages)). intros h.
    clear. revert h. induction messages as [|msg messages IH]; intros h; [done |].
    cbn [imap zip_with List.map concat]. f_equal. apply (IH (h ∘ S)).
  - apply length_imap.
  - apply length_map.
  - intros i msg Hi. rewrite list_lookup_imap, Hi. done.
Qed.

(** ** System calls, one by one *)

Section SystemCalls.
Context `{Host}.

Lemma mkdtemp_cases (prefix : jsstring) (w : World) :
  (exists e, mkdtemp prefix w = (Throw e, w))
  \/ (exists d, mkdtemp prefix w
                = (Ok d, record_call (SysMkdtemp d) (set_fs (<[d := Dir]> (fs w)) w))
                /\ fs w !! d = None
                /\ exists suffix, d = prefix ++ suffix).
Proof.
  unfold mkdtemp. destruct (mkdtemp_pick (fs w) prefix) as [suffix|e]; [|eauto].
  destruct (fs w !! (prefix ++ suffix)) eqn:E; [eauto |].
  right. exists (prefix ++ suffix). eauto.
Qed.

Lemma writeFile_cases (path content : jsstring) (w : World) :
  (exists e, writeFile path content w = (Throw e, w))
  \/ writeFile path content w
     = (Ok tt, record_call (SysWriteFile path content)
                 (set_fs (<[path := File content]> (fs w)) w)).
Proof.
  unfold writeFile. destruct (writeFile_fault (fs w) path); [eauto |].
  destruct (fs w !! path) as [[|c]|]; eauto.
Qed.

Lemma execSync_cases (command : jsstring) (w : World) :
  (exists e, execSync command w = (Throw e, set_fs (fst (spawn command (fs w))) w))
  \/ execSync command w
     = (Ok tt, record_call (SysExec command) (set_fs (fst (spawn command (fs w))) w))
  \/ (exits command (fs w) = false /\ execSync command w = (Blocked, w)).
Proof.
  unfold execSync. destruct (exits command (fs w)); [|by right; right].
  destruct (spawn command (fs w)) as [files [e|]]; eauto.
Qed.

Lemma readFile_cases (path : jsstring) (w : World) :
  (exists e, readFile path w = (Throw e, w))
  \/ (exists content, readFile path w = (Ok content, record_call (SysReadFile path content) w)
                      /\ fs w !! path = Some (File content)).
Proof.
  unfold readFile. destruct (fs w !! path) as [[|c]|]; eauto.
Qed.

Lemma unlink_cases (path : jsstring) (w : World) :
  (exists e, unlink path w = (Throw e, w) /\ forall c, fs w !! path <> Some (File c))
  \/ (unlink path w = (Ok tt, record_call (SysUnlink path) (set_fs (delete path (fs w)) w))
      /\ exists c, fs w !! path = Some (File c)).
Proof.
  unfold unlink. destruct (fs w !! path) as [[|c]|]; eauto.
Qed.

(** Of the calls of the round trip only [execSync] can block. *)
Lemma mkdtemp_finishes (prefix : jsstring) (w : World) :
  fst (mkdtemp prefix w) <> Blocked.
Proof. by destruct (mkdtemp_cases prefix w) as [[e ->] | (d & -> & _)]. Qed.

Lemma writeFile_finishes (path content : jsstring) (w : World) :
  fst (writeFile path content w) <> Blocked.
Proof. by destruct (writeFile_cases path content w) as [[e ->] | ->]. Qed.

Lemma readFile_finishes (path : jsstring) (w : World) :
  fst (readFile path w) <> Blocked.
Proof. by destruct (readFile_cases path w) as [[e ->] | (c & -> & _)]. Qed.

Lemma unlink_finishes (path : jsstring) (w : World) :
  fst (unlink path w) <> Blocked.
Proof. by destruct (unlink_cases path w) as [(e & -> & _) | (-> & _)]. Qed.

(** The round trip, written out: each call in turn, and where an error
    leaves the machine. *)
Lemma editor_round_trip_eq (messages : list RoleParts) (last : nat) (m : Machine)
    (ms : list Message.t) :
  editor_round_trip messages last (m, ms)
  = let p := plugin m in
    let doc := formatFullContext (world m)
                 (if showSystemMessages (config p) then capturedSystem p else [])
                 messages (capturedModel p) in
    match mkdtemp (join tmpdir (js "opencode-message-")) (world m) with
    | (Blocked, w1) => (Blocked, ({| plugin := p; world := w1 |}, ms))
    | (Finished (Throw e), w1) => (Throw e, ({| plugin := p; world := w1 |}, ms))
    | (Finished (Ok tempDir), w1) =>
        let tempFile := join tempDir (js "message.md") in
        match writeFile tempFile doc w1 with
        | (Blocked, w2) => (Blocked, ({| plugin := p; world := w2 |}, ms))
        | (Finished (Throw e), w2) => (Throw e, ({| plugin := p; world := w2 |}, ms))
        | (Finished (Ok _), w2) =>
            let m3 := log LInfo (js "Opening editor for full context review")
                        (Some (JObj [(js "tempFile", JStr tempFile);
                                     (js "messageCount", JNum (Z.of_nat (length messages)));
                                     (js "systemParts",
                                      JNum (Z.of_nat (length (capturedSystem p))))]))
                        {| plugin := p; world := w2 |} in
            match execSync (editor (config p) ++ js " " ++ tempFile) (world m3) with
            | (Blocked, w4) => (Blocked, ({| plugin := plugin m3; world := w4 |}, ms))
            | (Finished (Throw e), w4) =>
                (Throw e, ({| plugin := plugin m3; world := w4 |}, ms))
            | (Finished (Ok _), w4) =>
                let m5 := on_analytics (fun a =>
                            {| messagesIntercepted := messagesIntercepted a;
                               messagesEdited := messagesEdited a;
                               editorSessions := S (editorSessions a) |})
                            {| plugin := plugin m3; world := w4 |} in
                match readFile tempFile (world m5) with
                | (Blocked, w6) => (Blocked, ({| plugin := plugin m5; world := w6 |}, ms))
                | (Finished (Throw e), w6) =>
                    (Throw e, ({| plugin := plugin m5; world := w6 |}, ms))
                | (Finished (Ok editedContent), w6) =>
                    let s7 := match edited_text editedContent with
                              | Some newText =>
                                  snd (update_text last newText
                                         ({| plugin := plugin m5; world := w6 |}, ms))
                              | None => ({| plugin := plugin m5; world := w6 |}, ms)
                              end in
                    let r8 := unlink tempFile (world (fst s7)) in
                    (fst r8, ({| plugin := plugin (fst s7); world := snd r8 |}, snd s7))
                end
            end
        end
    end.
Proof.
  unfold editor_round_trip. rewrite bind_get. cbv beta zeta.
  rewrite bind_world_op.
  destruct (mkdtemp _ _) as [[[tempDir|e]|] w1]; [|done|done].
  rewrite bind_world_op.
  destruct (writeFile _ _ _) as [[[[]|e]|] w2]; [|done|done].
  rewrite bind_machine_modify, bind_world_op.
  destruct (execSync _ _) as [[[[]|e]|] w4]; [|done|done].
  rewrite bind_machine_modify, bind_world_op.
  destruct (readFile _ _) as [[[c|e]|] w6]; [|done|done].
  destruct (edited_text c) as [newText|].
  - rewrite bind_update_text. cbv beta. by rewrite world_op_last.
  - rewrite bind_ret. cbv beta. by rewrite world_op_last.
Qed.

End SystemCalls.

(** ** String search *)

Section Search.
Import JSString.

Lemma starts_with_spec (pat s : jsstring) :
  starts_with pat s = true <-> exists after, s = pat ++ after.
Proof.
  revert s; induction pat as [|p pat IH]; intros s; simpl.
  - split; [intros _; by exists s | done].
  - destruct s as [|c s].
    + split; [done | intros [after E]; discriminate E].
    + rewrite andb_true_iff, N.eqb_eq, IH. split.
      * intros [-> [after ->]]. by exists after.
      * intros [after [= -> ->]]. split; [done | by exists after].
Qed.

Lemma occurs_at_0 (pat s : jsstring) : occurs_at pat s 0 <-> starts_with pat s = true.
Proof.
  rewrite starts_with_spec. split.
  - intros ([|? ?] & after & -> & Hlen); [by exists after | discriminate Hlen].
  - intros [after ->]. by exists [], after.
Qed.

Lemma occurs_at_S (pat : jsstring) (c : N) (s : jsstring) (k : nat) :
  occurs_at pat (c :: s) (S k) <-> occurs_at pat s k.
Proof.
  split.
  - intros ([|b before] & after & E & Hlen); [discriminate Hlen |].
    injection E as -> ->. injection Hlen as <-. by exists before, after.
  - intros (before & after & -> & <-). by exists (c :: before), after.
Qed.

Lemma occurs_at_nil (pat : jsstring) (k : nat) :
  occurs_at pat [] k -> pat = [] /\ k = 0.
Proof.
  intros (before & after & E & <-). symmetry in E.
  apply app_eq_nil in E as [-> E]. apply app_eq_nil in E as [-> _]. done.
Qed.

Lemma occurs_at_bound (pat s : jsstring) (k : nat) :
  occurs_at pat s k -> k + length pat <= length s.
Proof. intros (before & after & -> & <-). rewrite !length_app. lia. Qed.

Lemma occurs_at_drop (pat s : jsstring) (p k : nat) :
  p <= length s -> occurs_at pat (drop p s) k <-> occurs_at pat s (p + k).
Proof.
  revert s; induction p as [|p IH]; intros s Hp; [done |].
  destruct s as [|c s]; [simpl in Hp; lia |].
  simpl in Hp. simpl. rewrite occurs_at_S. apply IH. lia.
Qed.

(** [index_from] finds the first occurrence. *)
Lemma index_from_spec (pat s : jsstring) (k0 : Z) :
  (index_from pat s k0 = -1 /\ forall j, ~ occurs_at pat s j)%Z
  \/ exists j, (index_from pat s k0 = k0 + Z.of_nat j)%Z
               /\ occurs_at pat s j /\ forall j', occurs_at pat s j' -> j <= j'.
Proof.
  revert k0; induction s as [|c s IH]; intros k0.
  - simpl. destruct (starts_with pat []) eqn:E.
    + right. exists 0. split; [lia |]. split; [by apply occurs_at_0 | intros; lia].
    + left. split; [done |]. intros j Hj.
      destruct (occurs_at_nil _ _ Hj) as [-> _]. discriminate E.
  - cbn [index_from]. destruct (starts_with pat (c :: s)) eqn:E.
    + right. exists 0. split; [lia |]. split; [by apply occurs_at_0 | intros; lia].
    + destruct (IH (k0 + 1)%Z) as [[-> Hnone] | (j & -> & Hj & Hmin)].
      * left. split; [done |]. intros [|j] Hj.
        -- apply occurs_at_0 in Hj. congruence.
        -- apply occurs_at_S in Hj. by apply (Hnone j).
      * right. exists (S j). split; [lia |]. split; [by apply occurs_at_S |].
        intros [|j'] Hj'.
        -- apply occurs_at_0 in Hj'. congruence.
        -- apply occurs_at_S in Hj'. specialize (Hmin j' Hj'). lia.
Qed.

(** [last_index_from] finds the last occurrence. *)
Lemma last_index_from_spec (pat s : jsstring) (k0 : Z) :
  (0 <= k0)%Z ->
  (last_index_from pat s k0 = -1 /\ forall j, ~ occurs_at pat s j)%Z
  \/ exists j, (last_index_from pat s k0 = k0 + Z.of_nat j)%Z
               /\ last_occurrence pat s j.
Proof.
  revert k0; induction s as [|c s IH]; intros k0 Hk0.
  - simpl. destruct (starts_with pat []) eqn:E.
    + right. exists 0. split; [lia |]. split; [by apply occurs_at_0 |].
      intros j Hj. apply occurs_at_nil in Hj as [_ ->]. lia.
    + left. split; [done |]. intros j Hj.
      destruct (occurs_at_nil _ _ Hj) as [-> _]. discriminate E.
  - cbn [last_index_from]. cbv zeta.
    destruct (IH (k0 + 1)%Z ltac:(lia)) as [[-> Hnone] | (j & -> & Hj & Hmax)].
    + simpl. destruct (starts_with pat (c :: s)) eqn:E.
      * right. exists 0. split; [lia |]. split; [by apply occurs_at_0 |].
        intros [|j] Hj; [lia |]. apply occurs_at_S in Hj. by destruct (Hnone j).
      * left. split; [done |]. intros [|j] Hj.
        -- apply occurs_at_0 in Hj. congruence.
        -- apply occurs_at_S in Hj. by apply (Hnone j).
    + destruct (k0 + 1 + Z.of_nat j =? -1)%Z eqn:E; [apply Z.eqb_eq in E; lia |].
      right. exists (S j). split; [lia |]. split; [by apply occurs_at_S |].
      intros [|j'] Hj'; [lia |]. apply occurs_at_S in Hj'. specialize (Hmax j' Hj'). lia.
Qed.

Lemma lastIndexOf_spec (s pat : jsstring) :
  (lastIndexOf s pat = -1 /\ forall j, ~ occurs_at pat s j)%Z
  \/ exists j, lastIndexOf s pat = Z.of_nat j /\ last_occurrence pat s j.
Proof.
  unfold lastIndexOf.
  destruct (last_index_from_spec pat s 0 ltac:(lia)) as [? | (j & E & Hj)]; [by left |].
  right. exists j. split; [by rewrite E | done].
Qed.

(** [s.indexOf(pat, p)] for a position [p] inside [s]. *)
Lemma indexOf_spec (s pat : jsstring) (p : nat) :
  p <= length s ->
  ((indexOf s pat (Z.of_nat p) = -1)%Z /\ forall j, p <= j -> ~ occurs_at pat s j)
  \/ exists j, indexOf s pat (Z.of_nat p) = Z.of_nat j
               /\ first_occurrence_from pat s p j.
Proof.
  intros Hp. unfold indexOf, clamp.
  replace (Z.to_nat _) with p by lia.
  destruct (index_from_spec pat (drop p s) (Z.of_nat p)) as [[-> Hnone] | (j & -> & Hj & Hmin)].
  - left. split; [done |]. intros j Hle Hj.
    apply (Hnone (j - p)). apply occurs_at_drop; [done |].
    by replace (p + (j - p)) with j by lia.
  - right. exists (p + j). split; [lia |].
    split; [by apply occurs_at_drop |]. split; [lia |].
    intros j' Hle Hj'.
    assert (occurs_at pat (drop p s) (j' - p)) as Hd.
    { apply occurs_at_drop; [done |]. by replace (p + (j' - p)) with j' by lia. }
    specialize (Hmin _ Hd). lia.
Qed.

Lemma clamp_of_nat (len a : nat) : clamp len (Z.of_nat a) = Nat.min a len.
Proof. unfold clamp. lia. Qed.

Lemma substring_from (s : jsstring) (a : nat) :
  substring s (Z.of_nat a) None = drop a s.
Proof.
  unfold substring. cbv zeta. rewrite clamp_of_nat.
  set (ia := Nat.min a (length s)).
  rewrite (Nat.min_l ia (length s)), (Nat.max_r ia (length s)) by lia.
  destruct (decide (a <= length s)) as [Ha|Ha]; subst ia.
  - rewrite Nat.min_l by lia. apply take_ge. rewrite length_drop. lia.
  - rewrite Nat.min_r by lia. rewrite Nat.sub_diag, !drop_ge by lia. done.
Qed.

Lemma substring_to (s : jsstring) (b : nat) :
  substring s 0 (Some (Z.of_nat b)) = take b s.
Proof.
  unfold substring. cbv zeta. rewrite (clamp_of_nat _ b).
  assert (clamp (length s) 0 = 0) as -> by (unfold clamp; lia).
  set (ib := Nat.min b (length s)).
  rewrite (Nat.min_l 0 ib), (Nat.max_r 0 ib) by lia. rewrite Nat.sub_0_r. simpl.
  destruct (decide (b <= length s)) as [Hb|Hb]; subst ib.
  - by rewrite Nat.min_l by lia.
  - rewrite Nat.min_r by lia.
    transitivity s; [apply take_ge; lia | symmetry; apply take_ge; lia].
Qed.

Lemma replace_leading_newlines_spec (s : jsstring) :
  leading_newlines_stripped s (replace_leading_newlines s).
Proof.
  induction s as [|c s IH]; simpl.
  - by exists 0.
  - destruct (c =? 10)%N eqn:E.
    + apply N.eqb_eq in E as ->. destruct IH as (count & Hs & Hhead).
      exists (S count). split; [simpl; by rewrite <- Hs | done].
    + apply N.eqb_neq in E. exists 0. split; [done |]. simpl. congruence.
Qed.

Lemma trimStart_spec (s : jsstring) :
  exists before, s = before ++ trimStart s
    /\ Forall (fun c => is_whitespace c = true) before
    /\ forall c, head (trimStart s) = Some c -> is_whitespace c = false.
Proof.
  induction s as [|c s IH]; simpl.
  - exists []. by repeat split.
  - destruct (is_whitespace c) eqn:E.
    + destruct IH as (before & Hs & Hws & Hhead).
      exists (c :: before). split; [simpl; by rewrite <- Hs |].
      split; [by constructor | done].
    + exists []. split; [done |]. split; [constructor |].
      simpl. by intros ? [= <-].
Qed.

Lemma trimStart_head_kept (s : jsstring) (c : N) :
  head s = Some c -> is_whitespace c = false -> trimStart s = s.
Proof. destruct s as [|c' s]; simpl; [done |]. intros [= ->] ->. done. Qed.

Lemma trim_spec (s : jsstring) : trimmed s (trim s).
Proof.
  unfold trim, trimEnd.
  destruct (trimStart_spec s) as (before & Hs & Hbefore & Hhead).
  destruct (trimStart_spec (rev (trimStart s))) as (rafter & Hr & Hafter & Hlast).
  set (core := trimStart (rev (trimStart s))) in *.
  assert (Hmid : trimStart s = rev core ++ rev rafter).
  { rewrite <- rev_app_distr, <- Hr. by rewrite rev_involutive. }
  exists before, (rev rafter). split; [by rewrite <- Hmid |].
  split; [done |]. split; [by apply Forall_rev |].
  split.
  - intros c Hc. apply Hhead. rewrite Hmid.
    destruct (rev core); [discriminate Hc | done].
  - intros c Hc. apply Hlast. destruct core as [|c' core]; [discriminate Hc |].
    simpl in Hc. rewrite last_snoc in Hc. done.
Qed.

End Search.

(** ** The text taken from the edited file (lines 235-256) *)

Lemma last_occurrence_unique (pat s : jsstring) (j k : nat) :
  last_occurrence pat s j -> last_occurrence pat s k -> j = k.
Proof. intros [Hj Hmj] [Hk Hmk]. specialize (Hmj k Hk). specialize (Hmk j Hj). lia. Qed.

Lemma first_occurrence_from_unique (pat s : jsstring) (from j k : nat) :
  first_occurrence_from pat s from j -> first_occurrence_from pat s from k -> j = k.
Proof.
  intros (Hj & Hfj & Hmj) (Hk & Hfk & Hmk).
  specialize (Hmj k Hfk Hk). specialize (Hmk j Hfj Hj). lia.
Qed.

Lemma of_nat_not_minus_one (k : nat) : (Z.of_nat k =? -1)%Z = false.
Proof. apply Z.eqb_neq. lia. Qed.

(** When the marker occurs and a line feed follows its last occurrence,
    the text taken is the one the specification describes. *)
Lemma edited_text_spec (content : jsstring) (k n : nat) :
  last_occurrence (js "(Current - Editable)") content k ->
  first_occurrence_from LF content k n ->
  exists newText, edited_text content = Some newText /\ taken_text content n newText.
Proof.
  intros Hk Hn. unfold edited_text. cbv zeta.
  destruct (lastIndexOf_spec content (js "(Current - Editable)"))
    as [[_ Hnone] | (k' & -> & Hk')].
  { destruct Hk as [Hk _]. by destruct (Hnone k). }
  assert (k' = k) as -> by (by eapply last_occurrence_unique).
  rewrite of_nat_not_minus_one. cbn [negb].
  assert (Hbound : k <= length content).
  { destruct Hk as [Hk _]. apply occurs_at_bound in Hk. lia. }
  destruct (indexOf_spec content LF k Hbound) as [[_ Hnone] | (n' & -> & Hn')].
  { destruct Hn as (Hn & Hle & _). by destruct (Hnone n Hle). }
  assert (n' = n) as -> by (by eapply first_occurrence_from_unique).
  rewrite of_nat_not_minus_one. cbn [negb].
  replace (Z.of_nat n + 1)%Z with (Z.of_nat (S n)) by lia.
  rewrite substring_from.
  pose proof (replace_leading_newlines_spec (drop (S n) content)) as Hbody.
  set (body := JSString.replace_leading_newlines (drop (S n) content)) in *.
  destruct (lastIndexOf_spec body (LF ++ js "---")) as [[-> Hnosep] | (j & -> & Hj)].
  - cbn [Z.eqb negb]. eexists. split; [reflexivity |].
    exists body, body. split; [done |]. split; [by right |]. apply trim_spec.
  - rewrite of_nat_not_minus_one. cbn [negb]. rewrite substring_to.
    eexists. split; [reflexivity |].
    exists body, (take j body). split; [done |].
    split; [left; by exists j |]. apply trim_spec.
Qed.

(** ** What the messages hook does, call by call *)

Section Trace.
Context `{Host}.

Lemma log_world_frame (level : Level) (message : jsstring) (data : option JSON)
    (m : Machine) :
  syscalls (world (log level message data m)) = syscalls (world m)
  /\ fs (world (log level message data m)) = fs (world m)
  /\ clock (world (log level message data m)) = clock (world m).
Proof. unfold log. by destruct (_ >=? _)%Z. Qed.

Lemma after_capture_world (m : Machine) (ms : list Message.t) :
  syscalls (world (after_capture m ms)) = syscalls (world m)
  /\ fs (world (after_capture m ms)) = fs (world m)
  /\ clock (world (after_capture m ms)) = clock (world m).
Proof. unfold after_capture, log. by destruct (_ >=? _)%Z. Qed.

Lemma update_text_world (last : nat) (newText : jsstring) (s : Machine * list Message.t) :
  let m' := fst (snd (update_text last newText s)) in
  syscalls (world m') = syscalls (world (fst s))
  /\ fs (world m') = fs (world (fst s))
  /\ clock (world m') = clock (world (fst s))
  /\ config (plugin m') = config (plugin (fst s))
  /\ capturedSystem (plugin m') = capturedSystem (plugin (fst s))
  /\ capturedModel (plugin m') = capturedModel (plugin (fst s)).
Proof.
  unfold update_text, modify. cbn [fst snd].
  destruct (snd s !! last) as [lastMsg|]; [|done].
  destruct (first_text_from _ _) as [i|]; [|done].
  destruct (Message.parts lastMsg !! i); [|done].
  cbn [fst snd]. rewrite plugin_log.
  destruct (log_world_frame LInfo (js "User message edited successfully")
    (Some (JObj [(js "originalLength",
                  JNum (Z.of_nat (length (Part.text (Part.set_text newText t)))));
                 (js "newLength", JNum (Z.of_nat (length newText)))]))
    (on_analytics (fun a =>
       {| messagesIntercepted := messagesIntercepted a;
          messagesEdited := S (messagesEdited a);
          editorSessions := editorSessions a |}) (fst s))) as (-> & -> & ->).
  done.
Qed.

Lemma written_document_after_capture (m : Machine) (ms : list Message.t) :
  written_document (after_capture m ms) ms = written_document m ms.
Proof.
  unfold written_document, formatFullContext.
  rewrite plugin_after_capture. cbn [config capturedSystem capturedModel].
  by destruct (after_capture_world m ms) as (_ & _ & ->).
Qed.

(** The splice step of the round trip (lines 233-275). *)
Lemma splice_step (content : jsstring) (m : Machine) (ms : list Message.t) :
  let s := match edited_text content with
           | Some newText => snd (update_text (length ms - 1) newText (m, ms))
           | None => (m, ms)
           end in
  syscalls (world (fst s)) = syscalls (world m)
  /\ fs (world (fst s)) = fs (world m)
  /\ snd s = after_edit content ms.
Proof.
  cbv zeta. unfold after_edit. destruct (edited_text content) as [newText|]; [|done].
  destruct (update_text_world (length ms - 1) newText (m, ms)) as (-> & -> & _).
  by rewrite update_text_messages.
Qed.

Ltac tidy_world :=
  repeat first
    [ progress cbn [fst snd world plugin syscalls fs logged clock record_call set_fs
                    on_analytics]
    | rewrite syscalls_log
    | rewrite fs_log
    | rewrite on_edit_failure_returns ].

(** The calls the guarded round trip adds to the trace, and the array it
    leaves, by how far it got. *)
Lemma guarded_round_trip_trace (messages : list RoleParts) (m : Machine)
    (ms : list Message.t) :
  let r := try_catch (editor_round_trip messages (length ms - 1)) on_edit_failure (m, ms) in
  let m' := fst (snd r) in
  let ms' := snd (snd r) in
  let doc := formatFullContext (world m)
               (if showSystemMessages (config (plugin m)) then capturedSystem (plugin m)
                else [])
               messages (capturedModel (plugin m)) in
  (syscalls (world m') = syscalls (world m) /\ ms' = ms)
  \/ exists d,
       fs (world m) !! d = None
       /\ let f := join d (js "message.md") in
          let cmd := editor (config (plugin m)) ++ js " " ++ f in
          (syscalls (world m') = syscalls (world m) ++ [SysMkdtemp d] /\ ms' = ms)
          \/ (syscalls (world m') = syscalls (world m) ++ [SysMkdtemp d; SysWriteFile f doc]
              /\ ms' = ms)
          \/ (syscalls (world m')
              = syscalls (world m) ++ [SysMkdtemp d; SysWriteFile f doc; SysExec cmd]
              /\ ms' = ms)
          \/ exists c,
               (syscalls (world m')
                = syscalls (world m)
                  ++ [SysMkdtemp d; SysWriteFile f doc; SysExec cmd; SysReadFile f c]
                \/ syscalls (world m')
                   = syscalls (world m)
                     ++ [SysMkdtemp d; SysWriteFile f doc; SysExec cmd;
                         SysReadFile f c; SysUnlink f])
               /\ ms' = after_edit c ms.
Proof.
  cbv zeta. unfold try_catch. rewrite editor_round_trip_eq. cbv zeta.
  set (doc := formatFullContext _ _ _ _).
  destruct (mkdtemp_cases (join tmpdir (js "opencode-message-")) (world m))
    as [[e E] | (d & E & Hfresh & _)]; rewrite E.
  { left. by tidy_world. }
  right. exists d. split; [done |]. cbv zeta.
  set (f := join d (js "message.md")).
  match goal with |- context [writeFile ?p ?c ?w] =>
    destruct (writeFile_cases p c w) as [[e E2] | E2]; rewrite E2 end.
  { left. by tidy_world. }
  right.
  match goal with |- context [execSync ?c ?w] =>
    destruct (execSync_cases c w) as [[e E3] | [E3 | [_ E3]]]; rewrite E3 end.
  { left. tidy_world. by rewrite <- app_assoc. }
  2: { left. tidy_world. by rewrite <- app_assoc. }
  right.
  match goal with |- context [readFile ?p ?w] =>
    destruct (readFile_cases p w) as [[e E4] | (c & E4 & _)]; rewrite E4 end.
  { left. tidy_world. by rewrite <- !app_assoc. }
  right. exists c.
  match goal with |- context [match edited_text c with
                              | Some t => snd (update_text _ t (?M, _))
                              | None => _ end] =>
    pose proof (splice_step c M ms) as Hstep; cbv zeta in Hstep;
    set (s7 := match edited_text c with
               | Some t => snd (update_text (length ms - 1) t (M, ms))
               | None => (M, ms) end) in *
  end.
  destruct Hstep as (Hsys & Hfs & Hms).
  destruct (unlink_cases f (world (fst s7))) as [(e & E5 & _) | (E5 & _)]; rewrite E5.
  - split; [left | by tidy_world]. tidy_world. rewrite Hsys. tidy_world.
    by rewrite <- !app_assoc.
  - split; [right | by tidy_world]. tidy_world. rewrite Hsys. tidy_world.
    by rewrite <- !app_assoc.
Qed.

End Trace.

Section HookTrace.
Context `{Host}.

(** The calls a run of the hook adds to the trace, and the array it
    leaves, by how far the round trip got. *)
Lemma chat_messages_transform_trace (m : Machine) (ms : list Message.t) :
  let r := chat_messages_transform (m, ms) in
  let m' := fst (snd r) in
  let ms' := snd (snd r) in
  (syscalls (world m') = syscalls (world m) /\ ms' = ms)
  \/ ((exists lastMsg, ms !! (length ms - 1) = Some lastMsg
         /\ existsb is_text (Message.parts lastMsg) = true)
      /\ exists d,
           fs (world m) !! d = None
           /\ let f := join d (js "message.md") in
              let doc := written_document m ms in
              let cmd := editor (config (plugin m)) ++ js " " ++ f in
              (syscalls (world m') = syscalls (world m) ++ [SysMkdtemp d] /\ ms' = ms)
              \/ (syscalls (world m')
                  = syscalls (world m) ++ [SysMkdtemp d; SysWriteFile f doc]
                  /\ ms' = ms)
              \/ (syscalls (world m')
                  = syscalls (world m) ++ [SysMkdtemp d; SysWriteFile f doc; SysExec cmd]
                  /\ ms' = ms)
              \/ exists c,
                   (syscalls (world m')
                    = syscalls (world m)
                      ++ [SysMkdtemp d; SysWriteFile f doc; SysExec cmd; SysReadFile f c]
                    \/ syscalls (world m')
                       = syscalls (world m)
                         ++ [SysMkdtemp d; SysWriteFile f doc; SysExec cmd;
                             SysReadFile f c; SysUnlink f])
                   /\ ms' = after_edit c ms).
Proof.
  cbv zeta. rewrite chat_messages_transform_cases. cbv zeta.
  destruct (after_capture_world m ms) as (Hsys & Hfs & Hclock).
  destruct (negb _ || negb _); [left; by rewrite <- Hsys |].
  destruct (ms !! (length ms - 1)) as [lastMsg|] eqn:Elast;
    [|left; by rewrite <- Hsys].
  destruct (existsb is_text (Message.parts lastMsg)) eqn:Etext;
    [|left; by rewrite <- Hsys].
  cbn [negb].
  pose proof (guarded_round_trip_trace (role_parts ms) (after_capture m ms) ms) as Ht.
  cbv zeta in Ht. fold (written_document (after_capture m ms) ms) in Ht.
  rewrite written_document_after_capture, Hsys, Hfs, plugin_after_capture in Ht.
  cbn [config] in Ht.
  destruct Ht as [Ht | Ht]; [by left | right].
  split; [by exists lastMsg | exact Ht].
Qed.

End HookTrace.

Lemma app_eq_self_inv {A} (l k : list A) : l = l ++ k -> k = [].
Proof.
  intros E. apply (f_equal length) in E. rewrite length_app in E.
  destruct k; [done | simpl in E; lia].
Qed.

(** C1, as the code has it: when the round trip of the messages hook
    succeeds (the directory and the file are made, the editor exits, the
    file is read back as [c] and removed), the marker
    [(Current - Editable)] occurs in [c], last at position [k], and a
    line feed follows it, first at position [n], then the first text part
    of the last message of [output.messages] gets as its [text] the text
    taken from [c]: what follows that line feed, without its leading line
    feeds, cut before the last ["\n---"] if there is one, and trimmed.
    The part keeps its other fields. *)
Theorem edited_text_replaces_first_text_part `{Host} (m : Machine) (ms : list Message.t)
    (d f doc cmd c : jsstring) (k n : nat) :
  let r := chat_messages_transform (m, ms) in
  syscalls (world (fst (snd r)))
  = syscalls (world m)
    ++ [SysMkdtemp d; SysWriteFile f doc; SysExec cmd; SysReadFile f c; SysUnlink f] ->
  last_occurrence (js "(Current - Editable)") c k ->
  first_occurrence_from LF c k n ->
  exists lastMsg i part lastMsg' newText,
    ms !! (length ms - 1) = Some lastMsg
    /\ first_text_part (Message.parts lastMsg) i part
    /\ snd (snd r) !! (length ms - 1) = Some lastMsg'
    /\ Message.parts lastMsg' !! i = Some (Part.set_text newText part)
    /\ taken_text c n newText.
Proof.
  cbv zeta. intros Htrace Hk Hn.
  destruct (chat_messages_transform_trace m ms) as [[Hsys _] | (Hlast & d0 & _ & Hcases)].
  { rewrite Hsys in Htrace. apply app_eq_self_inv in Htrace. discriminate Htrace. }
  cbv zeta in Hcases.
  assert (Hms : snd (snd (chat_messages_transform (m, ms))) = after_edit c ms).
  { destruct Hcases as [[E _] | [[E _] | [[E _] | (c0 & [E | E] & Hms)]]];
      rewrite E in Htrace; apply app_inv_head in Htrace; try discriminate Htrace.
    assert (c0 = c) as -> by congruence. exact Hms. }
  rewrite Hms. clear Hcases Htrace.
  destruct (edited_text_spec c k n Hk Hn) as (newText & Hedit & Htaken).
  destruct Hlast as (lastMsg & Hlast & Htext).
  destruct (first_text_from_existsb _ 0 Htext) as [i Hi].
  pose proof (first_text_from_spec (Message.parts lastMsg) 0) as Hfirst.
  rewrite Hi in Hfirst. destruct Hfirst as (j & part & -> & Hj & Hty & Hbefore).
  exists lastMsg, j, part,
    (Message.set_parts (<[j := Part.set_text newText part]> (Message.parts lastMsg)) lastMsg),
    newText.
  split; [done |]. split.
  { split; [done |]. split; [by apply streqb_eq |].
    intros j' p Hlt Hj'. apply streqb_neq. by apply (Hbefore j' p). }
  unfold after_edit, spliced. rewrite Hedit. cbv zeta. rewrite Hlast, Hi. simpl.
  rewrite Hj.
  split; [apply list_lookup_insert_eq; by eapply lookup_lt_Some |].
  split; [|done]. simpl. apply list_lookup_insert_eq. by eapply lookup_lt_Some.
Qed.

Lemma last_occurrence_of_lastIndexOf (s pat : jsstring) (k : nat) :
  JSString.lastIndexOf s pat = Z.of_nat k -> last_occurrence pat s k.
Proof.
  intros E. destruct (lastIndexOf_spec s pat) as [[E' _] | (j & E' & Hj)].
  - rewrite E' in E. lia.
  - assert (j = k) as -> by lia. done.
Qed.

Lemma first_occurrence_of_indexOf (s pat : jsstring) (p n : nat) :
  p <= length s -> JSString.indexOf s pat (Z.of_nat p) = Z.of_nat n ->
  first_occurrence_from pat s p n.
Proof.
  intros Hp E. destruct (indexOf_spec s pat p Hp) as [[E' _] | (j & E' & Hj)].
  - rewrite E' in E. lia.
  - assert (j = n) as -> by lia. done.
Qed.

(** The example conversation, edited to [example_edited]: the round trip
    succeeds, the marker is last at position 14 and the line feed after
    it at position 34. *)
Lemma edited_text_replaces_first_text_part_witness :
  let H := example_host (Some example_edited) None in
  let r := chat_messages_transform (example_machine, example_messages) in
  exists lastMsg i part lastMsg' newText,
    example_messages !! (length example_messages - 1) = Some lastMsg
    /\ first_text_part (Message.parts lastMsg) i part
    /\ snd (snd r) !! (length example_messages - 1) = Some lastMsg'
    /\ Message.parts lastMsg' !! i = Some (Part.set_text newText part)
    /\ taken_text example_edited 34 newText.
Proof.
  intros H r.
  apply (edited_text_replaces_first_text_part (H := H) example_machine example_messages
           example_tempDir example_tempFile
           (written_document example_machine example_messages)
           example_command example_edited 14 34).
  - vm_compute. reflexivity.
  - apply last_occurrence_of_lastIndexOf. vm_compute. reflexivity.
  - apply first_occurrence_of_indexOf; [vm_compute; lia | vm_compute; reflexivity].
Defined.

(** On that run the second part of the last message, its first text
    part, reads ["fix the parser"], and the third is left alone. *)
Example edited_text_example :
  let H := example_host (Some example_edited) None in
  List.map (fun msg => List.map Part.text (Message.parts msg))
    (snd (snd (chat_messages_transform (example_machine, example_messages))))
  = [[js "hi"]; [js "hello"]; [[]; js "fix the parser"; js "please"]].
Proof. vm_compute. reflexivity. Qed.

(** The claim as the specification words it fails: the edited file
    [example_cut_short] contains the marker and the round trip succeeds,
    yet no line feed follows the marker, and [output.messages] is left as
    it was. *)
Lemma marker_without_line_feed_is_not_spliced :
  let H := example_host (Some example_cut_short) None in
  let r := chat_messages_transform (example_machine, example_messages) in
  syscalls (world (fst (snd r)))
  = syscalls (world example_machine)
    ++ [SysMkdtemp example_tempDir;
        SysWriteFile example_tempFile (written_document example_machine example_messages);
        SysExec example_command;
        SysReadFile example_tempFile example_cut_short;
        SysUnlink example_tempFile]
  /\ occurs_at (js "(Current - Editable)") example_cut_short 14
  /\ (forall n, ~ occurs_at LF example_cut_short n)
  /\ snd (snd r) = example_messages.
Proof.
  intros H r. split; [vm_compute; reflexivity |].
  split; [exists (js "## [3/3] USER "), []; split; reflexivity |].
  split; [|vm_compute; reflexivity].
  destruct (index_from_spec LF example_cut_short 0) as [[_ Hnone] | (j & E & _)];
    [exact Hnone |].
  assert (Hc : JSString.index_from LF example_cut_short 0 = (-1)%Z)
    by (vm_compute; reflexivity).
  rewrite Hc in E. lia.
Qed.

(** ** The captured system prompt *)

Section Captured.
Context `{Host}.

Lemma same_settings_refl (p : Plugin) : same_settings p p.
Proof. by repeat split. Qed.

Lemma same_settings_trans (p q r : Plugin) :
  same_settings p q -> same_settings q r -> same_settings p r.
Proof.
  intros (E1 & E2 & E3) (E1' & E2' & E3').
  split; [congruence |]. split; congruence.
Qed.

Lemma same_settings_log (level : Level) (message : jsstring) (data : option JSON)
    (m : Machine) :
  same_settings (plugin m) (plugin (log level message data m)).
Proof. rewrite plugin_log. apply same_settings_refl. Qed.

Lemma same_settings_update_text (last : nat) (newText : jsstring)
    (s : Machine * list Message.t) :
  same_settings (plugin (fst s)) (plugin (fst (snd (update_text last newText s)))).
Proof.
  destruct (update_text_world last newText s) as (_ & _ & _ & ? & ? & ?). by repeat split.
Qed.

Lemma guarded_round_trip_settings (messages : list RoleParts) (last : nat) (m : Machine)
    (ms : list Message.t) :
  same_settings (plugin m)
    (plugin (fst (snd (try_catch (editor_round_trip messages last) on_edit_failure (m, ms))))).
Proof.
  unfold try_catch. rewrite editor_round_trip_eq. cbv zeta.
  destruct (mkdtemp _ _) as [[[tempDir|e]|] w1];
    [|rewrite on_edit_failure_returns; cbn [fst snd]; rewrite plugin_log;
      apply same_settings_refl
     |apply same_settings_refl].
  destruct (writeFile _ _ _) as [[[[]|e]|] w2];
    [|rewrite on_edit_failure_returns; cbn [fst snd]; rewrite plugin_log;
      apply same_settings_refl
     |apply same_settings_refl].
  destruct (execSync _ _) as [[[[]|e]|] w4];
    [|rewrite on_edit_failure_returns; cbn [fst snd]; rewrite !plugin_log;
      apply same_settings_refl
     |cbn [fst snd plugin]; rewrite plugin_log; apply same_settings_refl].
  destruct (readFile _ _) as [[[c|e]|] w6];
    [|rewrite on_edit_failure_returns; cbn [fst snd]; rewrite plugin_log;
      cbn [plugin on_analytics]; rewrite plugin_log; by repeat split
     |cbn [fst snd plugin on_analytics]; rewrite plugin_log; by repeat split].
  match goal with |- context [match edited_text c with
                              | Some t => snd (update_text _ t (?M, _))
                              | None => _ end] =>
    assert (Hs : same_settings (plugin m)
                   (plugin (fst (match edited_text c with
                                 | Some t => snd (update_text last t (M, ms))
                                 | None => (M, ms) end))));
    [|set (s7 := match edited_text c with
                 | Some t => snd (update_text last t (M, ms))
                 | None => (M, ms) end) in *]
  end.
  { destruct (edited_text c) as [t|].
    - eapply same_settings_trans; [|apply same_settings_update_text].
      cbn [fst plugin on_analytics]. rewrite plugin_log. by repeat split.
    - cbn [fst plugin on_analytics]. rewrite plugin_log. by repeat split. }
  destruct (unlink _ _) as [[[[]|e]|] w8]; cbn [fst snd];
    [exact Hs | rewrite on_edit_failure_returns; cbn [fst snd]; by rewrite plugin_log
     | exact Hs].
Qed.

Lemma chat_messages_transform_settings (m : Machine) (ms : list Message.t) :
  same_settings (plugin m) (plugin (fst (snd (chat_messages_transform (m, ms))))).
Proof.
  rewrite chat_messages_transform_cases. cbv zeta.
  assert (Hcap : same_settings (plugin m) (plugin (after_capture m ms)))
    by (rewrite plugin_after_capture; by repeat split).
  destruct (negb _ || negb _); [exact Hcap |].
  destruct (ms !! _); [|exact Hcap].
  destruct (negb _); [exact Hcap |].
  eapply same_settings_trans; [exact Hcap | apply guarded_round_trip_settings].
Qed.

(** What a hook call does to the configuration and to the captured
    system prompt. *)
Lemma trigger_settings (c : HookCall) (m : Machine) :
  config (plugin (trigger hooks c m)) = config (plugin m)
  /\ capturedSystem (plugin (trigger hooks c m))
     = match c with
       | CallSystemTransform _ output => system output
       | _ => capturedSystem (plugin m)
       end.
Proof.
  destruct c as [input output | ms | input output | input | input].
  - change (trigger hooks (CallSystemTransform input output) m)
      with (snd (chat_system_transform input output m)).
    unfold chat_system_transform, modify. cbn [snd]. by rewrite plugin_log.
  - change (trigger hooks (CallMessagesTransform ms) m)
      with (fst (snd (chat_messages_transform (m, ms)))).
    by destruct (chat_messages_transform_settings m ms) as (-> & -> & _).
  - change (trigger hooks (CallChatMessage input output) m)
      with (snd (chat_message input output m)).
    unfold chat_message, modify. cbn [snd]. by rewrite plugin_log.
  - change (trigger hooks (CallEvent input) m) with (snd (event input m)).
    unfold event. destruct (streqb _ _); [|done].
    unfold modify. cbn [snd plugin on_analytics config capturedSystem].
    by rewrite plugin_log.
  - change (trigger hooks (CallToolExecuteBefore input) m)
      with (snd (tool_execute_before input m)).
    unfold tool_execute_before, modify. cbn [snd]. by rewrite plugin_log.
Qed.

Lemma run_calls_settings (cs : list HookCall) (m : Machine) :
  config (plugin (run_calls hooks cs m)) = config (plugin m)
  /\ capturedSystem (plugin (run_calls hooks cs m))
     = fold_left (fun captured c =>
                    match c with
                    | CallSystemTransform _ output => system output
                    | _ => captured
                    end) cs (capturedSystem (plugin m)).
Proof.
  unfold run_calls. revert m; induction cs as [|c cs IH]; intros m; [done |].
  cbn [fold_left]. destruct (IH (trigger hooks c m)) as [-> ->].
  destruct (trigger_settings c m) as [-> ->]. by destruct c.
Qed.

End Captured.

(** C5, as the code has it: the document the messages hook writes for
    the editor is the title, then the section [## System Prompt] listing
    the captured strings, then the blocks of the messages; and the
    section is there exactly when [config.showSystemMessages] is true and
    the most recent system hook before this call captured an array that
    is not empty.  (An earlier capture does not count: each system hook
    overwrites the one before.) *)
Theorem system_prompt_section_written `{Host} (cfg : Config) (w : World)
    (prior : list HookCall) (ms : list Message.t) (d path doc : jsstring)
    (rest : list SysCall) :
  let m := run_calls hooks prior {| plugin := initial_plugin cfg; world := w |} in
  let r := chat_messages_transform (m, ms) in
  syscalls (world (fst (snd r)))
  = syscalls (world m) ++ SysMkdtemp d :: SysWriteFile path doc :: rest ->
  doc = JSString.join LF
          (push_title [] (clock (world m)) (capturedModel (plugin m)) (length ms)
           ++ (if showSystemMessages cfg && (0 <? length (latest_system prior))
               then system_section (latest_system prior) else [])
           ++ format_messages (length ms) 0 (role_parts ms) []).
Proof.
  cbv zeta. intros Htrace.
  set (m := run_calls hooks prior {| plugin := initial_plugin cfg; world := w |}) in *.
  assert (Hdoc : doc = written_document m ms).
  { destruct (chat_messages_transform_trace m ms) as [[Hsys _] | (_ & d0 & _ & Hcases)].
    { rewrite Hsys in Htrace. apply app_eq_self_inv in Htrace. discriminate Htrace. }
    cbv zeta in Hcases.
    destruct Hcases as [[E _] | [[E _] | [[E _] | (c0 & [E | E] & _)]]];
      rewrite E in Htrace; apply app_inv_head in Htrace;
      try discriminate Htrace; congruence. }
  assert (Hlen : length (role_parts ms) = length ms)
    by (unfold role_parts; apply length_map).
  subst doc. unfold written_document, formatFullContext.
  rewrite formatFullContext_lines_shape, Hlen.
  rewrite format_messages_blocks by (rewrite Hlen; lia). cbn [app].
  destruct (run_calls_settings prior {| plugin := initial_plugin cfg; world := w |})
    as [Hcfg Hcap].
  fold m in Hcfg, Hcap. cbn [plugin initial_plugin config capturedSystem] in Hcfg, Hcap.
  fold (latest_system prior) in Hcap. rewrite Hcfg, Hcap.
  do 2 f_equal. by destruct (showSystemMessages cfg).
Qed.

(** One system hook captures ["be nice"], then the messages hook runs on
    a one-message conversation: the document has the section. *)
Lemma system_prompt_section_written_witness :
  let H := example_host None None in
  let prior := [CallSystemTransform {| model := ModelNull |}
                  {| system := [js "be nice"] |}] in
  let m := run_calls hooks prior
             {| plugin := initial_plugin example_config; world := example_world |} in
  let r := chat_messages_transform (m, example_one_message) in
  let doc := written_document m example_one_message in
  syscalls (world (fst (snd r)))
  = syscalls (world m)
    ++ [SysMkdtemp example_tempDir; SysWriteFile example_tempFile doc;
        SysExec example_command; SysReadFile example_tempFile doc;
        SysUnlink example_tempFile]
  /\ doc = JSString.join LF
             (push_title [] (clock (world m)) (capturedModel (plugin m)) 1
              ++ system_section [js "be nice"]
              ++ format_messages 1 0 (role_parts example_one_message) []).
Proof.
  intros H prior m r doc.
  assert (Htrace : syscalls (world (fst (snd r)))
                   = syscalls (world m)
                     ++ [SysMkdtemp example_tempDir; SysWriteFile example_tempFile doc;
                         SysExec example_command; SysReadFile example_tempFile doc;
                         SysUnlink example_tempFile])
    by (vm_compute; reflexivity).
  split; [exact Htrace |].
  exact (system_prompt_section_written (H := H) example_config example_world prior
           example_one_message example_tempDir example_tempFile doc _ Htrace).
Defined.

(** The claim as the specification words it fails: an earlier system
    hook captured a prompt, a later one an empty array, and
    [showSystemMessages] is true; the document written then has no
    [## System Prompt] in it. *)
Lemma earlier_capture_is_overwritten :
  let H := example_host None None in
  let m := run_calls hooks example_prior
             {| plugin := initial_plugin example_config; world := example_world |} in
  let r := chat_messages_transform (m, example_one_message) in
  let doc := written_document m example_one_message in
  showSystemMessages example_config = true
  /\ (exists input output,
        In (CallSystemTransform input output) example_prior /\ system output <> [])
  /\ syscalls (world (fst (snd r)))
     = syscalls (world m)
       ++ [SysMkdtemp example_tempDir; SysWriteFile example_tempFile doc;
           SysExec example_command; SysReadFile example_tempFile doc;
           SysUnlink example_tempFile]
  /\ JSString.indexOf doc (js "## System Prompt") 0 = (-1)%Z.
Proof.
  intros H m r doc. split; [reflexivity |].
  split.
  { exists {| model := ModelNull |}, {| system := [js "be nice"] |}.
    split; [by left | discriminate]. }
  split; vm_compute; reflexivity.
Qed.


(** ** The loops finish *)

Section Loops.
Context `{Host}.









End Loops.

(** ** Where the messages hook can block *)

Section Blocking.
Context `{Host}.



End Blocking.




(** With less fuel than the conversation is long the loop over the
    messages has not finished. *)
Example loop_needs_its_fuel :
  let H := example_host None None in
  formatFullContext_steps 2 example_world [] (role_parts example_messages) ModelNull = None
  /\ formatFullContext_steps 3 example_world [] (role_parts example_messages) ModelNull
     = Some (formatFullContext example_world [] (role_parts example_messages) ModelNull).
Proof. split; vm_compute; reflexivity. Qed.

(** ** What stays on the file system *)

Section Leftovers.
Context `{Host}.

Lemma join_ne (d x : jsstring) : join d x <> d.
Proof.
  unfold join. intros E. apply (f_equal length) in E.
  rewrite !length_app in E. simpl in E. lia.
Qed.

Ltac tidy_fs :=
  repeat first
    [ progress cbn [fst snd world plugin syscalls fs logged clock record_call set_fs
                    on_analytics]
    | rewrite syscalls_log
    | rewrite fs_log
    | rewrite on_edit_failure_returns
    | rewrite lookup_insert_eq
    | rewrite lookup_insert_ne by (first [apply join_ne | apply not_eq_sym, join_ne])
    | rewrite lookup_delete_ne by (first [apply join_ne | apply not_eq_sym, join_ne]) ].

(** Once [mkdtemp] has made the directory [d], the guarded round trip
    ends with [d] still there, unless the editor's command removes it. *)
Lemma guarded_round_trip_leaves_directory (messages : list RoleParts) (m : Machine)
    (ms : list Message.t) :
  let r := try_catch (editor_round_trip messages (length ms - 1)) on_edit_failure (m, ms) in
  let m' := fst (snd r) in
  syscalls (world m') = syscalls (world m)
  \/ exists d rest,
       fs (world m) !! d = None
       /\ syscalls (world m') = syscalls (world m) ++ SysMkdtemp d :: rest
       /\ ((forall command files, fst (spawn command files) !! d = files !! d) ->
           fs (world m') !! d = Some Dir).
Proof.
  cbv zeta. unfold try_catch. rewrite editor_round_trip_eq. cbv zeta.
  set (doc := formatFullContext _ _ _ _).
  destruct (mkdtemp_cases (join tmpdir (js "opencode-message-")) (world m))
    as [[e E] | (d & E & Hfresh & _)]; rewrite E.
  { left. by tidy_fs. }
  right. exists d.
  set (f := join d (js "message.md")).
  match goal with |- context [writeFile ?p ?c ?w] =>
    destruct (writeFile_cases p c w) as [[e E2] | E2]; rewrite E2 end.
  { exists []. split; [done |]. split; by tidy_fs. }
  match goal with |- context [execSync ?c ?w] =>
    destruct (execSync_cases c w) as [[e E3] | [E3 | [_ E3]]]; rewrite E3 end.
  { eexists. split; [done |]. split.
    - tidy_fs. by rewrite <- app_assoc.
    - intros Hkeeps. tidy_fs. rewrite Hkeeps. by tidy_fs. }
  2: { eexists. split; [done |]. split.
       - tidy_fs. by rewrite <- app_assoc.
       - intros Hkeeps. by tidy_fs. }
  match goal with |- context [readFile ?p ?w] =>
    destruct (readFile_cases p w) as [[e E4] | (c & E4 & _)]; rewrite E4 end.
  { eexists. split; [done |]. split.
    - tidy_fs. by rewrite <- !app_assoc.
    - intros Hkeeps. tidy_fs. rewrite Hkeeps. by tidy_fs. }
  match goal with |- context [match edited_text c with
                              | Some t => snd (update_text _ t (?M, _))
                              | None => _ end] =>
    pose proof (splice_step c M ms) as Hstep; cbv zeta in Hstep;
    set (s7 := match edited_text c with
               | Some t => snd (update_text (length ms - 1) t (M, ms))
               | None => (M, ms) end) in *
  end.
  destruct Hstep as (Hsys & Hfs & _).
  destruct (unlink_cases f (world (fst s7))) as [(e & E5 & _) | (E5 & _)]; rewrite E5.
  - eexists. split; [done |]. split.
    + tidy_fs. rewrite Hsys. tidy_fs. by rewrite <- !app_assoc.
    + intros Hkeeps. tidy_fs. rewrite Hfs. tidy_fs. rewrite Hkeeps. by tidy_fs.
  - eexists. split; [done |]. split.
    + tidy_fs. rewrite Hsys. tidy_fs. by rewrite <- !app_assoc.
    + intros Hkeeps. tidy_fs. rewrite Hfs. tidy_fs. rewrite Hkeeps. by tidy_fs.
Qed.

End Leftovers.

(** Whenever the messages hook has made its temporary directory [d], and
    the editor's command does not itself remove [d], the directory is
    still on the file system when the hook returns: nothing in the hook
    removes it. *)
Theorem temporary_directory_remains `{Host} (m : Machine) (ms : list Message.t)
    (d : jsstring) (rest : list SysCall) :
  let r := chat_messages_transform (m, ms) in
  syscalls (world (fst (snd r))) = syscalls (world m) ++ SysMkdtemp d :: rest ->
  (forall command files, fst (spawn command files) !! d = files !! d) ->
  fs (world m) !! d = None /\ fs (world (fst (snd r))) !! d = Some Dir.
Proof.
  cbv zeta. rewrite chat_messages_transform_cases. cbv zeta.
  destruct (after_capture_world m ms) as (Hsys & Hfs & _).
  assert (Hnone : syscalls (world (after_capture m ms))
                  = syscalls (world m) ++ SysMkdtemp d :: rest -> False).
  { rewrite Hsys. intros E. apply app_eq_self_inv in E. discriminate E. }
  destruct (negb _ || negb _); [intros E; by destruct (Hnone E) |].
  destruct (ms !! _); [|intros E; by destruct (Hnone E)].
  destruct (negb _); [intros E; by destruct (Hnone E) |].
  intros Htrace Hkeeps.
  destruct (guarded_round_trip_leaves_directory (role_parts ms) (after_capture m ms) ms)
    as [E | (d0 & rest0 & Hfresh & E & Hdir)].
  - rewrite E, Hsys in Htrace. apply app_eq_self_inv in Htrace. discriminate Htrace.
  - rewrite E, Hsys in Htrace. apply app_inv_head in Htrace.
    injection Htrace as -> _. rewrite Hfs in Hfresh. by split; [|apply Hdir].
Qed.

(** On the example conversation, with the editor that saves
    [example_edited]. *)
Lemma temporary_directory_remains_witness :
  let H := example_host (Some example_edited) None in
  let r := chat_messages_transform (example_machine, example_messages) in
  fs (world example_machine) !! example_tempDir = None
  /\ fs (world (fst (snd r))) !! example_tempDir = Some Dir.
Proof.
  intros H r.
  apply (temporary_directory_remains (H := H) example_machine example_messages
           example_tempDir
           [SysWriteFile example_tempFile (written_document example_machine example_messages);
            SysExec example_command;
            SysReadFile example_tempFile example_edited;
            SysUnlink example_tempFile]).
  - vm_compute. reflexivity.
  - intros command files. cbn [spawn example_host fst].
    apply lookup_insert_ne. discriminate.
Defined.

(** C6 fails on the code: the messages hook makes a temporary directory
    and a file in it, and removes the file only.  On the example
    conversation, with an editor that saves [example_edited] and exits,
    the hook returns and the file system, empty before, holds the
    directory the hook made. *)
Example temporary_directory_left_behind :
  let H := example_host (Some example_edited) None in
  let r := chat_messages_transform (example_machine, example_messages) in
  fs (world example_machine) = ∅
  /\ fst r = Ok tt
  /\ SysMkdtemp example_tempDir ∈ syscalls (world (fst (snd r)))
  /\ fs (world (fst (snd r))) !! example_tempDir = Some Dir
  /\ fs (world (fst (snd r))) !! example_tempFile = None.
Proof.
  intros H r. split; [reflexivity |]. split; [vm_compute; reflexivity |].
  split; [|split; vm_compute; reflexivity].
  assert (E : syscalls (world (fst (snd r)))
              = [SysMkdtemp example_tempDir;
                 SysWriteFile example_tempFile
                   (written_document example_machine example_messages);
                 SysExec example_command;
                 SysReadFile example_tempFile example_edited;
                 SysUnlink example_tempFile]) by (vm_compute; reflexivity).
  rewrite E. apply elem_of_cons. by left.
Qed.

(** When the editor exits with an error the file stays as well. *)
Example temporary_file_left_behind_on_failure :
  let H := example_host None (Some {| message := js "Command failed: code -w" |}) in
  let r := chat_messages_transform (example_machine, example_messages) in
  fst r = Ok tt
  /\ fs (world (fst (snd r))) !! example_tempDir = Some Dir
  /\ fs (world (fst (snd r))) !! example_tempFile
     = Some (File (written_document example_machine example_messages))
  /\ List.map log_message (logged (world (fst (snd r))))
     = [js "Full message context captured";
        js "Opening editor for full context review";
        js "Failed to edit message"].
Proof. intros H r. repeat split; vm_compute; reflexivity. Qed.

(** ** The record of an edit *)

(** The record logged after the assignment (lines 266-269) reads
    [originalLength] from the part that was just assigned to: it always
    equals [newLength]. *)
Theorem logged_original_length_is_the_new_one (last : nat) (newText : jsstring)
    (s : Machine * list Message.t) (record : LogRecord) :
  let s' := snd (update_text last newText s) in
  logged (world (fst s')) = logged (world (fst s)) ++ [record] ->
  extra record
  = Some (JObj [(js "originalLength", JNum (Z.of_nat (length newText)));
                (js "newLength", JNum (Z.of_nat (length newText)))]).
Proof.
  cbv zeta. unfold update_text, modify. cbn [fst snd].
  assert (Hsame : logged (world (fst s)) = logged (world (fst s)) ++ [record] -> False).
  { intros E. apply app_eq_self_inv in E. discriminate E. }
  destruct (snd s !! last) as [lastMsg|]; [|intros E; by destruct (Hsame E)].
  destruct (first_text_from _ _) as [i|]; [|intros E; by destruct (Hsame E)].
  destruct (Message.parts lastMsg !! i) as [part|]; [|intros E; by destruct (Hsame E)].
  cbn [fst snd]. unfold log. destruct (_ >=? _)%Z; [|intros E; by destruct (Hsame E)].
  cbn [on_world world logged client_app_log on_analytics].
  intros E. apply app_inv_head in E. injection E as <-. by destruct part.
Qed.

Lemma logged_original_length_witness :
  let s := (example_machine, example_messages) in
  let record := {| service := js "micromanager"; level := js "info";
                   log_message := js "User message edited successfully";
                   extra := Some (JObj [(js "originalLength", JNum 3);
                                        (js "newLength", JNum 3)]) |} in
  logged (world (fst (snd (update_text 2 (js "new") s))))
  = logged (world (fst s)) ++ [record]
  /\ extra record
     = Some (JObj [(js "originalLength", JNum (Z.of_nat (length (js "new"))));
                   (js "newLength", JNum (Z.of_nat (length (js "new"))))]).
Proof.
  intros s record.
  assert (E : logged (world (fst (snd (update_text 2 (js "new") s))))
              = logged (world (fst s)) ++ [record]) by (vm_compute; reflexivity).
  split; [exact E |].
  exact (logged_original_length_is_the_new_one 2 (js "new") s record E).
Defined.

(** ** The document of the example conversation *)

Example formatFullContext_example :
  let H := example_host None None in
  formatFullContext_lines (js "T") [js "be nice"] (role_parts example_messages) ModelNull
  = [js "# OpenCode Micromanager - Full LLM Context"; [];
     js "**Timestamp:** T";
     js "**Messages:** 3"; [];
     js "## System Prompt"; []; js "be nice"; []; js "---"; [];
     js "## [1/3] USER"; []; js "hi"; []; js "---"; [];
     js "## [2/3] ASSISTANT"; []; js "hello"; []; js "---"; [];
     js "## [3/3] USER (Current - Editable)"; [];
     js "[file: {}]"; []; js "fix it"; []; js "please"; []; js "---"; []].
Proof. vm_compute. reflexivity. Qed.

(** * Further properties *)

(** ** Which configuration file is read *)

Lemma obj_get_absent (key : jsstring) (members : list (jsstring * JSON)) :
  key ∉ members.*1 -> obj_get key members = None.
Proof.
  induction members as [|[k v] members IH]; [done |].
  cbn [fmap list_fmap fst]. intros [Hk Hrest]%not_elem_of_cons.
  cbn [obj_get]. rewrite (IH Hrest).
  assert (streqb k key = false) as -> by (apply streqb_neq; congruence). done.
Qed.

Lemma obj_get_member (key : jsstring) (value : JSON) (members : list (jsstring * JSON)) :
  NoDup members.*1 -> (key, value) ∈ members -> obj_get key members = Some value.
Proof.
  induction members as [|[k v] members IH]; [by intros _ ?%elem_of_nil |].
  cbn [fmap list_fmap fst]. intros [Hk Hnd]%NoDup_cons [E | Hin]%elem_of_cons.
  - injection E as -> ->. cbn [obj_get]. rewrite (obj_get_absent _ _ Hk).
    by rewrite streqb_refl.
  - cbn [obj_get]. by rewrite (IH Hnd Hin).
Qed.

Lemma json_strings_typed (items : list JSON) :
  forallb (fun v => match v with JStr _ => true | _ => false end) items = true ->
  exists l, json_strings items = Some l /\ List.map JStr l = items.
Proof.
  unfold json_strings. induction items as [|v items IH]; [by exists [] |].
  cbn [forallb]. intros [Hv Hitems]%andb_true_iff.
  destruct v as [| | |s| |]; try discriminate Hv.
  destruct (IH Hitems) as (l & E & <-). exists (s :: l). simpl. by rewrite E.
Qed.

(** On a loaded object that sets options at their types, the typed
    reading is the spread of line 34: every option the object sets has
    the object's value, every other option keeps the value it had. *)
Lemma spread_config_typed (c : Config) (members : list (jsstring * JSON)) :
  typed_options (JObj members) ->
  (forall key value, (key, value) ∈ members ->
     option_value (spread_config c (JObj members)) key = Some value)
  /\ (forall key, key ∉ members.*1 ->
        option_value (spread_config c (JObj members)) key = option_value c key).
Proof.
  intros [Hnd Hty]. split.
  - intros key value Hin.
    pose proof (obj_get_member key value members Hnd Hin) as Hget.
    assert (Hmember : option_typed (key, value) = true).
    { apply (proj1 (forallb_forall _ _) Hty). by apply list_elem_of_In. }
    unfold option_typed in Hmember.
    unfold option_value, spread_config, config_json.
    cbn [logLevel enableEditor editor autoEdit showSystemMessages messageTypes].
    destruct (streqb key (js "logLevel")) eqn:E1.
    { apply streqb_eq in E1 as ->. destruct value; try discriminate Hmember.
      by rewrite Hget. }
    destruct (streqb key (js "editor")) eqn:E2.
    { apply streqb_eq in E2 as ->. destruct value; try discriminate Hmember.
      by rewrite Hget. }
    destruct (streqb key (js "enableEditor")) eqn:E3.
    { apply streqb_eq in E3 as ->. destruct value; try discriminate Hmember.
      by rewrite Hget. }
    destruct (streqb key (js "autoEdit")) eqn:E4.
    { apply streqb_eq in E4 as ->. destruct value; try discriminate Hmember.
      by rewrite Hget. }
    destruct (streqb key (js "showSystemMessages")) eqn:E5.
    { apply streqb_eq in E5 as ->. destruct value; try discriminate Hmember.
      by rewrite Hget. }
    destruct (streqb key (js "messageTypes")) eqn:E6; [|discriminate Hmember].
    apply streqb_eq in E6 as ->. destruct value as [| | | |items|]; try discriminate Hmember.
    cbn [orb] in Hmember. destruct (json_strings_typed items Hmember) as (l & E & <-).
    rewrite Hget. unfold json_strings in E. unfold json_strings. by rewrite E.
  - intros key Hkey. pose proof (obj_get_absent key members Hkey) as Hnone.
    unfold option_value, spread_config, config_json.
    cbn [obj_get logLevel enableEditor editor autoEdit showSystemMessages messageTypes].
    destruct (streqb (js "messageTypes") key) eqn:E6;
      [apply streqb_eq in E6; subst key; by rewrite Hnone |].
    destruct (streqb (js "showSystemMessages") key) eqn:E5;
      [apply streqb_eq in E5; subst key; by rewrite Hnone |].
    destruct (streqb (js "autoEdit") key) eqn:E4;
      [apply streqb_eq in E4; subst key; by rewrite Hnone |].
    destruct (streqb (js "editor") key) eqn:E3;
      [apply streqb_eq in E3; subst key; by rewrite Hnone |].
    destruct (streqb (js "enableEditor") key) eqn:E2;
      [apply streqb_eq in E2; subst key; by rewrite Hnone |].
    destruct (streqb (js "logLevel") key) eqn:E1;
      [apply streqb_eq in E1; subst key; by rewrite Hnone | done].
Qed.

(** When [.micromanager.jsonc] is there and parses to an object that
    sets options of lines 8-15 at their types, it decides the
    configuration: every option the file sets has the file's value, the
    others keep their defaults.  [.micromanager.json] is not read,
    whether it exists or not, and the one record logged says "loaded"
    and carries the configuration. *)
Theorem jsonc_takes_precedence `{Host} (directory content : jsstring)
    (members : list (jsstring * JSON)) (w : World) :
  fs w !! join directory (js ".micromanager.jsonc") = Some (File content) ->
  JSON_parse (stripJsonComments content) = Ok (JObj members) ->
  typed_options (JObj members) ->
  let r := MessageInterceptorPlugin directory w in
  exists config,
    fst r = Ok (hooks, initial_plugin config)
    /\ (forall key value, (key, value) ∈ members -> option_value config key = Some value)
    /\ (forall key, key ∉ members.*1 ->
          option_value config key = option_value default_config key)
    /\ syscalls (snd r)
       = syscalls w ++ [SysReadFile (join directory (js ".micromanager.jsonc")) content]
    /\ logged (snd r)
       = logged w
         ++ [{| service := js "micromanager"; level := js "info";
                log_message := js "Configuration loaded from .micromanager.json";
                extra := Some (JObj [(js "config", config_json config)]) |}]
    /\ fs (snd r) = fs w.
Proof.
  intros Hfile Hparse Htyped. cbv zeta.
  destruct (spread_config_typed default_config members Htyped) as [Hset Hkept].
  exists (spread_config default_config (JObj members)).
  unfold MessageInterceptorPlugin, load_config, read_config, on_config_failure, bind,
    try_catch, modify, ret, readFile.
  rewrite Hfile, Hparse. done.
Qed.

(** A project whose [.micromanager.jsonc] holds an empty object, on the
    example host, whose parser answers with an object that sets
    [autoEdit]: the editor opens by itself, the other options are the
    defaults. *)
Lemma jsonc_takes_precedence_witness :
  let H := example_host None None in
  let w := {| fs := <[join example_project (js ".micromanager.jsonc") := File (js "{}")]> ∅;
              logged := []; syscalls := []; clock := [] |} in
  exists config,
    fst (MessageInterceptorPlugin example_project w) = Ok (hooks, initial_plugin config)
    /\ option_value config (js "autoEdit") = Some (JBool true)
    /\ option_value config (js "logLevel") = Some (JStr (js "info")).
Proof.
  intros H w.
  destruct (jsonc_takes_precedence (H := H) example_project (js "{}")
              [(js "autoEdit", JBool true)] w)
    as (config & Hr & Hset & Hkept & _).
  - vm_compute. reflexivity.
  - reflexivity.
  - split; [apply NoDup_singleton | reflexivity].
  - exists config. split; [exact Hr |]. split.
    + apply Hset. by apply list_elem_of_singleton.
    + rewrite Hkept; [reflexivity |].
      intros Hin%list_elem_of_singleton. discriminate Hin.
Defined.

(** When [.micromanager.jsonc] is there and does not parse, the defaults
    are used: the fallback to [.micromanager.json] covers a failed read
    only, so that file is not read even when it holds a valid
    configuration.  The warning carries the parser's message. *)
Theorem malformed_jsonc_gives_defaults `{Host} (directory content : jsstring)
    (error : JsError) (w : World) :
  fs w !! join directory (js ".micromanager.jsonc") = Some (File content) ->
  JSON_parse (stripJsonComments content) = Throw error ->
  let r := MessageInterceptorPlugin directory w in
  fst r = Ok (hooks, initial_plugin default_config)
  /\ syscalls (snd r)
     = syscalls w ++ [SysReadFile (join directory (js ".micromanager.jsonc")) content]
  /\ logged (snd r)
     = logged w
       ++ [{| service := js "micromanager"; level := js "warn";
              log_message := js "Using default configuration";
              extra := Some (JObj [(js "error", JStr (message error))]) |}].
Proof.
  intros Hfile Hparse. cbv zeta.
  unfold MessageInterceptorPlugin, load_config, read_config, on_config_failure, bind,
    try_catch, modify, ret, readFile.
  rewrite Hfile, Hparse. done.
Qed.

(** Both files are there, the [.jsonc] one malformed and the [.json] one
    valid: the valid one is ignored. *)
Lemma malformed_jsonc_gives_defaults_witness :
  let H := picky_host in
  let r := MessageInterceptorPlugin example_project example_both_files in
  fs example_both_files !! join example_project (js ".micromanager.json")
    = Some (File (js "{ json }"))
  /\ JSON_parse (stripJsonComments (js "{ json }"))
     = Ok (JObj [(js "logLevel", JStr (js "error"))])
  /\ fst r = Ok (hooks, initial_plugin default_config)
  /\ syscalls (snd r)
     = [SysReadFile (join example_project (js ".micromanager.jsonc")) (js "{ jsonc }")].
Proof.
  intros H r.
  split; [vm_compute; reflexivity |]. split; [vm_compute; reflexivity |].
  destruct (malformed_jsonc_gives_defaults (H := H) example_project (js "{ jsonc }")
              {| message := js "Unexpected token" |} example_both_files)
    as (H1 & H2 & _); [vm_compute; reflexivity | vm_compute; reflexivity |].
  split; [exact H1 | exact H2].
Defined.

(** When [.micromanager.jsonc] cannot be read and [.micromanager.json]
    is there and parses to an object that sets options of lines 8-15 at
    their types, the latter decides the configuration: every option it
    sets has its value, the others keep their defaults. *)
Theorem json_is_the_fallback `{Host} (directory content : jsstring)
    (members : list (jsstring * JSON)) (w : World) :
  (forall c, fs w !! join directory (js ".micromanager.jsonc") <> Some (File c)) ->
  fs w !! join directory (js ".micromanager.json") = Some (File content) ->
  JSON_parse (stripJsonComments content) = Ok (JObj members) ->
  typed_options (JObj members) ->
  let r := MessageInterceptorPlugin directory w in
  exists config,
    fst r = Ok (hooks, initial_plugin config)
    /\ (forall key value, (key, value) ∈ members -> option_value config key = Some value)
    /\ (forall key, key ∉ members.*1 ->
          option_value config key = option_value default_config key)
    /\ syscalls (snd r)
       = syscalls w ++ [SysReadFile (join directory (js ".micromanager.json")) content].
Proof.
  intros Hnone Hfile Hparse Htyped. cbv zeta.
  destruct (spread_config_typed default_config members Htyped) as [Hset Hkept].
  exists (spread_config default_config (JObj members)).
  unfold MessageInterceptorPlugin, load_config, read_config, on_config_failure, bind,
    try_catch, modify, ret, readFile.
  destruct (fs w !! join directory (js ".micromanager.jsonc")) as [[|c]|] eqn:E;
    [| by destruct (Hnone c) |]; rewrite Hfile, Hparse; done.
Qed.

(** A project directory with [.micromanager.json] only, which sets
    [logLevel]. *)
Lemma json_is_the_fallback_witness :
  let H := picky_host in
  let r := MessageInterceptorPlugin example_project example_json_only in
  exists config,
    fst r = Ok (hooks, initial_plugin config)
    /\ option_value config (js "logLevel") = Some (JStr (js "error"))
    /\ option_value config (js "autoEdit") = Some (JBool false)
    /\ syscalls (snd r)
       = syscalls example_json_only
         ++ [SysReadFile (join example_project (js ".micromanager.json")) (js "{ json }")].
Proof.
  intros H r.
  destruct (json_is_the_fallback (H := H) example_project (js "{ json }")
              [(js "logLevel", JStr (js "error"))] example_json_only)
    as (config & Hr & Hset & Hkept & Hsys).
  - intros c. vm_compute. discriminate.
  - vm_compute. reflexivity.
  - vm_compute. reflexivity.
  - split; [apply NoDup_singleton | reflexivity].
  - exists config. split; [exact Hr |]. split; [|split; [|exact Hsys]].
    + apply Hset. by apply list_elem_of_singleton.
    + rewrite Hkept; [reflexivity |].
      intros Hin%list_elem_of_singleton. discriminate Hin.
Defined.

(** The factory only reads: whatever it finds, it returns, leaves the
    file system as it was, and hands the host exactly one record, at
    level ["info"] or ["warn"].  That record does not go through [log],
    so it is emitted whatever [logLevel] the loaded configuration asks
    for. *)
Theorem factory_reads_and_logs_once `{Host} (directory : jsstring) (w : World) :
  let r := MessageInterceptorPlugin directory w in
  fs (snd r) = fs w
  /\ (forall call, call ∈ syscalls (snd r) -> call ∈ syscalls w
        \/ exists path content, call = SysReadFile path content)
  /\ exists record,
       logged (snd r) = logged w ++ [record]
       /\ service record = js "micromanager"
       /\ (level record = js "info" \/ level record = js "warn").
Proof.
  cbv zeta.
  unfold MessageInterceptorPlugin, load_config, read_config, on_config_failure, bind,
    try_catch, modify, ret, readFile.
  assert (Hread : forall w0 path content call,
            call ∈ syscalls w0 ++ [SysReadFile path content] ->
            call ∈ syscalls w0 \/ exists p c, call = SysReadFile p c).
  { intros w0 path content call [Hin | Hin%list_elem_of_singleton]%elem_of_app; eauto. }
  destruct (fs w !! join directory (js ".micromanager.jsonc")) as [[|c]|] eqn:E1.
  - destruct (fs w !! join directory (js ".micromanager.json")) as [[|c]|] eqn:E2;
      cbn [fst snd fs syscalls logged record_call client_app_log]; rewrite ?E2;
      try destruct (JSON_parse _);
      cbn [fst snd fs syscalls logged record_call client_app_log];
      (split; [done |]; split; [eauto |]; eexists; split; [done |]; split; [done | eauto]).
  - destruct (JSON_parse _);
      cbn [fst snd fs syscalls logged record_call client_app_log];
      (split; [done |]; split; [eauto |]; eexists; split; [done |]; split; [done | eauto]).
  - destruct (fs w !! join directory (js ".micromanager.json")) as [[|c]|] eqn:E2;
      cbn [fst snd fs syscalls logged record_call client_app_log]; rewrite ?E2;
      try destruct (JSON_parse _);
      cbn [fst snd fs syscalls logged record_call client_app_log];
      (split; [done |]; split; [eauto |]; eexists; split; [done |]; split; [done | eauto]).
Qed.

(** ** [stripJsonComments] (lines 18-22) *)

Section StripComments.

Lemma strip_line_comments_plain (s x : jsstring) :
  47%N ∉ s -> strip_line_comments false (s ++ x) = s ++ strip_line_comments false x.
Proof.
  induction s as [|c s IH]; intros Hs; [done |].
  apply not_elem_of_cons in Hs as [Hc Hs].
  cbn [app strip_line_comments]. rewrite IH by done.
  assert ((c =? 47)%N = false) as Hne by (apply N.eqb_neq; congruence).
  destruct (s ++ x) as [|c' r] eqn:E.
  - apply app_eq_nil in E as [-> ->]. done.
  - by rewrite Hne.
Qed.

Lemma strip_block_comments_plain (s x : jsstring) :
  47%N ∉ s -> strip_block_comments false (s ++ x) = s ++ strip_block_comments false x.
Proof.
  induction s as [|c s IH]; intros Hs; [done |].
  apply not_elem_of_cons in Hs as [Hc Hs].
  cbn [app strip_block_comments]. rewrite IH by done.
  assert ((c =? 47)%N = false) as Hne by (apply N.eqb_neq; congruence).
  destruct (s ++ x) as [|c' r] eqn:E.
  - apply app_eq_nil in E as [-> ->]. done.
  - by rewrite Hne.
Qed.

(** Inside a line comment everything up to the line terminator goes. *)
Lemma strip_line_comments_to_end_of_line (t : jsstring) (nl : N) (u : jsstring) :
  Forall (fun c => is_line_terminator c = false) t ->
  is_line_terminator nl = true ->
  strip_line_comments true (t ++ nl :: u) = nl :: strip_line_comments false u.
Proof.
  intros Ht Hnl. induction Ht as [|c t Hc Ht IH]; cbn [app strip_line_comments].
  - by rewrite Hnl.
  - by rewrite Hc.
Qed.

Lemma strip_line_comments_to_end_of_input (t : jsstring) :
  Forall (fun c => is_line_terminator c = false) t ->
  strip_line_comments true t = [].
Proof.
  intros Ht. induction Ht as [|c t Hc Ht IH]; cbn [strip_line_comments]; [done |].
  by rewrite Hc.
Qed.

(** Inside a block comment everything up to the first [*/] goes. *)
Lemma strip_block_comments_to_close (t u : jsstring) :
  47%N ∉ t ->
  strip_block_comments true (t ++ js "*/" ++ u) = strip_block_comments false u.
Proof.
  induction t as [|c t IH]; intros Ht; [done |].
  apply not_elem_of_cons in Ht as [Hc Ht].
  cbn [app strip_block_comments].
  destruct (t ++ js "*/" ++ u) as [|c' r] eqn:E.
  { destruct t; discriminate E. }
  assert ((c' =? 47)%N = false) as ->.
  { apply N.eqb_neq. intros ->. destruct t as [|c'' t].
    - discriminate E.
    - injection E as -> _. apply Ht. by left. }
  rewrite andb_false_r. by apply IH.
Qed.

Lemma closes_comment_app (t u : jsstring) :
  closes_comment (t ++ js "*/" ++ u) = true.
Proof.
  induction t as [|c t IH]; [done |].
  cbn [app closes_comment]. rewrite IH. apply orb_true_r.
Qed.

End StripComments.

(** A text in which neither [//] nor [/*] occurs is left as it is. *)
Theorem stripJsonComments_without_comments (str : jsstring) :
  (forall j, ~ occurs_at (js "//") str j) ->
  (forall j, ~ occurs_at (js "/*") str j) ->
  stripJsonComments str = str.
Proof.
  intros Hline Hblock. unfold stripJsonComments.
  assert (E : strip_line_comments false str = str).
  { clear Hblock. induction str as [|c s IH]; [done |].
    cbn [strip_line_comments]. destruct s as [|c' s']; [done |].
    destruct ((c =? 47)%N && (c' =? 47)%N) eqn:E.
    - apply andb_true_iff in E as [->%N.eqb_eq ->%N.eqb_eq].
      destruct (Hline 0). by exists [], s'.
    - f_equal. apply IH. intros j Hj. apply (Hline (S j)). by apply occurs_at_S. }
  rewrite E. clear E Hline. induction str as [|c s IH]; [done |].
  cbn [strip_block_comments]. destruct s as [|c' s']; [done |].
  destruct ((c =? 47)%N && (c' =? 42)%N) eqn:E.
  - apply andb_true_iff in E as [->%N.eqb_eq ->%N.eqb_eq].
    destruct (Hblock 0). by exists [], s'.
  - cbn [andb]. f_equal. apply IH. intros j Hj. apply (Hblock (S j)). by apply occurs_at_S.
Qed.

(** From a [//] to the end of its line everything is dropped, whatever
    stands before it on the line, an opening quote included: for a text
    [s] without [/], a rest of line [t] and a line terminator [nl],
    stripping [s // t nl u] gives [s nl] followed by [u] stripped. *)
Theorem line_comment_cut_to_end_of_line (s t u : jsstring) (nl : N) :
  47%N ∉ s ->
  Forall (fun c => is_line_terminator c = false) t ->
  is_line_terminator nl = true ->
  stripJsonComments (s ++ js "//" ++ t ++ nl :: u) = s ++ nl :: stripJsonComments u
  /\ stripJsonComments (s ++ js "//" ++ t) = s.
Proof.
  intros Hs Ht Hnl. unfold stripJsonComments.
  assert (Hnl47 : 47%N ∉ [nl]).
  { intros E%list_elem_of_singleton. subst nl. discriminate Hnl. }
  split.
  - rewrite strip_line_comments_plain by done.
    change (strip_line_comments false (js "//" ++ t ++ nl :: u))
      with (strip_line_comments true (t ++ nl :: u)).
    rewrite strip_line_comments_to_end_of_line by done.
    rewrite strip_block_comments_plain by done.
    change (nl :: strip_line_comments false u)
      with ([nl] ++ strip_line_comments false u).
    by rewrite strip_block_comments_plain.
  - rewrite strip_line_comments_plain by done.
    change (strip_line_comments false (js "//" ++ t)) with (strip_line_comments true t).
    rewrite strip_line_comments_to_end_of_input by done.
    rewrite <- (app_nil_r s) at 2. rewrite strip_block_comments_plain by done.
    by rewrite !app_nil_r.
Qed.

(** The value of [editor] holds a URL: what follows its [//] is lost,
    the closing quote of the literal with it. *)
Lemma line_comment_cut_witness :
  stripJsonComments (example_setting ++ js "//" ++ js "localhost" ++ 10%N :: js "}")
  = example_setting ++ 10%N :: stripJsonComments (js "}")
  /\ stripJsonComments (example_setting ++ js "//" ++ js "localhost") = example_setting.
Proof.
  apply (line_comment_cut_to_end_of_line example_setting (js "localhost") (js "}") 10%N).
  - intros Hin. vm_compute in Hin.
    repeat (apply elem_of_cons in Hin as [Hin|Hin]; [discriminate Hin|]).
    by apply elem_of_nil in Hin.
  - vm_compute. repeat constructor.
  - reflexivity.
Defined.

Lemma strip_line_comments_slash (u : jsstring) :
  head u <> Some 47%N ->
  strip_line_comments false (47%N :: u) = 47%N :: strip_line_comments false u.
Proof.
  intros Hu. cbn [strip_line_comments]. destruct u as [|c u]; [done |].
  assert ((c =? 47)%N = false) as ->; [|done].
  apply N.eqb_neq. intros ->. by destruct Hu.
Qed.

(** A block comment without [/] inside, after a text without [/] and not
    followed by one, is removed, the text before it kept and the rest
    stripped in turn. *)
Theorem block_comment_removed (s t u : jsstring) :
  47%N ∉ s -> 47%N ∉ t -> head u <> Some 47%N ->
  stripJsonComments (s ++ js "/*" ++ t ++ js "*/" ++ u) = s ++ stripJsonComments u.
Proof.
  intros Hs Ht Hu. unfold stripJsonComments.
  assert (Hstar : 47%N ∉ 42%N :: t ++ [42%N]).
  { intros [E | [Hin | Hin%list_elem_of_singleton]%elem_of_app]%elem_of_cons;
      [discriminate E | by destruct Ht | discriminate Hin]. }
  assert (Eline : strip_line_comments false (s ++ js "/*" ++ t ++ js "*/" ++ u)
                  = s ++ js "/*" ++ t ++ js "*/" ++ strip_line_comments false u).
  { rewrite strip_line_comments_plain by done. f_equal.
    change (js "/*" ++ t ++ js "*/" ++ u) with (47%N :: (42%N :: t ++ js "*/" ++ u)).
    rewrite strip_line_comments_slash by (simpl; congruence). cbn [app]. f_equal.
    replace (42%N :: t ++ js "*/" ++ u) with ((42%N :: t ++ [42%N]) ++ 47%N :: u)
      by (cbn [app]; by rewrite <- app_assoc).
    rewrite strip_line_comments_plain by done.
    rewrite strip_line_comments_slash by done.
    cbn [app]. by rewrite <- app_assoc. }
  rewrite Eline, strip_block_comments_plain by done. f_equal.
  change (js "/*" ++ t ++ js "*/" ++ strip_line_comments false u)
    with (47%N :: 42%N :: (t ++ js "*/" ++ strip_line_comments false u)).
  cbn [strip_block_comments]. rewrite closes_comment_app. cbn [N.eqb Pos.eqb andb].
  by apply strip_block_comments_to_close.
Qed.

(** A comment inside an object that is otherwise empty. *)
Lemma block_comment_removed_witness :
  stripJsonComments (js "{ " ++ js "/*" ++ js " the editor " ++ js "*/" ++ js " }")
  = js "{ " ++ stripJsonComments (js " }").
Proof.
  apply (block_comment_removed (js "{ ") (js " the editor ") (js " }")).
  - intros Hin. vm_compute in Hin.
    repeat (apply elem_of_cons in Hin as [Hin|Hin]; [discriminate Hin|]).
    by apply elem_of_nil in Hin.
  - intros Hin. vm_compute in Hin.
    repeat (apply elem_of_cons in Hin as [Hin|Hin]; [discriminate Hin|]).
    by apply elem_of_nil in Hin.
  - discriminate.
Defined.

(** A block comment that holds [//] on its closing line is not removed:
    the first pass drops the rest of that line, the closing [*/] with it,
    and the opening [/*] stays in the text handed to [JSON.parse]. *)
Theorem block_comment_cut_open (s t r : jsstring) :
  47%N ∉ s -> 47%N ∉ t ->
  Forall (fun c => is_line_terminator c = false) r ->
  stripJsonComments (s ++ js "/*" ++ t ++ js "//" ++ r) = s ++ js "/*" ++ t.
Proof.
  intros Hs Ht Hr. unfold stripJsonComments.
  assert (Hstar : 47%N ∉ 42%N :: t).
  { intros [E | Hin]%elem_of_cons; [discriminate E | by destruct Ht]. }
  assert (Eline : strip_line_comments false (s ++ js "/*" ++ t ++ js "//" ++ r)
                  = s ++ js "/*" ++ t).
  { rewrite strip_line_comments_plain by done. f_equal.
    change (js "/*" ++ t ++ js "//" ++ r) with (47%N :: (42%N :: t ++ js "//" ++ r)).
    rewrite strip_line_comments_slash by (simpl; congruence). cbn [app]. f_equal.
    change (42%N :: t ++ js "//" ++ r) with ((42%N :: t) ++ js "//" ++ r).
    rewrite strip_line_comments_plain by done.
    change (strip_line_comments false (js "//" ++ r)) with (strip_line_comments true r).
    rewrite strip_line_comments_to_end_of_input by done. by rewrite app_nil_r. }
  rewrite Eline. rewrite strip_block_comments_plain by done. f_equal.
  change (js "/*" ++ t) with (47%N :: 42%N :: t).
  cbn [strip_block_comments].
  assert (closes_comment t = false) as ->.
  { clear -Ht. induction t as [|c t IH]; [done |].
    apply not_elem_of_cons in Ht as [Hc Ht]. cbn [closes_comment]. rewrite IH by done.
    rewrite orb_false_r.
    destruct (JSString.starts_with (js "*/") (c :: t)) eqn:E; [|done].
    apply starts_with_spec in E as [after E]. injection E as _ ->.
    destruct Ht. by left. }
  rewrite andb_false_r.
  assert (E : strip_block_comments false (42%N :: t) = 42%N :: t).
  { transitivity (strip_block_comments false ((42%N :: t) ++ []));
      [by rewrite app_nil_r |].
    rewrite strip_block_comments_plain by done. apply app_nil_r. }
  cbn [andb]. f_equal. exact E.
Qed.

(** A comment that mentions a URL and is closed on the same line. *)
Lemma block_comment_cut_open_witness :
  stripJsonComments (js "{ " ++ js "/*" ++ js " see http:" ++ js "//" ++ js "x */ }")
  = js "{ " ++ js "/*" ++ js " see http:".
Proof.
  apply (block_comment_cut_open (js "{ ") (js " see http:") (js "x */ }")).
  - intros Hin. vm_compute in Hin.
    repeat (apply elem_of_cons in Hin as [Hin|Hin]; [discriminate Hin|]).
    by apply elem_of_nil in Hin.
  - intros Hin. vm_compute in Hin.
    repeat (apply elem_of_cons in Hin as [Hin|Hin]; [discriminate Hin|]).
    by apply elem_of_nil in Hin.
  - vm_compute. repeat constructor.
Defined.

Lemma strip_line_comments_sublist (n : nat) (s : jsstring) (b : bool) :
  length s <= n -> strip_line_comments b s `sublist_of` s.
Proof.
  revert s b; induction n as [|n IH]; intros [|c s] b Hlen; simpl in Hlen;
    try lia; try done.
  cbn [strip_line_comments]. destruct b.
  - destruct (is_line_terminator c);
      [apply sublist_skip | apply sublist_cons]; apply IH; lia.
  - destruct s as [|c' s']; [done |].
    destruct ((c =? 47)%N && (c' =? 47)%N).
    + do 2 apply sublist_cons. apply IH. simpl in Hlen. lia.
    + apply sublist_skip. apply IH. lia.
Qed.

Lemma strip_block_comments_sublist (n : nat) (s : jsstring) (b : bool) :
  length s <= n -> strip_block_comments b s `sublist_of` s.
Proof.
  revert s b; induction n as [|n IH]; intros [|c s] b Hlen; simpl in Hlen;
    try lia; try done.
  cbn [strip_block_comments]. destruct s as [|c' s'].
  - destruct b; [apply sublist_nil_l | done].
  - destruct b.
    + destruct ((c =? 42)%N && (c' =? 47)%N).
      * do 2 apply sublist_cons. apply IH. simpl in Hlen. lia.
      * apply sublist_cons. apply IH. lia.
    + destruct ((c =? 47)%N && (c' =? 42)%N && closes_comment s').
      * do 2 apply sublist_cons. apply IH. simpl in Hlen. lia.
      * apply sublist_skip. apply IH. lia.
Qed.

(** Stripping only deletes: what is left is the text's own code units,
    in their order; in particular it is no longer than the text. *)
Theorem stripJsonComments_only_deletes (str : jsstring) :
  stripJsonComments str `sublist_of` str
  /\ length (stripJsonComments str) <= length str.
Proof.
  assert (H : stripJsonComments str `sublist_of` str).
  { unfold stripJsonComments.
    transitivity (strip_line_comments false str).
    - by apply (strip_block_comments_sublist (length (strip_line_comments false str))).
    - by apply (strip_line_comments_sublist (length str)). }
  split; [exact H | by apply sublist_length].
Qed.

(** ** The counters *)

Section Counters.
Context `{Host}.

Lemma update_text_counters (last : nat) (newText : jsstring)
    (s : Machine * list Message.t) :
  exists de, de <= 1
    /\ advanced (analytics (plugin (fst s)))
         (analytics (plugin (fst (snd (update_text last newText s))))) 0 0 de.
Proof.
  unfold update_text, modify. cbn [fst snd].
  destruct (snd s !! last) as [lastMsg|]; [|exists 0; repeat split; cbn; lia].
  destruct (first_text_from _ _) as [i|]; [|exists 0; repeat split; cbn; lia].
  destruct (Message.parts lastMsg !! i); [|exists 0; repeat split; cbn; lia].
  cbn [fst snd]. rewrite plugin_log. exists 1. repeat split; cbn; lia.
Qed.

Lemma guarded_round_trip_counters (messages : list RoleParts) (last : nat) (m : Machine)
    (ms : list Message.t) :
  exists ds de, de <= ds /\ ds <= 1
    /\ advanced (analytics (plugin m))
         (analytics (plugin (fst (snd (try_catch (editor_round_trip messages last)
                                         on_edit_failure (m, ms)))))) 0 ds de.
Proof.
  unfold try_catch. rewrite editor_round_trip_eq. cbv zeta.
  destruct (mkdtemp _ _) as [[[tempDir|e]|] w1];
    [|rewrite on_edit_failure_returns; cbn [fst snd]; rewrite plugin_log;
      exists 0, 0; repeat split; cbn; lia
     |exists 0, 0; repeat split; cbn; lia].
  destruct (writeFile _ _ _) as [[[[]|e]|] w2];
    [|rewrite on_edit_failure_returns; cbn [fst snd]; rewrite plugin_log;
      exists 0, 0; repeat split; cbn; lia
     |exists 0, 0; repeat split; cbn; lia].
  destruct (execSync _ _) as [[[[]|e]|] w4];
    [|rewrite on_edit_failure_returns; cbn [fst snd]; rewrite !plugin_log;
      exists 0, 0; repeat split; cbn; lia
     |cbn [fst snd plugin]; rewrite plugin_log; exists 0, 0; repeat split; cbn; lia].
  destruct (readFile _ _) as [[[c|e]|] w6];
    [|rewrite on_edit_failure_returns; cbn [fst snd]; rewrite plugin_log;
      cbn [plugin on_analytics]; rewrite plugin_log; exists 1, 0;
      split; [lia |]; split; [lia |]; repeat split; cbn; lia
     |cbn [fst snd plugin on_analytics]; rewrite plugin_log; exists 1, 0;
      split; [lia |]; split; [lia |]; repeat split; cbn; lia].
  match goal with |- context [match edited_text c with
                              | Some t => snd (update_text _ t (?M, _))
                              | None => _ end] =>
    assert (Hs : exists de, de <= 1
                   /\ advanced (analytics (plugin m))
                        (analytics (plugin (fst (match edited_text c with
                                 | Some t => snd (update_text last t (M, ms))
                                 | None => (M, ms) end)))) 0 1 de);
    [|set (s7 := match edited_text c with
                 | Some t => snd (update_text last t (M, ms))
                 | None => (M, ms) end) in *]
  end.
  { destruct (edited_text c) as [t|].
    - match goal with |- context [update_text last t ?S] =>
        destruct (update_text_counters last t S) as (de & Hde & E1 & E2 & E3)
      end.
      exists de. split; [done |]. unfold advanced. rewrite E1, E2, E3.
      cbn [fst plugin on_analytics analytics messagesIntercepted editorSessions
           messagesEdited].
      rewrite plugin_log. repeat split; cbn; lia.
    - exists 0. split; [lia |].
      cbn [fst plugin on_analytics analytics]. rewrite plugin_log. repeat split; cbn; lia. }
  destruct Hs as (de & Hde & Hadv).
  destruct (unlink _ _) as [[[[]|e]|] w8]; cbn [fst snd].
  - exists 1, de. split; [lia |]. split; [lia | exact Hadv].
  - rewrite on_edit_failure_returns. cbn [fst snd]. rewrite plugin_log.
    exists 1, de. split; [lia |]. split; [lia | exact Hadv].
  - exists 1, de. split; [lia |]. split; [lia | exact Hadv].
Qed.

Lemma chat_messages_transform_counters (m : Machine) (ms : list Message.t) :
  exists ds de, de <= ds /\ ds <= 1
    /\ advanced (analytics (plugin m))
         (analytics (plugin (fst (snd (chat_messages_transform (m, ms)))))) 1 ds de.
Proof.
  rewrite chat_messages_transform_cases. cbv zeta.
  assert (Hcap : advanced (analytics (plugin m)) (analytics (plugin (after_capture m ms)))
                   1 0 0)
    by (rewrite plugin_after_capture; repeat split; cbn; lia).
  destruct (negb _ || negb _); [exists 0, 0; split; [lia |]; split; [lia | exact Hcap] |].
  destruct (ms !! _); [|exists 0, 0; split; [lia |]; split; [lia | exact Hcap]].
  destruct (negb _); [exists 0, 0; split; [lia |]; split; [lia | exact Hcap] |].
  destruct (guarded_round_trip_counters (role_parts ms) (length ms - 1)
              (after_capture m ms) ms) as (ds & de & Hde & Hds & E1 & E2 & E3).
  destruct Hcap as (C1 & C2 & C3).
  exists ds, de. split; [done |]. split; [done |].
  unfold advanced. rewrite E1, E2, E3, C1, C2, C3. repeat split; lia.
Qed.

Lemma trigger_counters (c : HookCall) (m : Machine) :
  counters_ordered (analytics (plugin m)) ->
  counters_ordered (analytics (plugin (trigger hooks c m))).
Proof.
  intros [He Hs].
  destruct c as [input output | ms | input output | input | input].
  - change (trigger hooks (CallSystemTransform input output) m)
      with (snd (chat_system_transform input output m)).
    unfold chat_system_transform, modify. cbn [snd]. by rewrite plugin_log.
  - change (trigger hooks (CallMessagesTransform ms) m)
      with (fst (snd (chat_messages_transform (m, ms)))).
    destruct (chat_messages_transform_counters m ms)
      as (ds & de & Hde & Hds & E1 & E2 & E3).
    unfold counters_ordered. rewrite E1, E2, E3. lia.
  - change (trigger hooks (CallChatMessage input output) m)
      with (snd (chat_message input output m)).
    unfold chat_message, modify. cbn [snd]. by rewrite plugin_log.
  - change (trigger hooks (CallEvent input) m) with (snd (event input m)).
    unfold event. destruct (streqb _ _); [|done].
    unfold modify. cbn [snd plugin on_analytics analytics]. by split.
  - change (trigger hooks (CallToolExecuteBefore input) m)
      with (snd (tool_execute_before input m)).
    unfold tool_execute_before, modify. cbn [snd]. by rewrite plugin_log.
Qed.

End Counters.

(** Whatever hooks the host triggers on a freshly made plugin, in
    whatever order and with whatever arguments, and however the editor
    and the file system behave, the counters stay ordered: no more
    messages edited than editor sessions, no more editor sessions than
    message lists intercepted. *)
Theorem counters_stay_ordered `{Host} (cfg : Config) (w : World) (cs : list HookCall) :
  counters_ordered
    (analytics (plugin (run_calls hooks cs {| plugin := initial_plugin cfg; world := w |}))).
Proof.
  assert (Hgen : forall m, counters_ordered (analytics (plugin m)) ->
                   counters_ordered (analytics (plugin (run_calls hooks cs m)))).
  { unfold run_calls. induction cs as [|c cs IH]; intros m Hm; [done |].
    cbn [fold_left]. apply IH. by apply trigger_counters. }
  apply Hgen. by split.
Qed.

(** No hook changes the configuration: after any sequence of hook calls
    it is the one the factory loaded. *)
Theorem hooks_keep_the_configuration `{Host} (cs : list HookCall) (m : Machine) :
  config (plugin (run_calls hooks cs m)) = config (plugin m).
Proof. by destruct (run_calls_settings cs m) as [-> _]. Qed.

(** ** The hooks that only log *)

Lemma log_debug_silent_iff (message : jsstring) (data : option JSON) (m : Machine) :
  log LDebug message data m = m
  <-> logLevel (config (plugin m)) ∈ [js "info"; js "warn"; js "error"].
Proof.
  unfold log. change (JSString.array_indexOf levels (Level_string LDebug)) with 0%Z.
  unfold JSString.array_indexOf, levels. cbn [JSString.array_index_from].
  destruct (streqb (js "debug") _) eqn:Ed.
  { apply streqb_eq in Ed as <-. cbn [Z.geb Z.compare]. split.
    - intros E. apply (f_equal (fun m => length (logged (world m)))) in E.
      cbn in E. rewrite length_app in E. simpl in E. lia.
    - intros Hin. repeat (apply elem_of_cons in Hin as [Hin|Hin]; [discriminate Hin |]).
      by apply elem_of_nil in Hin. }
  destruct (streqb (js "info") _) eqn:Ei.
  { apply streqb_eq in Ei as <-. split; [intros _; apply elem_of_cons; by left | done]. }
  destruct (streqb (js "warn") _) eqn:Ew.
  { apply streqb_eq in Ew as <-. split; [intros _ | done].
    apply elem_of_cons; right. apply elem_of_cons; by left. }
  destruct (streqb (js "error") _) eqn:Ee.
  { apply streqb_eq in Ee as <-. split; [intros _ | done].
    do 2 (apply elem_of_cons; right). apply elem_of_cons; by left. }
  cbn [Z.geb Z.compare Z.add]. split.
  - intros E. apply (f_equal (fun m => length (logged (world m)))) in E.
    cbn in E. rewrite length_app in E. simpl in E. lia.
  - apply streqb_neq in Ei, Ew, Ee. intros Hin.
    repeat (apply elem_of_cons in Hin as [Hin|Hin]; [congruence |]).
    by apply elem_of_nil in Hin.
Qed.

(** The [chat.message] and [tool.execute.before] hooks change nothing at
    all, neither the plugin's variables nor the log, exactly when the
    configured level is [info], [warn] or [error]; at [debug], and at a
    level that is none of the four, each call emits a record. *)
Theorem debug_hooks_are_silent `{Host} (m : Machine) :
  (forall input output,
     trigger hooks (CallChatMessage input output) m = m
     <-> logLevel (config (plugin m)) ∈ [js "info"; js "warn"; js "error"])
  /\ (forall input,
        trigger hooks (CallToolExecuteBefore input) m = m
        <-> logLevel (config (plugin m)) ∈ [js "info"; js "warn"; js "error"]).
Proof.
  split.
  - intros input output.
    change (trigger hooks (CallChatMessage input output) m)
      with (snd (chat_message input output m)).
    unfold chat_message, modify. cbn [snd]. apply log_debug_silent_iff.
  - intros input.
    change (trigger hooks (CallToolExecuteBefore input) m)
      with (snd (tool_execute_before input m)).
    unfold tool_execute_before, modify. cbn [snd]. apply log_debug_silent_iff.
Qed.

(** At the level [info] of the example configuration a [chat.message]
    call leaves the machine as it was. *)
Lemma debug_hooks_are_silent_witness :
  let H := example_host None None in
  let input := {| sessionID := js "s1"; agent := None |} in
  let output := {| chat_parts := [] |} in
  trigger hooks (CallChatMessage input output) example_machine = example_machine.
Proof.
  intros H input output.
  apply (proj1 (debug_hooks_are_silent (H := H) example_machine)).
  apply elem_of_cons. by left.
Defined.

(** ** Counting the intercepted message lists *)

Section Counting.
Context `{Host}.

Lemma trigger_intercepted (c : HookCall) (m : Machine) :
  is_session_created c = false ->
  messagesIntercepted (analytics (plugin (trigger hooks c m)))
  = (if is_messages_call c then 1 else 0) + messagesIntercepted (analytics (plugin m)).
Proof.
  intros Hc.
  destruct c as [input output | ms | input output | input | input].
  - change (trigger hooks (CallSystemTransform input output) m)
      with (snd (chat_system_transform input output m)).
    unfold chat_system_transform, modify. cbn [snd]. by rewrite plugin_log.
  - change (trigger hooks (CallMessagesTransform ms) m)
      with (fst (snd (chat_messages_transform (m, ms)))).
    by destruct (chat_messages_transform_counters m ms) as (ds & de & _ & _ & -> & _).
  - change (trigger hooks (CallChatMessage input output) m)
      with (snd (chat_message input output m)).
    unfold chat_message, modify. cbn [snd]. by rewrite plugin_log.
  - change (trigger hooks (CallEvent input) m) with (snd (event input m)).
    unfold event. cbn [is_session_created] in Hc. by rewrite Hc.
  - change (trigger hooks (CallToolExecuteBefore input) m)
      with (snd (tool_execute_before input m)).
    unfold tool_execute_before, modify. cbn [snd]. by rewrite plugin_log.
Qed.

Lemma run_calls_intercepted (cs : list HookCall) (m : Machine) :
  Forall (fun c => is_session_created c = false) cs ->
  messagesIntercepted (analytics (plugin (run_calls hooks cs m)))
  = length (filter (fun c => is_messages_call c = true) cs)
    + messagesIntercepted (analytics (plugin m)).
Proof.
  unfold run_calls. revert m; induction cs as [|c cs IH]; intros m Hcs; [done |].
  apply Forall_cons in Hcs as [Hc Hcs].
  cbn [fold_left]. rewrite IH by done. rewrite trigger_intercepted by done.
  rewrite filter_cons. destruct c; cbn [is_messages_call];
    (destruct (decide _) as [E|E]; [try discriminate E | try (by destruct E)]);
    simpl; lia.
Qed.

End Counting.

(** [messagesIntercepted] counts the calls of the messages hook since the
    last [session.created] event, whether or not an editor was opened for
    them and whatever happened before that event. *)
Theorem intercepted_counts_since_session_created `{Host} (before after : list HookCall)
    (input : EventInput) (m : Machine) :
  event_type input = js "session.created" ->
  Forall (fun c => is_session_created c = false) after ->
  messagesIntercepted
    (analytics (plugin (run_calls hooks (before ++ CallEvent input :: after) m)))
  = length (filter (fun c => is_messages_call c = true) after).
Proof.
  intros Htype Hafter. unfold run_calls. rewrite fold_left_app. cbn [fold_left].
  fold (run_calls hooks before m).
  set (m1 := run_calls hooks before m).
  fold (run_calls hooks after (trigger hooks (CallEvent input) m1)).
  rewrite run_calls_intercepted by done.
  change (trigger hooks (CallEvent input) m1) with (snd (event input m1)).
  unfold event. rewrite Htype, streqb_refl. unfold modify.
  cbn [snd plugin on_analytics analytics messagesIntercepted]. lia.
Qed.

(** Two message lists, one of them with nothing to edit, a new session,
    then one more message list: the counter reads one. *)
Lemma intercepted_counts_witness :
  let H := example_host None None in
  messagesIntercepted
    (analytics (plugin (run_calls hooks
       ([CallMessagesTransform example_messages; CallMessagesTransform []]
        ++ CallEvent {| event_type := js "session.created" |}
        :: [CallToolExecuteBefore {| tool_name := js "bash"; tool_sessionID := js "s1";
                                      callID := js "c1" |};
            CallMessagesTransform example_one_message])
       example_machine)))
  = 1.
Proof.
  intros H.
  apply (intercepted_counts_since_session_created (H := H)
           [CallMessagesTransform example_messages; CallMessagesTransform []]
           [CallToolExecuteBefore {| tool_name := js "bash"; tool_sessionID := js "s1";
                                     callID := js "c1" |};
            CallMessagesTransform example_one_message]
           {| event_type := js "session.created" |} example_machine).
  - reflexivity.
  - repeat constructor.
Defined.

(** ** Saving the document as it was written *)

Section Occurrences.
Import JSString.

Lemma occurs_at_lookup (pat s : jsstring) (k i : nat) (c : N) :
  occurs_at pat s k -> pat !! i = Some c -> s !! (k + i) = Some c.
Proof.
  intros (before & after & -> & <-) Hi.
  rewrite lookup_app_r by lia.
  replace (length before + i - length before) with i by lia.
  by apply lookup_app_l_Some.
Qed.

Lemma occurs_at_take (pat s u : jsstring) (k : nat) :
  occurs_at pat (s ++ u) k -> k + length pat <= length s -> occurs_at pat s k.
Proof.
  intros (before & after & E & <-) Hlen.
  exists before, (take (length s - length before - length pat) after). split; [|done].
  apply (f_equal (take (length s))) in E. rewrite take_app_length in E.
  rewrite take_app_ge in E by lia. rewrite take_app_ge in E by lia.
  exact E.
Qed.

(** A pattern without the character [c] does not reach across a [c]. *)
Lemma occurs_at_skip (pat s : jsstring) (c : N) (t : jsstring) (k : nat) :
  c ∉ pat -> occurs_at pat (s ++ c :: t) k ->
  occurs_at pat s k \/ exists k', k = S (length s + k') /\ occurs_at pat t k'.
Proof.
  intros Hc Hk.
  destruct (decide (k + length pat <= length s)) as [Hle|Hgt].
  { left. by eapply occurs_at_take. }
  destruct (decide (length s < k)) as [Hlt|Hge].
  { right. exists (k - S (length s)). split; [lia |].
    assert (E : t = drop (S (length s)) (s ++ c :: t)).
    { rewrite drop_app_ge by lia.
      by replace (S (length s) - length s) with 1 by lia. }
    rewrite E. apply occurs_at_drop; [rewrite length_app; simpl; lia |].
    by replace (S (length s) + (k - S (length s))) with k by lia. }
  exfalso. apply Hc.
  assert (Hi : length s - k < length pat) by lia.
  apply lookup_lt_is_Some_2 in Hi as [c' Hc'].
  pose proof (occurs_at_lookup _ _ _ _ _ Hk Hc') as E.
  replace (k + (length s - k)) with (length s) in E by lia.
  rewrite lookup_app_r in E by lia. rewrite Nat.sub_diag in E. injection E as <-.
  by eapply list_elem_of_lookup_2.
Qed.

Lemma no_occurrence_of_lastIndexOf (s pat : jsstring) :
  lastIndexOf s pat = (-1)%Z -> forall k, ~ occurs_at pat s k.
Proof.
  intros E. destruct (lastIndexOf_spec s pat) as [[_ Hnone] | (j & E' & _)]; [done |].
  rewrite E' in E. lia.
Qed.

Lemma replace_leading_newlines_app (s t : jsstring) :
  replace_leading_newlines (s ++ t)
  = match replace_leading_newlines s with
    | [] => replace_leading_newlines t
    | c :: b => (c :: b) ++ t
    end.
Proof.
  induction s as [|c s IH]; [done |].
  cbn [app replace_leading_newlines]. by destruct (c =? 10)%N.
Qed.

Lemma trim_replace_leading_newlines (s : jsstring) :
  trim (replace_leading_newlines s) = trim s.
Proof.
  unfold trim. f_equal. induction s as [|c s IH]; [done |].
  cbn [replace_leading_newlines]. destruct (c =? 10)%N eqn:E; [|done].
  apply N.eqb_eq in E as ->. by rewrite IH.
Qed.

End Occurrences.

(** A text with single slashes and stars, and no comment: it is left as
    it is. *)
Lemma stripJsonComments_without_comments_witness :
  stripJsonComments (js "{ a/b: 1 * 2 / 3 }") = js "{ a/b: 1 * 2 / 3 }".
Proof.
  apply stripJsonComments_without_comments.
  - apply no_occurrence_of_lastIndexOf. vm_compute. reflexivity.
  - apply no_occurrence_of_lastIndexOf. vm_compute. reflexivity.
Defined.

Section Unchanged.
Import JSString.

Lemma marker_line_feed_free : Forall (fun c => c <> 10%N) editableMarker.
Proof. repeat constructor; discriminate. Qed.

Lemma marker_opens_once : Forall (fun c => c <> 40%N) (tail editableMarker).
Proof. repeat constructor; discriminate. Qed.

(** The marker that closes the header is the last one when none follows. *)
Lemma marker_last (A R : jsstring) :
  (forall k, ~ occurs_at editableMarker R k) ->
  last_occurrence editableMarker (A ++ editableMarker ++ R) (length A).
Proof.
  intros HR. split; [by exists A, R |].
  intros j Hj. destruct (decide (j <= length A)) as [|Hgt]; [done |]. exfalso.
  destruct (decide (j < length A + 20)) as [Hin|Hout].
  - assert (E : (A ++ editableMarker ++ R) !! (j + 0) = Some 40%N)
      by (by apply (occurs_at_lookup editableMarker)).
    rewrite Nat.add_0_r, lookup_app_r in E by lia.
    rewrite lookup_app_l in E by (change (length editableMarker) with 20; lia).
    destruct (j - length A) as [|i] eqn:Ei; [lia |].
    change (tail editableMarker !! i = Some 40%N) in E.
    by destruct (Forall_lookup_1 _ _ _ _ marker_opens_once E).
  - apply (HR (j - (length A + 20))).
    assert (E : R = drop (length A + 20) (A ++ editableMarker ++ R)).
    { rewrite app_assoc. symmetry. apply drop_app_length'. by rewrite length_app. }
    rewrite E. apply occurs_at_drop.
    + rewrite !length_app. change (length editableMarker) with 20. lia.
    + by replace (length A + 20 + (j - (length A + 20))) with j by lia.
Qed.

(** The first line feed at or after the marker is the one that ends the
    header line. *)
Lemma line_feed_after_marker (A R : jsstring) :
  first_occurrence_from LF (A ++ editableMarker ++ LF ++ R) (length A) (length A + 20).
Proof.
  split; [|split; [lia |]].
  - exists (A ++ editableMarker), R. split; [by rewrite <- app_assoc | by rewrite length_app].
  - intros j Hle Hj. destruct (decide (length A + 20 <= j)) as [|Hlt]; [done |]. exfalso.
    assert (E : (A ++ editableMarker ++ LF ++ R) !! (j + 0) = Some 10%N)
      by (by apply (occurs_at_lookup LF)).
    rewrite Nat.add_0_r, lookup_app_r in E by lia.
    rewrite lookup_app_l in E by (change (length editableMarker) with 20; lia).
    by destruct (Forall_lookup_1 _ _ _ _ marker_line_feed_free E).
Qed.

(** The separator below the text is the last one. *)
Lemma separator_last (B : jsstring) :
  last_occurrence (LF ++ js "---") (B ++ LF ++ js "---" ++ LF) (length B).
Proof.
  split; [by exists B, LF |].
  intros j Hj. pose proof (occurs_at_bound _ _ _ Hj) as Hb.
  change (length (LF ++ js "---")) with 4 in Hb.
  rewrite length_app in Hb. change (length (LF ++ js "---" ++ LF)) with 5 in Hb.
  destruct (decide (j <= length B)) as [|Hgt]; [done |]. exfalso.
  assert (j = S (length B)) as -> by lia.
  assert (E : (B ++ LF ++ js "---" ++ LF) !! (S (length B) + 0) = Some 10%N)
    by (by apply (occurs_at_lookup (LF ++ js "---"))).
  rewrite Nat.add_0_r, lookup_app_r in E by lia.
  replace (S (length B) - length B) with 1 in E by lia. discriminate E.
Qed.

Lemma marker_without_line_feed : 10%N ∉ editableMarker.
Proof.
  intros Hin. by apply (proj1 (Forall_forall _ _) marker_line_feed_free 10%N Hin).
Qed.

(** What the code takes from a document that is read back as it was
    written, [J] being the lines of the last message joined. *)
Lemma edited_text_unchanged (A J : jsstring) :
  (forall k, ~ occurs_at editableMarker J k) ->
  edited_text (A ++ editableMarker ++ LF ++ LF ++ J ++ LF ++ js "---" ++ LF)
  = Some (match replace_leading_newlines J with
          | [] => js "---"
          | _ :: _ => trim J
          end).
Proof.
  intros HJ.
  set (R := LF ++ J ++ LF ++ js "---" ++ LF).
  set (doc := A ++ editableMarker ++ LF ++ R).
  assert (Hlast : last_occurrence editableMarker doc (length A)).
  { apply marker_last. intros k Hk. subst R.
    apply (occurs_at_skip editableMarker [] 10%N) in Hk as [Hk | (k1 & -> & Hk)];
      [apply occurs_at_nil in Hk as [? _]; discriminate | | apply marker_without_line_feed].
    apply (occurs_at_skip editableMarker [] 10%N) in Hk as [Hk | (k2 & -> & Hk)];
      [apply occurs_at_nil in Hk as [? _]; discriminate | | apply marker_without_line_feed].
    apply (occurs_at_skip editableMarker J 10%N) in Hk as [Hk | (k3 & -> & Hk)];
      [by apply HJ in Hk | | apply marker_without_line_feed].
    apply occurs_at_bound in Hk. change (length editableMarker) with 20 in Hk.
    change (length (js "---" ++ LF)) with 4 in Hk. lia. }
  assert (Hfeed : first_occurrence_from LF doc (length A) (length A + 20))
    by apply line_feed_after_marker.
  unfold edited_text. cbv zeta.
  destruct (lastIndexOf_spec doc editableMarker) as [[_ Hnone] | (k' & -> & Hk')].
  { destruct Hlast as [Hocc _]. by destruct (Hnone _ Hocc). }
  assert (k' = length A) as -> by (by eapply last_occurrence_unique).
  rewrite of_nat_not_minus_one. cbn [negb].
  assert (Hbound : length A <= length doc) by (subst doc; rewrite length_app; lia).
  destruct (indexOf_spec doc LF (length A) Hbound) as [[_ Hnone] | (n' & -> & Hn')].
  { destruct Hfeed as (Hocc & Hle & _). by destruct (Hnone _ Hle Hocc). }
  assert (n' = length A + 20) as -> by (by eapply first_occurrence_from_unique).
  rewrite of_nat_not_minus_one. cbn [negb].
  replace (Z.of_nat (length A + 20) + 1)%Z with (Z.of_nat (S (length A + 20))) by lia.
  rewrite substring_from.
  assert (drop (S (length A + 20)) doc = R) as ->.
  { subst doc. rewrite !app_assoc. apply drop_app_length'.
    rewrite !length_app. change (length editableMarker) with 20. simpl. lia. }
  subst R. change (LF ++ J ++ LF ++ js "---" ++ LF) with (10%N :: J ++ LF ++ js "---" ++ LF).
  cbn [replace_leading_newlines N.eqb Pos.eqb]. rewrite replace_leading_newlines_app.
  pose proof (trim_replace_leading_newlines J) as Htrim.
  destruct (replace_leading_newlines J) as [|c B]; [vm_compute; reflexivity |].
  set (B' := c :: B) in *.
  destruct (lastIndexOf_spec (B' ++ LF ++ js "---" ++ LF) (LF ++ js "---"))
    as [[_ Hnone] | (j & -> & Hj)].
  { destruct (separator_last B') as [Hocc _]. by destruct (Hnone _ Hocc). }
  assert (j = length B') as -> by (eapply last_occurrence_unique; [done | apply separator_last]).
  rewrite of_nat_not_minus_one. cbn [negb]. rewrite substring_to.
  rewrite take_app_length. by rewrite Htrim.
Qed.

End Unchanged.

Section Joined.
Import JSString.

Lemma join_cons (sep l : jsstring) (rest : list jsstring) :
  rest <> [] -> join sep (l :: rest) = l ++ sep ++ join sep rest.
Proof. by destruct rest. Qed.

Lemma join_app (sep : jsstring) (xs ys : list jsstring) :
  xs <> [] -> ys <> [] -> join sep (xs ++ ys) = join sep xs ++ sep ++ join sep ys.
Proof.
  intros Hxs Hys. induction xs as [|x xs IH]; [done |].
  destruct xs as [|x' xs].
  - cbn [app]. by rewrite join_cons.
  - change ((x :: x' :: xs) ++ ys) with (x :: ((x' :: xs) ++ ys)).
    rewrite !join_cons by done. rewrite IH by done. by rewrite <- !app_assoc.
Qed.

(** What is joined before a line does not depend on what follows it. *)
Lemma join_prefix (sep : jsstring) (xs : list jsstring) :
  exists P, forall l rest, join sep (xs ++ l :: rest) = P ++ join sep (l :: rest).
Proof.
  induction xs as [|x xs [P IH]]; [by exists [] |].
  exists (x ++ sep ++ P). intros l rest.
  change ((x :: xs) ++ l :: rest) with (x :: (xs ++ l :: rest)).
  rewrite join_cons by (by destruct xs). rewrite IH. by rewrite <- !app_assoc.
Qed.

Lemma trimStart_app (s t : jsstring) :
  trimStart (s ++ t)
  = match trimStart s with
    | [] => trimStart t
    | c :: b => (c :: b) ++ t
    end.
Proof.
  induction s as [|c s IH]; [done |].
  cbn [app trimStart]. by destruct (is_whitespace c).
Qed.

(** White space at the end does not change what [trim] gives. *)
Lemma trim_snoc (s : jsstring) (c : N) :
  is_whitespace c = true -> trim (s ++ [c]) = trim s.
Proof.
  intros Hc. unfold trim, trimEnd. rewrite trimStart_app.
  destruct (trimStart s) as [|c' b].
  - cbn [trimStart]. by rewrite Hc.
  - rewrite rev_app_distr. cbn [rev app trimStart]. by rewrite Hc.
Qed.

Lemma replace_leading_newlines_nil (s : jsstring) :
  replace_leading_newlines s = [] <-> Forall (fun c => c = 10%N) s.
Proof.
  induction s as [|c s IH]; [done |].
  cbn [replace_leading_newlines]. destruct (c =? 10)%N eqn:E.
  - apply N.eqb_eq in E as ->. rewrite IH. split.
    + intros Hs. by constructor.
    + intros Hs. by apply Forall_cons in Hs as [_ Hs].
  - apply N.eqb_neq in E. split; [done |].
    intros Hs. apply Forall_cons in Hs as [Hc _]. done.
Qed.

End Joined.

Section UnchangedSave.
Context `{Host}.

Lemma format_part_lines (part : Part.t) : format_part [] part <> [].
Proof.
  intros E. unfold format_part in E. cbv zeta in E. unfold push at 1 in E.
  apply app_eq_nil in E as [_ E]. discriminate E.
Qed.

(** The document written for a list whose last message is the user's:
    below the header that ends in the marker come an empty line, the
    lines of that message, the separator and a last empty line. *)
Lemma written_document_tail (m : Machine) (ms : list Message.t) (lastMsg : Message.t) :
  ms !! (length ms - 1) = Some lastMsg ->
  Info.role (Message.info lastMsg) = js "user" ->
  Message.parts lastMsg <> [] ->
  exists A,
    written_document m ms
    = A ++ editableMarker ++ LF ++ LF
      ++ JSString.join LF (flat_map (format_part []) (Message.parts lastMsg))
      ++ LF ++ js "---" ++ LF.
Proof.
  intros Hlast Hrole Hparts.
  assert (Hms : ms = take (length ms - 1) ms ++ [lastMsg]).
  { rewrite <- (take_drop_middle ms (length ms - 1) lastMsg Hlast) at 1.
    do 2 f_equal. apply drop_ge. lia. }
  set (init := take (length ms - 1) ms) in Hms.
  assert (Hlen : length ms = S (length init)).
  { rewrite Hms at 1. rewrite length_app. simpl. lia. }
  unfold written_document, formatFullContext. rewrite formatFullContext_lines_shape.
  set (system := if showSystemMessages _ then _ else _).
  set (r := {| role := Info.role (Message.info lastMsg);
               parts := Message.parts lastMsg |}).
  assert (Hrp : role_parts ms = role_parts init ++ [r]).
  { rewrite Hms at 1. unfold role_parts. by rewrite map_app. }
  set (n := length (role_parts ms)).
  assert (Hn : n = length ms) by (subst n; unfold role_parts; apply length_map).
  rewrite Hrp, imap_app, concat_app. cbn [imap concat].
  rewrite app_nil_r.
  assert (Hheader : header_line n (length (role_parts init) + 0) r
                    = (js "## [" ++ Number_toString (length ms) ++ js "/"
                       ++ Number_toString (length ms) ++ js "] "
                       ++ toUpperCase (js "user") ++ js " ") ++ editableMarker).
  { unfold header_line, role_parts. rewrite Hn, !length_map, Nat.add_0_r, Hlen.
    cbn [role r]. rewrite Hrole.
    rewrite bool_decide_eq_true_2 by done.
    replace (length init + 1) with (S (length init)) by lia.
    by rewrite <- !app_assoc. }
  rewrite Hheader. rewrite !app_assoc.
  destruct (join_prefix LF
              ((push_title [] (clock (world m)) (capturedModel (plugin m)) n ++
                (if (0 <? length system)%nat then system_section system else [])) ++
               concat (imap (fun i msg => header_line n i msg :: message_body msg)
                         (role_parts init))))
    as [P HP].
  rewrite HP. unfold message_body. cbn [parts r].
  set (body := flat_map (format_part []) (Message.parts lastMsg)).
  assert (Hbody : body <> []).
  { subst body. destruct (Message.parts lastMsg) as [|p ps]; [done |].
    cbn [flat_map]. intros E. apply app_eq_nil in E as [E _].
    by apply format_part_lines in E. }
  rewrite join_cons by done. rewrite join_cons by (by destruct body).
  rewrite join_app by done.
  exists (P ++ js "## [" ++ Number_toString (length ms) ++ js "/"
          ++ Number_toString (length ms) ++ js "] "
          ++ toUpperCase (js "user") ++ js " ").
  rewrite <- !app_assoc. done.
Qed.

(** The hook on a document that is read back as it was written. *)
Lemma unchanged_save_splice (m : Machine) (ms : list Message.t)
    (d f doc cmd : jsstring) (lastMsg : Message.t) :
  let r := chat_messages_transform (m, ms) in
  let J := JSString.join LF (flat_map (format_part []) (Message.parts lastMsg)) in
  syscalls (world (fst (snd r)))
  = syscalls (world m)
    ++ [SysMkdtemp d; SysWriteFile f doc; SysExec cmd; SysReadFile f doc; SysUnlink f] ->
  ms !! (length ms - 1) = Some lastMsg ->
  Info.role (Message.info lastMsg) = js "user" ->
  (forall k, ~ occurs_at editableMarker J k) ->
  snd (snd r)
  = spliced (match JSString.replace_leading_newlines J with
             | [] => js "---"
             | _ :: _ => JSString.trim J
             end) ms.
Proof.
  cbv zeta. intros Htrace Hlast Hrole HJ.
  destruct (chat_messages_transform_trace m ms) as [[Hsys _] | (Htext & d0 & _ & Hcases)].
  { rewrite Hsys in Htrace. apply app_eq_self_inv in Htrace. discriminate Htrace. }
  cbv zeta in Hcases.
  assert (Hms : snd (snd (chat_messages_transform (m, ms))) = after_edit doc ms
                /\ doc = written_document m ms).
  { destruct Hcases as [[E _] | [[E _] | [[E _] | (c0 & [E | E] & Hms)]]];
      rewrite E in Htrace; apply app_inv_head in Htrace; try discriminate Htrace.
    injection Htrace as _ _ Hdoc _ Hc. subst c0. by rewrite Hms, Hdoc. }
  destruct Hms as [-> Hdoc].
  destruct Htext as (lastMsg' & Hlast' & Htext).
  assert (lastMsg' = lastMsg) as -> by congruence.
  assert (Hparts : Message.parts lastMsg <> []).
  { intros E. rewrite E in Htext. discriminate Htext. }
  destruct (written_document_tail m ms lastMsg Hlast Hrole Hparts) as [A HA].
  unfold after_edit. rewrite Hdoc, HA. by rewrite edited_text_unchanged.
Qed.

End UnchangedSave.

(** When the editor leaves the document as it was written (the round
    trip succeeds and the file read back is the file written), the last
    message is the user's, and the marker [(Current - Editable)] occurs
    nowhere in the lines rendered for that message, the first text part
    of the message gets the whole rendering of the message as its text:
    the lines of all its parts joined by line feeds, tool and other parts
    included, trimmed.  The rendering is assumed to hold a character
    other than the line feed. *)
Theorem unchanged_save_takes_the_rendering `{Host} (m : Machine) (ms : list Message.t)
    (d f doc cmd : jsstring) (lastMsg : Message.t) (i : nat) (c : N) :
  let r := chat_messages_transform (m, ms) in
  let rendering := JSString.join LF (flat_map (format_part []) (Message.parts lastMsg)) in
  syscalls (world (fst (snd r)))
  = syscalls (world m)
    ++ [SysMkdtemp d; SysWriteFile f doc; SysExec cmd; SysReadFile f doc; SysUnlink f] ->
  ms !! (length ms - 1) = Some lastMsg ->
  Info.role (Message.info lastMsg) = js "user" ->
  (forall k, ~ occurs_at (js "(Current - Editable)") rendering k) ->
  rendering !! i = Some c -> c <> 10%N ->
  snd (snd r) = spliced (JSString.trim rendering) ms.
Proof.
  cbv zeta. intros Htrace Hlast Hrole HJ Hi Hc.
  rewrite (unchanged_save_splice m ms d f doc cmd lastMsg Htrace Hlast Hrole HJ).
  destruct (JSString.replace_leading_newlines _) as [|c' b] eqn:E; [|done].
  apply replace_leading_newlines_nil in E.
  by destruct (Hc (Forall_lookup_1 _ _ _ _ E Hi)).
Qed.

(** The example conversation saved as it was written: the text part
    ["fix it"] of the last message takes up the line of the file part
    before it and the text of the part after it. *)
Lemma unchanged_save_takes_the_rendering_witness :
  let H := example_host None None in
  snd (snd (chat_messages_transform (example_machine, example_messages)))
  = spliced (js "[file: {}]" ++ LF ++ LF ++ js "fix it" ++ LF ++ LF ++ js "please")
      example_messages.
Proof.
  intros H.
  apply (unchanged_save_takes_the_rendering (H := H) example_machine example_messages
           example_tempDir example_tempFile
           (written_document example_machine example_messages) example_command
           (message_of (js "user") [file_part; text_part (js "fix it");
                                     text_part (js "please")])
           0 91%N).
  - vm_compute. reflexivity.
  - reflexivity.
  - reflexivity.
  - apply no_occurrence_of_lastIndexOf. vm_compute. reflexivity.
  - reflexivity.
  - discriminate.
Defined.

(** When the editor leaves the document as it was written and the last
    message, the user's, has one part, a text part without the marker and
    with a character other than the line feed, the text of that part is
    replaced by itself trimmed: white space around the text is lost. *)
Theorem unchanged_save_trims_the_text `{Host} (m : Machine) (ms : list Message.t)
    (d f doc cmd : jsstring) (lastMsg : Message.t) (part : Part.t) (i : nat) (c : N) :
  let r := chat_messages_transform (m, ms) in
  syscalls (world (fst (snd r)))
  = syscalls (world m)
    ++ [SysMkdtemp d; SysWriteFile f doc; SysExec cmd; SysReadFile f doc; SysUnlink f] ->
  ms !! (length ms - 1) = Some lastMsg ->
  Info.role (Message.info lastMsg) = js "user" ->
  Message.parts lastMsg = [part] ->
  Part.type part = js "text" ->
  (forall k, ~ occurs_at (js "(Current - Editable)") (Part.text part) k) ->
  Part.text part !! i = Some c -> c <> 10%N ->
  snd (snd r) = spliced (JSString.trim (Part.text part)) ms.
Proof.
  cbv zeta. intros Htrace Hlast Hrole Hparts Htype Hmarker Hi Hc.
  pose proof (unchanged_save_splice m ms d f doc cmd lastMsg Htrace Hlast Hrole) as Hs.
  cbv zeta in Hs. rewrite Hparts in Hs.
  assert (EJ : JSString.join LF (flat_map (format_part []) [part]) = Part.text part ++ LF).
  { cbn [flat_map]. unfold format_part. rewrite Htype, streqb_refl.
    unfold push. cbn [app JSString.join]. by rewrite app_nil_r. }
  rewrite EJ in Hs. rewrite Hs.
  - rewrite replace_leading_newlines_app.
    destruct (JSString.replace_leading_newlines (Part.text part)) as [|c' b] eqn:E.
    + apply replace_leading_newlines_nil in E.
      by destruct (Hc (Forall_lookup_1 _ _ _ _ E Hi)).
    + cbn [app]. change LF with [10%N]. by rewrite trim_snoc.
  - intros k Hk. apply (occurs_at_skip _ _ 10%N) in Hk as [Hk | (k' & _ & Hk)].
    + by apply Hmarker in Hk.
    + apply occurs_at_nil in Hk as [? _]. discriminate.
    + apply marker_without_line_feed.
Qed.

(** The text ["  fix it "] saved as it was written comes back as
    ["fix it"]. *)
Lemma unchanged_save_trims_the_text_witness :
  let H := example_host None None in
  snd (snd (chat_messages_transform (example_machine, example_padded)))
  = spliced (js "fix it") example_padded.
Proof.
  intros H.
  apply (unchanged_save_trims_the_text (H := H) example_machine example_padded
           example_tempDir example_tempFile
           (written_document example_machine example_padded) example_command
           (message_of (js "user") [text_part (js "  fix it ")])
           (text_part (js "  fix it ")) 2 102%N).
  - vm_compute. reflexivity.
  - reflexivity.
  - reflexivity.
  - reflexivity.
  - reflexivity.
  - apply no_occurrence_of_lastIndexOf. vm_compute. reflexivity.
  - reflexivity.
  - discriminate.
Defined.

(** When the editor leaves the document as it was written and the last
    message, the user's, has one part, a text part whose text is empty or
    made of line feeds only, the text of that part becomes the separator
    ["---"] of the document. *)
Theorem unchanged_save_of_blank_text `{Host} (m : Machine) (ms : list Message.t)
    (d f doc cmd : jsstring) (lastMsg : Message.t) (part : Part.t) :
  let r := chat_messages_transform (m, ms) in
  syscalls (world (fst (snd r)))
  = syscalls (world m)
    ++ [SysMkdtemp d; SysWriteFile f doc; SysExec cmd; SysReadFile f doc; SysUnlink f] ->
  ms !! (length ms - 1) = Some lastMsg ->
  Info.role (Message.info lastMsg) = js "user" ->
  Message.parts lastMsg = [part] ->
  Part.type part = js "text" ->
  Forall (fun c => c = 10%N) (Part.text part) ->
  snd (snd r) = spliced (js "---") ms.
Proof.
  cbv zeta. intros Htrace Hlast Hrole Hparts Htype Hblank.
  pose proof (unchanged_save_splice m ms d f doc cmd lastMsg Htrace Hlast Hrole) as Hs.
  cbv zeta in Hs. rewrite Hparts in Hs.
  assert (EJ : JSString.join LF (flat_map (format_part []) [part]) = Part.text part ++ LF).
  { cbn [flat_map]. unfold format_part. rewrite Htype, streqb_refl.
    unfold push. cbn [app JSString.join]. by rewrite app_nil_r. }
  rewrite EJ in Hs.
  assert (Hall : Forall (fun c => c = 10%N) (Part.text part ++ LF)).
  { apply Forall_app. split; [done | by constructor]. }
  rewrite Hs.
  - apply replace_leading_newlines_nil in Hall. by rewrite Hall.
  - intros k Hk.
    assert (E : (Part.text part ++ LF) !! (k + 0) = Some 40%N)
      by (by apply (occurs_at_lookup (js "(Current - Editable)"))).
    pose proof (Forall_lookup_1 _ _ _ _ Hall E) as E'. discriminate E'.
Qed.

(** A message with an empty text, saved as it was written, reads
    ["---"] afterwards. *)
Lemma unchanged_save_of_blank_text_witness :
  let H := example_host None None in
  snd (snd (chat_messages_transform (example_machine, example_blank)))
  = spliced (js "---") example_blank.
Proof.
  intros H.
  apply (unchanged_save_of_blank_text (H := H) example_machine example_blank
           example_tempDir example_tempFile
           (written_document example_machine example_blank) example_command
           (message_of (js "user") [text_part []]) (text_part [])).
  - vm_compute. reflexivity.
  - reflexivity.
  - reflexivity.
  - reflexivity.
  - reflexivity.
  - constructor.
Defined.

(** The text under the marker comes back trimmed: for a document that
    ends in a header with the marker, an empty line, a section [B], and
    the separator line, the code takes [B] without the white space around
    it, whatever stands before the marker, provided the marker does not
    occur in [B] and [B] holds a character other than the line feed.  A
    separator line inside [B] is kept, the cut being made at the last
    one. *)
Theorem edited_text_takes_the_section (A B : jsstring) (i : nat) (c : N) :
  (forall k, ~ occurs_at (js "(Current - Editable)") B k) ->
  B !! i = Some c -> c <> 10%N ->
  edited_text (A ++ js "(Current - Editable)" ++ LF ++ LF ++ B ++ LF ++ js "---" ++ LF)
  = Some (JSString.trim B).
Proof.
  intros HB Hi Hc. rewrite edited_text_unchanged by done.
  destruct (JSString.replace_leading_newlines B) as [|c' b] eqn:E; [|done].
  apply replace_leading_newlines_nil in E.
  by destruct (Hc (Forall_lookup_1 _ _ _ _ E Hi)).
Qed.

(** A section of two paragraphs with a separator line between them. *)
Lemma edited_text_takes_the_section_witness :
  edited_text (js "## [1/1] USER " ++ js "(Current - Editable)" ++ LF ++ LF
               ++ (js " one" ++ LF ++ js "---" ++ LF ++ js "two" ++ LF)
               ++ LF ++ js "---" ++ LF)
  = Some (js "one" ++ LF ++ js "---" ++ LF ++ js "two").
Proof.
  apply (edited_text_takes_the_section (js "## [1/1] USER ")
           (js " one" ++ LF ++ js "---" ++ LF ++ js "two" ++ LF) 1 111%N).
  - apply no_occurrence_of_lastIndexOf. vm_compute. reflexivity.
  - reflexivity.
  - discriminate.
Defined.

(** Nothing is taken from the edited file in two cases only: the marker
    [(Current - Editable)] occurs nowhere in it, or no line feed stands
    at or after the last occurrence of the marker. *)
Theorem edited_text_none_iff (content : jsstring) :
  edited_text content = None
  <-> (forall k, ~ occurs_at (js "(Current - Editable)") content k)
      \/ exists k, last_occurrence (js "(Current - Editable)") content k
                   /\ forall n, k <= n -> ~ occurs_at LF content n.
Proof.
  unfold edited_text. cbv zeta.
  destruct (lastIndexOf_spec content (js "(Current - Editable)"))
    as [[-> Hnone] | (k & -> & Hk)].
  { cbn [Z.eqb negb]. split; [by left | done]. }
  rewrite of_nat_not_minus_one. cbn [negb].
  assert (Hbound : k <= length content).
  { destruct Hk as [Hk _]. apply occurs_at_bound in Hk. lia. }
  destruct (indexOf_spec content LF k Hbound) as [[-> Hfeed] | (n & -> & Hn)].
  - cbn [Z.eqb negb]. split; [intros _; right; by exists k | done].
  - rewrite of_nat_not_minus_one. cbn [negb]. split; [done |].
    intros [Hnone | (k' & Hk' & Hfeed)].
    + destruct Hk as [Hk _]. by destruct (Hnone k).
    + assert (k' = k) as -> by (by eapply last_occurrence_unique).
      destruct Hn as (Hn & Hle & _). by destruct (Hfeed n Hle).
Qed.
